(** * SimpleCDRipper: the TOC parser, the disc fingerprint, the lookup
      client and the rip/encode pipeline of [SimpleCDRipperGUI.py]

    The development is a shallow embedding of the non-GUI logic of
    [SimpleCDRipperGUI.py].  Python values are modelled as follows.

    - [str] is [string]; a character is a code point below 256 (Latin-1),
      so that [str.isspace], [str.isalnum] and [str.lower] are the exact
      restrictions of the Python predicates to that range.
    - [int] is [Z] (unbounded); [int(s)] is [Py.int], [str(n)] is [Py.str].
      CPython's optional limit on the number of digits of a conversion
      ([sys.set_int_max_str_digits]) is taken to be disabled.
    - [float] is IEEE-754 binary64, through the Standard Library's
      [SpecFloat] specification with precision 53 and maximal exponent 1024.
    - Qt signals, filesystem calls and process launches are recorded, in
      program order, in a list of events; the results of external programs
      and of the HTTP request, and what the system answers to
      [os.makedirs] and [QPixmap.save] where the known directories and
      files do not decide, are inputs of the model. *)

From Stdlib Require Import String Ascii List ZArith NArith Lia Bool.
From Stdlib Require Import DecimalString DecimalZ SpecFloat Sorted.
Import ListNotations.
Open Scope string_scope.
Open Scope Z_scope.

(** In this file [++] appends strings; lists are appended with [+++]. *)
Notation "l +++ r" := (List.app l r) (at level 60, right associativity).

(** ** Python built-ins used by the program *)

Module Py.

Definition ord (c : ascii) : N := N_of_ascii c.

Definition in_range (lo hi : N) (c : ascii) : bool :=
  ((lo <=? ord c) && (ord c <=? hi))%N.

(** [str.isspace] on one character: TAB..CR, FS..US, SPACE, NEL, NBSP. *)
Definition isspace (c : ascii) : bool :=
  in_range 9 13 c || in_range 28 32 c || in_range 133 133 c
  || in_range 160 160 c.

(** Characters at which [str.splitlines] breaks a line:
    LF, VT, FF, CR, FS, GS, RS, NEL ("\r\n" counts as one break). *)
Definition is_linebreak (c : ascii) : bool :=
  in_range 10 13 c || in_range 28 30 c || in_range 133 133 c.

Definition isdecimal (c : ascii) : bool := in_range 48 57 c.

Definition isupper_ascii (c : ascii) : bool := in_range 65 90 c.
Definition islower_ascii (c : ascii) : bool := in_range 97 122 c.

(** [str.isalnum] on one character.  Above 127 the alphanumeric code
    points are: feminine and masculine ordinal (170, 186), superscript
    two, three and one (178, 179, 185), micro sign (181), the vulgar
    fractions (188..190) and the letters 192..255 except the
    multiplication and division signs (215, 247). *)
Definition isalnum (c : ascii) : bool :=
  isdecimal c || isupper_ascii c || islower_ascii c
  || in_range 170 170 c || in_range 178 179 c || in_range 181 181 c
  || in_range 185 186 c || in_range 188 190 c
  || in_range 192 214 c || in_range 216 246 c || in_range 248 255 c.

(** [str.lower] on one character: A..Z and the capital letters 192..222
    (except 215) move up by 32. *)
Definition lower_char (c : ascii) : ascii :=
  if isupper_ascii c || in_range 192 214 c || in_range 216 222 c
  then ascii_of_N (ord c + 32) else c.

Fixpoint lower (s : string) : string :=
  match s with
  | EmptyString => EmptyString
  | String c r => String (lower_char c) (lower r)
  end.

Definition is_empty (s : string) : bool :=
  match s with EmptyString => true | _ => false end.

(** Truth value of a [str]: non-empty. *)
Definition truthy (s : string) : bool := negb (is_empty s).

Fixpoint lstrip (s : string) : string :=
  match s with
  | EmptyString => EmptyString
  | String c r => if isspace c then lstrip r else s
  end.

Fixpoint rstrip (s : string) : string :=
  match s with
  | EmptyString => EmptyString
  | String c r =>
      let r' := rstrip r in
      if is_empty r' && isspace c then EmptyString else String c r'
  end.

Definition strip (s : string) : string := rstrip (lstrip s).

(** [s.split()]: the maximal runs of non-whitespace characters.
    [tok] is the run being read. *)
Fixpoint split_from (tok : string) (s : string) : list string :=
  match s with
  | EmptyString => if is_empty tok then [] else [tok]
  | String c r =>
      if isspace c
      then (if is_empty tok then split_from EmptyString r
            else tok :: split_from EmptyString r)
      else split_from (tok ++ String c EmptyString) r
  end.

Definition split (s : string) : list string := split_from EmptyString s.

(** [s.splitlines()]: [cur] is the line being read; no empty last line is
    produced after a final line break. *)
Fixpoint splitlines_from (cur : string) (s : string) : list string :=
  match s with
  | EmptyString => if is_empty cur then [] else [cur]
  | String c r =>
      if is_linebreak c then
        match r with
        | String c' r' =>
            if (ord c =? 13)%N && (ord c' =? 10)%N
            then cur :: splitlines_from EmptyString r'
            else cur :: splitlines_from EmptyString r
        | EmptyString => cur :: splitlines_from EmptyString r
        end
      else splitlines_from (cur ++ String c EmptyString) r
  end.

Definition splitlines (s : string) : list string :=
  splitlines_from EmptyString s.

Definition startswith (s p : string) : bool := prefix p s.

Definition endswith (s p : string) : bool :=
  (String.length p <=? String.length s)%nat
  && String.eqb (substring (String.length s - String.length p)
                           (String.length p) s) p.

(** ["".join(c for c in s if f(c))] *)
Fixpoint filter_chars (f : ascii -> bool) (s : string) : string :=
  match s with
  | EmptyString => EmptyString
  | String c r =>
      if f c then String c (filter_chars f r) else filter_chars f r
  end.

(** [l.insert(i, x)] for [0 <= i] (an index beyond the end appends). *)
Definition insert {A} (i : nat) (x : A) (l : list A) : list A :=
  firstn i l +++ x :: skipn i l.

(** [sep.join(l)] *)
Fixpoint join (sep : string) (l : list string) : string :=
  match l with
  | [] => EmptyString
  | [x] => x
  | x :: r => x ++ sep ++ join sep r
  end.

(** [str(n)] for an [int]: decimal digits, a leading "-" when negative. *)
Definition str (n : Z) : string := NilZero.string_of_int (Z.to_int n).

Definition digit_value (c : ascii) : Z := Z.of_N (ord c) - 48.

(** The digits of an [int] literal: decimal digits, where a single
    underscore may stand between two digits.  [acc] is the value read so
    far, [after_digit] tells whether the previous character is a digit. *)
Fixpoint int_digits (acc : Z) (after_digit : bool) (s : string)
  : option Z :=
  match s with
  | EmptyString => if after_digit then Some acc else None
  | String c r =>
      if isdecimal c then int_digits (10 * acc + digit_value c) true r
      else if (ord c =? 95)%N
           then (if after_digit then int_digits acc false r else None)
           else None
  end.

(** The whitespace [int] skips around a literal.  The conversion first
    turns the whitespace above 127 (NEL, NBSP) into spaces and then skips
    what C calls space: TAB..CR and SPACE.  The separators FS..US, which
    [str.isspace] accepts, are not skipped. *)
Definition int_space (c : ascii) : bool :=
  in_range 9 13 c || in_range 32 32 c || in_range 133 133 c
  || in_range 160 160 c.

Fixpoint int_lstrip (s : string) : string :=
  match s with
  | EmptyString => EmptyString
  | String c r => if int_space c then int_lstrip r else s
  end.

Fixpoint int_rstrip (s : string) : string :=
  match s with
  | EmptyString => EmptyString
  | String c r =>
      let r' := int_rstrip r in
      if is_empty r' && int_space c then EmptyString else String c r'
  end.

(** [int(s)] in base 10: the whitespace around the literal is dropped,
    one sign is allowed; [None] stands for [ValueError]. *)
Definition int (s : string) : option Z :=
  match int_rstrip (int_lstrip s) with
  | String "+" r => int_digits 0 false r
  | String "-" r => option_map Z.opp (int_digits 0 false r)
  | t => int_digits 0 false t
  end.

(** [str.isprintable] on one character: everything but the control
    characters (0..31, 127..159), NBSP and the soft hyphen (173). *)
Definition isprintable (c : ascii) : bool :=
  in_range 32 126 c || in_range 161 172 c || in_range 174 255 c.

Definition hex_digit (n : N) : ascii :=
  if (n <? 10)%N then ascii_of_N (48 + n) else ascii_of_N (87 + n).

Definition backslash : ascii := ascii_of_N 92.
Definition apostrophe : ascii := ascii_of_N 39.
Definition double_quote : ascii := ascii_of_N 34.

(** One character inside [repr(s)], between the quotes [quote]. *)
Definition repr_char (quote c : ascii) : string :=
  if Ascii.eqb c quote || Ascii.eqb c backslash
  then String backslash (String c EmptyString)
  else if (ord c =? 9)%N then String backslash "t"
  else if (ord c =? 10)%N then String backslash "n"
  else if (ord c =? 13)%N then String backslash "r"
  else if isprintable c then String c EmptyString
  else String backslash
         (String "x"
            (String (hex_digit (ord c / 16))
               (String (hex_digit (ord c mod 16)) EmptyString))).

Fixpoint repr_chars (quote : ascii) (s : string) : string :=
  match s with
  | EmptyString => EmptyString
  | String c r => repr_char quote c ++ repr_chars quote r
  end.

Fixpoint contains (c : ascii) (s : string) : bool :=
  match s with
  | EmptyString => false
  | String d r => Ascii.eqb c d || contains c r
  end.

(** [repr(s)] for a [str]: between apostrophes, or between double quotes
    when the text holds an apostrophe and no double quote. *)
Definition repr (s : string) : string :=
  let quote := if contains apostrophe s && negb (contains double_quote s)
               then double_quote else apostrophe in
  String quote (repr_chars quote s ++ String quote EmptyString).

(** The first [n] characters: the precision of a format such as
    [%.200R]. *)
Fixpoint take (n : nat) (s : string) : string :=
  match n, s with
  | S m, String c r => String c (take m r)
  | _, _ => EmptyString
  end.

(** [format(n, "02d")]: zero-padded to width 2, the sign counting in the
    width. *)
Definition format_02d (n : Z) : string :=
  if (0 <=? n) && (n <? 10) then "0" ++ str n else str n.

(** [os.path.join] (POSIX) of two components, and of a first component
    with a list of further ones. *)
Definition path_join2 (path b : string) : string :=
  if startswith b "/" then b
  else if is_empty path || endswith path "/" then path ++ b
  else path ++ "/" ++ b.

Definition path_join (a : string) (p : list string) : string :=
  fold_left path_join2 p a.

(** [int(x)] for a [float]: truncation towards zero of a finite value. *)
Definition trunc (x : spec_float) : option Z :=
  match x with
  | S754_zero _ => Some 0
  | S754_finite s m e =>
      let a := match e with
               | Z0 => Zpos m
               | Zpos p => Zpos m * Z.pow_pos 2 p
               | Zneg p => Zpos m / Z.pow_pos 2 p
               end in
      Some (if s then - a else a)
  | _ => None
  end.

Definition prec : Z := 53.
Definition emax : Z := 1024.

(** The [float] nearest to an integer (exact below 2^53). *)
Definition float_of_Z (n : Z) : spec_float :=
  match n with
  | Z0 => S754_zero false
  | Zpos p => binary_normalize prec emax (Zpos p) 0 false
  | Zneg p => binary_normalize prec emax (Zneg p) 0 true
  end.

(** [a / b] on two [int]s (true division), for operands below 2^53, and
    [x * n] for a [float] and an [int]. *)
Definition truediv (a b : Z) : spec_float :=
  SFdiv prec emax (float_of_Z a) (float_of_Z b).

Definition fmul_int (x : spec_float) (n : Z) : spec_float :=
  SFmul prec emax x (float_of_Z n).

(** Every character of [s] satisfies [f]. *)
Fixpoint all_chars (f : ascii -> bool) (s : string) : bool :=
  match s with
  | EmptyString => true
  | String c r => f c && all_chars f r
  end.

Definition not_plus (c : ascii) : bool := negb (Ascii.eqb c "+").

(** A field that can be told apart inside a fingerprint: not empty, and
    without the separator (every decimal numeral is one). *)
Definition plus_free (s : string) : bool :=
  negb (is_empty s) && all_chars not_plus s.

Definition sign_or_digit (c : ascii) : bool :=
  isdecimal c || Ascii.eqb c "-".

Definition not_slash (c : ascii) : bool := negb (Ascii.eqb c "/").

Fixpoint last_char (s : string) : option ascii :=
  match s with
  | EmptyString => None
  | String c r => match last_char r with Some d => Some d | None => Some c end
  end.

Definition first_char (s : string) : option ascii :=
  match s with
  | EmptyString => None
  | String c _ => Some c
  end.

(** A decimal numeral: one or more decimal digits. *)
Definition numeral (s : string) : bool :=
  negb (is_empty s) && all_chars isdecimal s.

End Py.

(** ** Exceptions and results *)

Inductive exn : Type :=
| IndexError                      (* list index out of range *)
| ValueError (literal : string)   (* int() of a string that is no number *)
| ZeroDivisionError
| OverflowError                   (* int() of a float that is not finite *)
| OSError (msg : string).          (* a failed call of the system, by its text *)

(** [str(e)] as the handlers print it. *)
Definition exn_str (e : exn) : string :=
  match e with
  | IndexError => "list index out of range"
  | ValueError lit =>
      "invalid literal for int() with base 10: "
      ++ Py.take 200 (Py.repr lit)
  | ZeroDivisionError => "division by zero"
  | OverflowError => "cannot convert float infinity to integer"
  | OSError msg => msg
  end.

Inductive result (A : Type) : Type :=
| Ok (a : A)
| Raise (e : exn).
Arguments Ok {A} a.
Arguments Raise {A} e.

Definition rbind {A B} (r : result A) (k : A -> result B) : result B :=
  match r with
  | Ok a => k a
  | Raise e => Raise e
  end.

Declare Scope result_scope.
Delimit Scope result_scope with result.
Notation "x <- r ;; k" := (rbind r (fun x => k))
  (at level 61, r at next level, right associativity) : result_scope.

(** [l[i]] *)
Definition index {A} (l : list A) (i : nat) : result A :=
  match nth_error l i with
  | Some a => Ok a
  | None => Raise IndexError
  end.

(** [int(s)] with its exception. *)
Definition int_of (s : string) : result Z :=
  match Py.int s with
  | Some n => Ok n
  | None => Raise (ValueError s)
  end.

(** [line.split()[i]] *)
Definition field (line : string) (i : nat) : result string :=
  index (Py.split line) i.

(** JSON values as [json.loads] returns them; an object is the list of
    its members, looked up by key (numbers are taken as integers). *)
#[warnings="-register-all"]
Inductive json : Type :=
| JNull
| JBool (b : bool)
| JNum (n : Z)
| JStr (s : string)
| JArr (l : list json)
| JObj (members : list (string * json)).

Definition dict : Type := list (string * json).

Fixpoint get (d : dict) (k : string) : option json :=
  match d with
  | [] => None
  | (k', v) :: r => if String.eqb k k' then Some v else get r k
  end.

(** [k in d] *)
Definition has_key (d : dict) (k : string) : bool :=
  match get d k with Some _ => true | None => false end.

(** Truth value of a JSON value. *)
Definition json_truthy (v : json) : bool :=
  match v with
  | JNull => false
  | JBool b => b
  | JNum n => negb (n =? 0)
  | JStr s => Py.truthy s
  | JArr l => match l with [] => false | _ => true end
  | JObj m => match m with [] => false | _ => true end
  end.

(** ** LookupWorker: reading the table of contents and querying the
       metadata service *)

Module LookupWorker.
Local Open Scope result_scope.

Definition VERBOSE : bool := false.

Inductive Signal : Type :=
| log_message (s : string)
| error (s : string)
| finished (data : dict).

(** What the run computes from the scan: [track_count], [leadout] and
    [offsets] (the offsets are kept as the text fields they come from). *)
Record TOC : Type := mkTOC {
  track_count : nat;
  leadout : Z;
  offsets : list string
}.

(** The condition of the comprehension that selects the track lines:
    [l.strip() and l.strip().split()[0].endswith('.')]. *)
Definition is_track_line (l : string) : bool :=
  Py.truthy (Py.strip l)
  && match Py.split (Py.strip l) with
     | tok :: _ => Py.endswith tok "."
     | [] => false
     end.

Definition track_lines (lines : list string) : list string :=
  filter is_track_line lines.

(** [[line.split()[3] for line in track_lines]] *)
Fixpoint offsets_of (tl : list string) : result (list string) :=
  match tl with
  | [] => Ok []
  | line :: r =>
      f <- field line 3 ;;
      rest <- offsets_of r ;;
      Ok (f :: rest)
  end.

Definition is_total_line (line : string) : bool :=
  Py.startswith (Py.strip line) "TOTAL".

(** The loop that looks for the TOTAL line: 0 when there is none, the
    second field of the first one otherwise. *)
Fixpoint total_sectors (lines : list string) : result Z :=
  match lines with
  | [] => Ok 0
  | line :: r =>
      if is_total_line line
      then (f <- field line 1 ;; int_of f)
      else total_sectors r
  end.

(** Lines 408-425 of [run]; [Ok None] is the early return taken when no
    track line is found. *)
Definition read_toc (lines : list string) : result (option TOC) :=
  let tl := track_lines lines in
  let track_count := length tl in
  if (track_count =? 0)%nat then Ok None
  else
    offsets <- offsets_of tl ;;
    line0 <- index tl 0 ;;
    f0 <- field line0 3 ;;
    first_track_sector <- int_of f0 ;;
    total <- total_sectors lines ;;
    Ok (Some (mkTOC track_count (first_track_sector + total) offsets)).

(** Line 427: the fingerprint. *)
Definition toc_str (t : TOC) : string :=
  "1+" ++ Py.str (Z.of_nat (track_count t)) ++ "+" ++ Py.str (leadout t)
  ++ "+" ++ Py.join "+" (offsets t).

Definition url (toc : string) : string :=
  "https://musicbrainz.org/ws/2/discid/-?toc=" ++ toc
  ++ "&fmt=json&inc=artist-credits+recordings+release-groups".

(** Result of [subprocess.run(..., check=True)] for the scan. *)
Inductive ProcResult : Type :=
| SpawnFailed (msg : string)
| Exited (returncode : Z) (stderr : string).

(** Result of [requests.get]: a transport failure, or a response with
    its status, reason phrase, body text and decoded body (an error text
    when the body is not JSON). *)
Inductive HttpResult : Type :=
| RequestFailed (msg : string)
| Response (status_code : Z) (reason text : string)
           (body : string + dict).

(** [response.raise_for_status()] *)
Definition raise_for_status (status : Z) (reason u : string)
  : option string :=
  if (400 <=? status) && (status <? 500)
  then Some (Py.str status ++ " Client Error: " ++ reason
             ++ " for url: " ++ u)
  else if (500 <=? status) && (status <? 600)
  then Some (Py.str status ++ " Server Error: " ++ reason
             ++ " for url: " ++ u)
  else None.

(** Lines 446-449: what is done with the decoded response. *)
Definition dispatch (data : dict) : Signal :=
  if (has_key data "releases"
      && match get data "releases" with
         | Some v => json_truthy v
         | None => false
         end)
     || has_key data "cdstub"
  then finished data
  else error "No releases found for this disc.".

Definition query (t : TOC) (http_get : string -> HttpResult)
  : list Signal :=
  let s := toc_str t in
  let u := url s in
  [log_message ("DEBUG: Final TOC String: " ++ s);
   log_message ("DEBUG: Querying URL: " ++ u)]
  ++ match http_get u with
     | RequestFailed msg => [error ("Network error: " ++ msg)]
     | Response status reason text body =>
         [log_message ("DEBUG: Received HTTP Status: " ++ Py.str status)]
         ++ (if VERBOSE
             then [log_message "--- Server Raw Response ---";
                   log_message text;
                   log_message "---------------------------"]
             else [])
         ++ match raise_for_status status reason u with
            | Some msg => [error ("Network error: " ++ msg)]
            | None =>
                match body with
                | inl msg => [error ("Network error: " ++ msg)]
                | inr data => [dispatch data]
                end
            end
     end.

(** [LookupWorker.run]: the signals emitted, in order. *)
Definition run (device : string) (scan : ProcResult)
           (http_get : string -> HttpResult) : list Signal :=
  log_message ("Getting Table of Contents from " ++ device ++ "...")
  :: match scan with
     | SpawnFailed msg => [error msg]
     | Exited rc stderr =>
         if negb (rc =? 0) then [error ("Failed to read CD: " ++ stderr)]
         else
           let lines := Py.splitlines stderr in
           (if VERBOSE
            then [log_message "--- cdparanoia Raw Output ---";
                  log_message stderr;
                  log_message "-----------------------------"]
            else [])
           ++ match read_toc lines with
              | Raise e => [error (exn_str e)]
              | Ok None => [error "No audio tracks found."]
              | Ok (Some t) => query t http_get
              end
     end.

End LookupWorker.

(** ** The filesystem and the events of a rip job *)

(** What the system answers where the record below does not decide: the
    directories it refuses to make (no permission, a medium that cannot
    be written, a name that is too long or not valid, a file reached
    through another spelling of the path, ...), the text of the exception
    it raises when a call on a path fails, and the files it does not let
    a picture be saved to.  These answers are inputs: a statement about
    a run holds for every system. *)
Record System : Type := mkSystem {
  refuses : string -> bool;
  error_text : string -> string;
  save_fails : string -> bool
}.

(** A system that refuses nothing. *)
Definition willing : System :=
  mkSystem (fun _ => false) (fun _ => EmptyString) (fun _ => false).

(** The part of the filesystem the job touches: the directories and the
    regular files known to exist, each under the text of the path it is
    reached with, and the answers of the system. *)
Record FS : Type := mkFS {
  dirs : list string;
  files : list string;
  system : System
}.

Definition exists_in (p : string) (l : list string) : bool :=
  existsb (String.eqb p) l.

(** What is left of [path] behind its beginning [f]. *)
Fixpoint rest_after (f path : string) : option string :=
  match f, path with
  | EmptyString, _ => Some path
  | String a f', String b path' =>
      if Ascii.eqb a b then rest_after f' path' else None
  | String _ _, EmptyString => None
  end.

(** [f] is [path] or stands above it: [path] is [f], or [f] followed by
    "/" and more. *)
Definition at_or_above (f path : string) : bool :=
  negb (Py.is_empty f)
  && match rest_after f path with
     | Some r => Py.is_empty r || Py.startswith r "/"
     | None => false
     end.

(** A regular file stands at [path] or above it: no directory can be
    made there. *)
Definition blocked (path : string) (fs : FS) : bool :=
  existsb (fun f => at_or_above f path) (files fs).

(** [os.makedirs(path, exist_ok=...)].  A directory that is there is
    accepted when [exist_ok] is set, and nothing changes.  Otherwise the
    call raises for the empty path, when a regular file stands at the
    path or above it, and when the system refuses; the text of the
    exception is the system's.  When it returns the directory is there. *)
Definition os_makedirs (path : string) (exist_ok : bool) (fs : FS)
  : result FS :=
  if exists_in path (dirs fs)
  then (if exist_ok then Ok fs
        else Raise (OSError (error_text (system fs) path)))
  else if Py.is_empty path || blocked path fs || refuses (system fs) path
  then Raise (OSError (error_text (system fs) path))
  else Ok (mkFS (path :: dirs fs) (files fs) (system fs)).

Definition write_file (path : string) (fs : FS) : FS :=
  if exists_in path (files fs) then fs
  else mkFS (dirs fs) (path :: files fs) (system fs).

(** [QPixmap.save(path, "JPG")]: the result tells whether the file has
    been written; nothing is written where the system does not let it, or
    where a directory stands. *)
Definition save_pixmap (path : string) (fs : FS) : bool * FS :=
  if save_fails (system fs) path || exists_in path (dirs fs)
  then (false, fs)
  else (true, write_file path fs).

Inductive Signal : Type :=
| log_message (s : string)
| album_progress (n : Z)
| status_update (s : string)
| finished
| error (s : string).

Inductive Event : Type :=
| Emit (s : Signal)                       (* a signal of the worker *)
| MakeDirs (path : string)                (* os.makedirs(path, exist_ok=True) *)
| SavePixmap (path : string)              (* cover_art.save(path, "JPG") *)
| SubprocessRun (cmd : list string)       (* subprocess.run(cmd) *)
| Popen (cmd : list string)               (* subprocess.Popen(cmd) *)
| HandleError (message : string)          (* App.handle_error(message) *)
| SetStatus (s : string).                 (* status_label.setText(s) *)

Record World : Type := mkWorld {
  fs : FS;
  events : list Event
}.

(** A computation of the worker: it may raise, and it changes the world. *)
Definition M (A : Type) : Type := World -> result A * World.

Definition ret {A} (a : A) : M A := fun w => (Ok a, w).

Definition bind {A B} (c : M A) (k : A -> M B) : M B :=
  fun w => match c w with
           | (Ok a, w') => k a w'
           | (Raise e, w') => (Raise e, w')
           end.

Definition lift {A} (r : result A) : M A := fun w => (r, w).

Definition record (e : Event) : M unit :=
  fun w => (Ok tt, mkWorld (fs w) (events w +++ [e])).

Definition emit (s : Signal) : M unit := record (Emit s).

Definition update_fs (f : FS -> result FS) : M unit :=
  fun w => match f (fs w) with
           | Ok fs' => (Ok tt, mkWorld fs' (events w))
           | Raise e => (Raise e, w)
           end.

(** [pixmap.save(path, "JPG")] in the world. *)
Definition save (path : string) : M bool :=
  fun w => let r := save_pixmap path (fs w) in
           (Ok (fst r), mkWorld (snd r) (events w)).

Declare Scope rip_scope.
Delimit Scope rip_scope with rip.
Notation "x <- c ;; k" := (bind c (fun x => k))
  (at level 61, c at next level, right associativity) : rip_scope.
Notation "c ;; k" := (bind c (fun _ => k))
  (at level 61, right associativity) : rip_scope.

(** ** RipWorker *)

Module RipWorker.
Local Open Scope rip_scope.

Record Track : Type := mkTrack {
  number : string;
  title : string
}.

Record QPixmap : Type := mkQPixmap { isNull : bool }.

(** [rip_config] *)
Record Config : Type := mkConfig {
  device : string;
  format : string;
  save_path : string;
  artist : string;
  album : string;
  year : string;
  disc_num : string;
  disc_total : string;
  tracks : list Track;
  cover_art : option QPixmap
}.

(** Exit status and captured error text of the processes launched for
    one track: the extractor (cdparanoia) and, in the piped path, the
    encoder. *)
Record Outcome : Type := mkOutcome {
  rip_returncode : Z;
  rip_stderr : string;
  enc_returncode : Z;
  enc_stderr : string
}.

Definition sanitize_filename (name : string) : string :=
  Py.rstrip
    (Py.filter_chars
       (fun c => Py.isalnum c
                 || Ascii.eqb c " " || Ascii.eqb c "." || Ascii.eqb c "_")
       name).

Definition get_encoder_cmd (cfg : Config) (track : Track)
           (cover_art_path output_filename : string) : list string :=
  let artist := artist cfg in
  let album := album cfg in
  let year := year cfg in
  let track_num := number track in
  let title := title track in
  let disc_num := disc_num cfg in
  let disc_total := disc_total cfg in
  let fmt := format cfg in
  if String.eqb fmt "FLAC" then
    let cmd := ["flac"; "-s"; "--best"; "--verify";
                "-T"; "ARTIST=" ++ artist;
                "-T"; "ALBUM=" ++ album;
                "-T"; "TITLE=" ++ title;
                "-T"; "TRACKNUMBER=" ++ track_num;
                "-T"; "DATE=" ++ year;
                "-"; "-o"; output_filename] in
    let cmd := if Py.truthy disc_num
               then Py.insert 3 ("-T DISCNUMBER=" ++ disc_num) cmd
               else cmd in
    let cmd := if Py.truthy disc_total
               then Py.insert 3 ("-T TOTALDISCS=" ++ disc_total) cmd
               else cmd in
    let cmd := if Py.truthy cover_art_path
               then Py.insert 3 ("--picture=" ++ cover_art_path) cmd
               else cmd in
    cmd
  else if String.eqb fmt "MP3" then
    let cmd := ["lame"; "-S"; "-b"; "320"; "--add-id3v2";
                "--tt"; title; "--ta"; artist; "--tl"; album;
                "--ty"; year; "--tn"; track_num] in
    let cmd := if Py.truthy disc_num && Py.truthy disc_total
               then cmd +++ ["--tv"; "TPOS=" ++ disc_num ++ "/" ++ disc_total]
               else cmd in
    cmd +++ ["-"; output_filename]
  else if String.eqb fmt "OGG" then
    let cmd := ["oggenc"; "-Q"; "-q"; "10";
                "-a"; artist; "-l"; album; "-t"; title;
                "-N"; track_num; "-d"; year] in
    let cmd := if Py.truthy disc_num
               then cmd +++ ["-c"; "DISCNUMBER=" ++ disc_num]
               else cmd in
    let cmd := if Py.truthy disc_total
               then cmd +++ ["-c"; "TOTALDISCS=" ++ disc_total]
               else cmd in
    cmd +++ ["-o"; output_filename; "-"]
  else [].

(** Lines 472-481: the directory the tracks are written to. *)
Definition base_path (cfg : Config) : string :=
  Py.path_join (save_path cfg)
    [sanitize_filename (artist cfg); sanitize_filename (album cfg)].

Definition output_path (cfg : Config) : string :=
  if Py.truthy (disc_num cfg)
  then Py.path_join (base_path cfg) ["Disc " ++ disc_num cfg]
  else base_path cfg.

(** Lines 494-497: the file a track is written to. *)
Definition output_filename (cfg : Config) (track : Track) (track_num : Z)
  : string :=
  Py.path_join (output_path cfg)
    [Py.format_02d track_num ++ ". " ++ sanitize_filename (title track)
     ++ "." ++ Py.lower (format cfg)].

(** Line 526: [int((i + 1) / total_tracks * 100)]. *)
Definition progress (i : nat) (total_tracks : nat) : result Z :=
  if (total_tracks =? 0)%nat then Raise ZeroDivisionError
  else
    match Py.trunc (Py.fmul_int
                      (Py.truediv (Z.of_nat i + 1) (Z.of_nat total_tracks))
                      100) with
    | Some n => Ok n
    | None => Raise OverflowError
    end.

(** A process that exits with status 0 has written its output file. *)
Definition process_writes (returncode : Z) (path : string) : M unit :=
  if returncode =? 0 then update_fs (fun fs => Ok (write_file path fs))
  else ret tt.

(** The body of the loop over the tracks, for the track at position [i];
    the result tells whether the loop goes on ([false] is the [return]
    of a failed track). *)
Definition rip_track (cfg : Config) (env : nat -> Outcome)
           (total_tracks : nat) (cover_art_path : string)
           (i : nat) (track : Track) : M bool :=
  track_num <- lift (int_of (number track)) ;;
  emit (status_update
          ("Ripping Track " ++ Py.str track_num ++ "/"
           ++ Py.str (Z.of_nat total_tracks) ++ ": '" ++ title track
           ++ "'")) ;;
  let output_filename := output_filename cfg track track_num in
  ok <-
    (if String.eqb (format cfg) "WAV" then
       let rip_cmd := ["cdparanoia"; "-q"; "-d"; device cfg;
                       Py.str track_num; output_filename] in
       emit (log_message
               ("Ripping directly to WAV: " ++ Py.join " " rip_cmd)) ;;
       record (SubprocessRun rip_cmd) ;;
       process_writes (rip_returncode (env i)) output_filename ;;
       if negb (rip_returncode (env i) =? 0) then
         emit (error ("cdparanoia failed for track " ++ Py.str track_num
                      ++ ": " ++ rip_stderr (env i))) ;;
         ret false
       else ret true
     else
       let rip_cmd := ["cdparanoia"; "-q"; "-d"; device cfg;
                       Py.str track_num; "-"] in
       let encoder_cmd :=
         get_encoder_cmd cfg track cover_art_path output_filename in
       emit (log_message ("Ripping: " ++ Py.join " " rip_cmd)) ;;
       emit (log_message ("Encoding: " ++ Py.join " " encoder_cmd)) ;;
       record (Popen rip_cmd) ;;
       _ <- lift (index encoder_cmd 0) ;;
       record (Popen encoder_cmd) ;;
       process_writes (enc_returncode (env i)) output_filename ;;
       if negb (enc_returncode (env i) =? 0) then
         emit (error ("Encoder failed for track " ++ Py.str track_num
                      ++ ": " ++ enc_stderr (env i))) ;;
         ret false
       else ret true) ;;
  if ok then
    p <- lift (progress i total_tracks) ;;
    emit (album_progress p) ;;
    ret true
  else ret false.

(** [for i, track in enumerate(...)], from position [i] on. *)
Fixpoint rip_tracks (cfg : Config) (env : nat -> Outcome)
         (total_tracks : nat) (cover_art_path : string)
         (i : nat) (ts : list Track) : M bool :=
  match ts with
  | [] => ret true
  | track :: r =>
      go_on <- rip_track cfg env total_tracks cover_art_path i track ;;
      if go_on
      then rip_tracks cfg env total_tracks cover_art_path (S i) r
      else ret false
  end.

Definition has_cover (cfg : Config) : bool :=
  match cover_art cfg with
  | Some px => negb (isNull px)
  | None => false
  end.

(** The [try] block of [run]. *)
Definition run_body (cfg : Config) (env : nat -> Outcome) : M unit :=
  let total_tracks := length (tracks cfg) in
  let output_path := output_path cfg in
  record (MakeDirs output_path) ;;
  update_fs (os_makedirs output_path true) ;;
  cover_art_path <-
    (if has_cover cfg then
       let cover_art_path := Py.path_join output_path ["cover.jpg"] in
       record (SavePixmap cover_art_path) ;;
       _ <- save cover_art_path ;;
       ret cover_art_path
     else ret EmptyString) ;;
  completed <-
    rip_tracks cfg env total_tracks cover_art_path 0 (tracks cfg) ;;
  if completed then emit finished else ret tt.

(** [RipWorker.run]: an exception of the body is reported through the
    [error] signal. *)
Definition run (cfg : Config) (env : nat -> Outcome) (w : World)
  : World :=
  match run_body cfg env w with
  | (Ok _, w') => w'
  | (Raise e, w') => snd (emit (error (exn_str e)) w')
  end.

End RipWorker.

(** ** App: validation of the job, and the handling of a lookup result *)

Module App.


(** [all([rip_config['artist'], rip_config['album'], rip_config['tracks']])] *)
Definition valid (cfg : RipWorker.Config) : bool :=
  Py.truthy (RipWorker.artist cfg)
  && Py.truthy (RipWorker.album cfg)
  && match RipWorker.tracks cfg with [] => false | _ => true end.


(** What [lookup_finished] does with the metadata it receives. *)
Inductive Action : Type :=
| Error (message : string)          (* handle_error(message); return *)
| Choose (releases : list json)     (* ReleaseChoiceDialog(releases) *)
| Confirm (release : json)          (* QMessageBox.question for releases[0] *)
| Uncaught.                         (* an exception leaves the slot *)

Definition NoMetadata : string := "Could not find metadata for this disc.".
Definition StubOnly : string :=
  "Found a CDStub, but no official release. Please add to MusicBrainz or enter manually.".

(** ['releases' not in metadata or not metadata['releases']] *)
Definition releases_missing (metadata : dict) : bool :=
  match get metadata "releases" with
  | Some v => negb (json_truthy v)
  | None => true
  end.

(** [v[k]] for a key: [None] stands for the [KeyError] of an object
    without the key and for the [TypeError] of any other value. *)
Definition item (v : json) (k : string) : option json :=
  match v with
  | JObj members => get members k
  | _ => None
  end.

(** [v[0]]: the first element of a list, the first character of a text;
    [None] stands for [IndexError], [KeyError] and [TypeError]. *)
Definition first (v : json) : option json :=
  match v with
  | JArr (x :: _) => Some x
  | JStr (String c _) => Some (JStr (String c EmptyString))
  | _ => None
  end.

(** What the dialog and the question read of a release:
    [release['artist-credit'][0]['name']] and [release['title']]. *)
Definition headline (release : json) : option (json * json) :=
  match item release "artist-credit" with
  | Some credit =>
      match first credit with
      | Some c0 =>
          match item c0 "name" with
          | Some name =>
              match item release "title" with
              | Some title => Some (name, title)
              | None => None
              end
          | None => None
          end
      | None => None
      end
  | None => None
  end.

Definition readable (release : json) : bool :=
  match headline release with Some _ => true | None => false end.

(** [lookup_finished], up to the choice between the error messages, the
    dialog for several releases and the confirmation of a single one.
    The dialog reads the headline of every release when it is built, the
    question that of the single release: an exception raised there
    leaves the slot before anything is shown. *)
Definition lookup_finished (metadata : dict) : Action :=
  if match metadata with [] => true | _ => false end
     || (releases_missing metadata && negb (has_key metadata "cdstub"))
  then Error NoMetadata
  else
    let releases := match get metadata "releases" with
                    | Some v => v
                    | None => JArr []
                    end in
    if negb (json_truthy releases) then Error StubOnly
    else
      match releases with
      | JArr l =>
          if (1 <? length l)%nat
          then (if forallb readable l then Choose l else Uncaught)
          else match l with
               | release :: _ =>
                   if readable release then Confirm release else Uncaught
               | [] => Uncaught
               end
      | _ => Uncaught   (* len() or the subscripts fail on a non-list *)
      end.

End App.


(** ** The specification's wording of a track line *)

Module Spec.

(** A numeric label ending in the marker: one or more decimal digits
    followed by a final ".". *)
Fixpoint numeric_label_from (seen_digit : bool) (tok : string) : bool :=
  match tok with
  | EmptyString => false
  | String c r =>
      if Py.isdecimal c then numeric_label_from true r
      else seen_digit && Ascii.eqb c "." && Py.is_empty r
  end.

Definition numeric_label (tok : string) : bool :=
  numeric_label_from false tok.

(** "A line whose first whitespace-delimited token is a numeric label
    ending in a fixed punctuation marker." *)
Definition is_track_line (l : string) : bool :=
  match Py.split l with
  | tok :: _ => numeric_label tok
  | [] => false
  end.

(** [floor((i/N)*100)] in exact arithmetic. *)
Definition progress (i N : Z) : Z := (100 * i) / N.

(** "<root>/<sanitized artist>/<sanitized album>[/Disc <n> when a disc
    number is present]/<track number zero-padded to 2 digits>.
    <sanitized title>.<format extension in lowercase>", for a track
    number that is not negative. *)
Definition output_file (cfg : RipWorker.Config) (track : RipWorker.Track)
           (n : Z) : string :=
  RipWorker.save_path cfg
  ++ "/" ++ RipWorker.sanitize_filename (RipWorker.artist cfg)
  ++ "/" ++ RipWorker.sanitize_filename (RipWorker.album cfg)
  ++ (if Py.truthy (RipWorker.disc_num cfg)
      then "/Disc " ++ RipWorker.disc_num cfg else EmptyString)
  ++ "/" ++ (if n <? 10 then "0" ++ Py.str n else Py.str n)
  ++ ". " ++ RipWorker.sanitize_filename (RipWorker.title track)
  ++ "." ++ Py.lower (RipWorker.format cfg).

End Spec.

(** ** Vocabulary of the statements: observations on the signals and
       events of a run, and the inputs of the examples *)

Module LookupObs.
Import LookupWorker.

Definition nl : string := String (ascii_of_N 10) EmptyString.

(** What [cdparanoia -Q] prints for a disc of two tracks. *)
Definition sample_scan : string :=
  "cdparanoia III release 10.2 (September 11, 2008)" ++ nl ++ nl ++
  "Table of contents (audio tracks only):" ++ nl ++
  "track        length               begin        copy pre ch" ++ nl ++
  "===========================================================" ++ nl ++
  "  1.    21000 [04:40.00]        0 [00:00.00]    no   no  2" ++ nl ++
  "  2.    21000 [04:40.00]    21000 [04:40.00]    no   no  2" ++ nl ++
  "TOTAL   42000 [09:20.00]    (audio only)" ++ nl.

(** The same scan without its TOTAL line. *)
Definition scan_without_total : string :=
  "Table of contents (audio tracks only):" ++ nl ++
  "  1.    21000 [04:40.00]        0 [00:00.00]    no   no  2" ++ nl ++
  "  2.    21000 [04:40.00]    21000 [04:40.00]    no   no  2" ++ nl.

Definition no_tracks_signals (device : string) : list Signal :=
  [log_message ("Getting Table of Contents from " ++ device ++ "...");
   error "No audio tracks found."].

Definition relevant (l : string) : bool :=
  is_track_line l || is_total_line l.

Definition NoMatch : string := "No releases found for this disc.".

End LookupObs.

Module RipObs.
Import RipWorker.

Definition opt {A} (present : bool) (args : list A) : list A :=
  if present then args else [].


Fixpoint progress_values (evs : list Event) : list Z :=
  match evs with
  | [] => []
  | Emit (album_progress p) :: r => p :: progress_values r
  | _ :: r => progress_values r
  end.

Fixpoint error_messages (evs : list Event) : list string :=
  match evs with
  | [] => []
  | Emit (error m) :: r => m :: error_messages r
  | _ :: r => error_messages r
  end.

Fixpoint launches (evs : list Event) : list (list string) :=
  match evs with
  | [] => []
  | SubprocessRun cmd :: r => cmd :: launches r
  | Popen cmd :: r => cmd :: launches r
  | _ :: r => launches r
  end.

(** A job of two tracks encoded to MP3, and a drive whose extractor
    exits with status 1 for every track while the encoder exits with 0. *)
Definition mp3_job : Config :=
  mkConfig "/dev/sr0" "MP3" "/music" "Artist" "Album" "2001"
           EmptyString EmptyString
           [mkTrack "1" "One"; mkTrack "2" "Two"] None.

Definition wav_job : Config :=
  mkConfig "/dev/sr0" "WAV" "/music" "Artist" "Album" "2001"
           EmptyString EmptyString
           [mkTrack "1" "One"; mkTrack "2" "Two"] None.

(** A job of 50 tracks, numbered from 1, written as WAV. *)
Definition job_of_50 : Config :=
  mkConfig "/dev/sr0" "WAV" "/music" "Artist" "Album" "2001"
           EmptyString EmptyString
           (map (fun i => mkTrack (Py.str (Z.of_nat i)) "Track") (seq 1 50))
           None.

(** Two jobs that pass the check of [start_rip]: one whose artist holds
    no character that [sanitize_filename] keeps, one without a save
    location. *)
Definition job_of_odd_artist : Config :=
  mkConfig "/dev/sr0" "FLAC" "/music" "!!!" "Album" "2001"
           EmptyString EmptyString [mkTrack "1" "One"] None.

Definition job_without_root : Config :=
  mkConfig "/dev/sr0" "FLAC" EmptyString "Artist" "Album" "2001"
           EmptyString EmptyString [mkTrack "1" "One"] None.

Definition extractor_fails (i : nat) : Outcome :=
  mkOutcome 1 "cdparanoia: unable to read audio" 0 EmptyString.

Definition all_succeed (i : nat) : Outcome :=
  mkOutcome 0 EmptyString 0 EmptyString.

Definition empty_world : World := mkWorld (mkFS [] [] willing) [].


(** The progress value the worker reports after track [i] of [N], for
    a disc of at most 99 tracks: the floor of 100 i / N, except for
    track 29 of 50. *)
Definition reported (i N : Z) : Z :=
  if (i =? 29) && (N =? 50) then 57 else Spec.progress i N.

Definition result_is (r : result Z) (z : Z) : bool :=
  match r with
  | Ok a => a =? z
  | Raise _ => false
  end.

(** What is checked of the report after the track at position [i] of
    [N]: its value, that the next one is not smaller, and that it is 100
    exactly for the last track. *)
Definition report_ok (N i : nat) : bool :=
  let n := Z.of_nat N in
  let j := Z.of_nat i + 1 in
  result_is (progress i N) (reported j n)
  && ((j =? n) || (reported j n <=? reported (j + 1) n))
  && Bool.eqb (reported j n =? 100) (j =? n).

Definition progress_table (M : nat) : bool :=
  forallb (fun N => forallb (report_ok N) (seq 0 N)) (seq 1 M).

(** A computation only adds events, all of them satisfying [P]. *)
Definition appends {A} (P : Event -> Prop) (c : M A) : Prop :=
  forall w, exists d,
    events (snd (c w)) = events w +++ d /\ Forall P d.

Definition not_finished (e : Event) : Prop := e <> Emit finished.

Definition cover_events (cfg : Config) : list Event :=
  opt (has_cover cfg)
      [SavePixmap (Py.path_join (output_path cfg) ["cover.jpg"])].

End RipObs.

(** ** The list of drives *)

Module Drives.

(** [populate_drives]: the entries of the listing of /dev whose name
    starts with "sr", as paths under /dev, in the order of the listing. *)
Definition populate_drives (listing : list string) : list string :=
  map (fun d => Py.path_join "/dev" [d])
      (filter (fun d => Py.startswith d "sr") listing).

End Drives.

(** ** Further vocabulary of the statements *)

Module MoreObs.
Import RipWorker.

Definition not_space (c : ascii) : bool := negb (Py.isspace c).

(** A field as [split] yields them: not empty, without whitespace. *)
Definition token (s : string) : bool :=
  negb (Py.is_empty s) && Py.all_chars not_space s.

(** The characters [sanitize_filename] keeps. *)
Definition allowed (c : ascii) : bool :=
  Py.isalnum c || Ascii.eqb c " " || Ascii.eqb c "." || Ascii.eqb c "_".

(** No whitespace at the end. *)
Definition trimmed (s : string) : bool :=
  match Py.last_char s with
  | Some c => negb (Py.isspace c)
  | None => true
  end.

(** The value of a decimal numeral read after the value [acc]. *)
Fixpoint uint_value (d : Decimal.uint) (acc : Z) : Z :=
  match d with
  | Decimal.Nil => acc
  | Decimal.D0 l => uint_value l (10 * acc + 0)
  | Decimal.D1 l => uint_value l (10 * acc + 1)
  | Decimal.D2 l => uint_value l (10 * acc + 2)
  | Decimal.D3 l => uint_value l (10 * acc + 3)
  | Decimal.D4 l => uint_value l (10 * acc + 4)
  | Decimal.D5 l => uint_value l (10 * acc + 5)
  | Decimal.D6 l => uint_value l (10 * acc + 6)
  | Decimal.D7 l => uint_value l (10 * acc + 7)
  | Decimal.D8 l => uint_value l (10 * acc + 8)
  | Decimal.D9 l => uint_value l (10 * acc + 9)
  end.

(** The signals that end a lookup, and the events that end a rip. *)
Definition lookup_terminal (s : LookupWorker.Signal) : bool :=
  match s with
  | LookupWorker.log_message _ => false
  | _ => true
  end.

Definition terminal (e : Event) : bool :=
  match e with
  | Emit finished | Emit (error _) => true
  | _ => false
  end.

(** [cover_art_path] as the run leaves it before the loop. *)
Definition cover_path (cfg : Config) : string :=
  if has_cover cfg then Py.path_join (output_path cfg) ["cover.jpg"]
  else EmptyString.

(** The programs one pass of the loop launches for a track: none when
    its number is no integer, the extractor alone in the direct path (and
    in the piped path when there is no encoder command), the extractor
    and the encoder otherwise. *)
Definition track_launches (cfg : Config) (cap : string) (track : Track)
  : list (list string) :=
  match Py.int (number track) with
  | None => []
  | Some n =>
      let out := output_filename cfg track n in
      if String.eqb (format cfg) "WAV"
      then [["cdparanoia"; "-q"; "-d"; device cfg; Py.str n; out]]
      else
        let rip := ["cdparanoia"; "-q"; "-d"; device cfg; Py.str n; "-"] in
        match get_encoder_cmd cfg track cap out with
        | [] => [rip]
        | enc => [rip; enc]
        end
  end.

(** The file a track is written to, when its number is an integer. *)
Definition track_file (cfg : Config) (track : Track) : option string :=
  option_map (output_filename cfg track) (Py.int (number track)).

Definition known_format (fmt : string) : bool :=
  String.eqb fmt "FLAC" || String.eqb fmt "MP3" || String.eqb fmt "OGG".

End MoreObs.


Module LookupEnds.
Import LookupWorker MoreObs.

(** The signals of a run whose parse raises [e]. *)
Definition read_error (device : string) (e : exn) : list Signal :=
  [log_message ("Getting Table of Contents from " ++ device ++ "...");
   error (exn_str e)].

(** A list of signals that ends with its only terminal signal. *)
Definition one_terminal (l : list Signal) : Prop :=
  exists logs last_signal,
    l = logs +++ [last_signal]
    /\ forallb (fun s => negb (lookup_terminal s)) logs = true
    /\ lookup_terminal last_signal = true.

End LookupEnds.


Module RunObs.
Import RipWorker RipObs MoreObs.

(** The world when the loop starts, after a successful [makedirs] that
    leaves the filesystem [fs1]. *)
Definition prelude_world (cfg : Config) (w : World) (fs1 : FS) : World :=
  mkWorld (if has_cover cfg then snd (save_pixmap (cover_path cfg) fs1)
           else fs1)
          (events w +++ MakeDirs (output_path cfg) :: cover_events cfg).

(** What [run] does with the result of the loop. *)
Definition finish (r : result bool * World) : World :=
  match r with
  | (Ok true, w) => mkWorld (fs w) (events w +++ [Emit finished])
  | (Ok false, w) => w
  | (Raise e, w) => mkWorld (fs w) (events w +++ [Emit (error (exn_str e))])
  end.

(** Events without a terminal one. *)
Definition quiet (d : list Event) : Prop := filter terminal d = [].

(** The events a pass of the loop or the whole loop adds, by result:
    none of them terminal, except a last [error] when the result is
    [false]. *)
Definition ends_as (r : result bool) (d : list Event) : Prop :=
  match r with
  | Ok false => exists d' m, d = d' +++ [Emit (error m)] /\ quiet d'
  | _ => quiet d
  end.

End RunObs.


Module FilesObs.
Import RipWorker RipObs MoreObs.

(** The exit status the loop looks at for the track at position [i]: the
    extractor's in the direct path, the encoder's in the piped path. *)
Definition succeeded (cfg : Config) (env : nat -> Outcome) (i : nat)
  : bool :=
  if String.eqb (format cfg) "WAV" then rip_returncode (env i) =? 0
  else enc_returncode (env i) =? 0.

(** The error text for a failed track of number [n] at position [i]. *)
Definition failure_message (cfg : Config) (env : nat -> Outcome) (i : nat)
           (n : Z) : string :=
  if String.eqb (format cfg) "WAV"
  then "cdparanoia failed for track " ++ Py.str n ++ ": "
       ++ rip_stderr (env i)
  else "Encoder failed for track " ++ Py.str n ++ ": "
       ++ enc_stderr (env i).

(** The formats the form offers. *)
Definition offered_format (fmt : string) : bool :=
  String.eqb fmt "WAV" || known_format fmt.

(** Every track of the list has an integer as its number. *)
Definition numbered (ts : list Track) : bool :=
  forallb (fun t => match Py.int (number t) with
                    | Some _ => true
                    | None => false
                    end) ts.

(** [fs'] holds every file and directory of [fs]. *)
Definition fs_extends (fs fs' : FS) : Prop :=
  (forall p, exists_in p (files fs) = true -> exists_in p (files fs') = true)
  /\ (forall p, exists_in p (dirs fs) = true -> exists_in p (dirs fs') = true).

Definition on_disk (cfg : Config) (fs' : FS) (track : Track) : Prop :=
  exists n,
    Py.int (number track) = Some n
    /\ exists_in (output_filename cfg track n) (files fs') = true.

End FilesObs.


Module StopObs.
Import RipWorker RipObs MoreObs FilesObs.

(** The track at position [i] stops the job: its number is no integer,
    or the process the loop looks at exits with a status other than 0. *)
Definition track_fails (cfg : Config) (env : nat -> Outcome) (i : nat)
           (track : Track) : bool :=
  match Py.int (number track) with
  | None => true
  | Some _ => negb (succeeded cfg env i)
  end.

(** The error text the job ends with when this track stops it. *)
Definition stop_message (cfg : Config) (env : nat -> Outcome) (i : nat)
           (track : Track) : string :=
  match Py.int (number track) with
  | None => exn_str (ValueError (number track))
  | Some n => failure_message cfg env i n
  end.

End StopObs.


(** ** The report of the scanning tool *)

Module Report.

(** The report of [cdparanoia -Q], as the sample in [sample_scan] shows
    it, for a disc given by the length and the first sector of each
    track and by its total length: a heading, one row per track (label
    "i.", length, time, first sector, time, three flags), the TOTAL row.
    The fields of a row are separated by one space here; the times are
    not read by the program and are left at zero. *)
(** The fields of a track row. *)
Definition row_fields (i : nat) (len begin : Z) : list string :=
  [Py.str (Z.of_nat i) ++ "."; Py.str len; "[00:00.00]"; Py.str begin;
   "[00:00.00]"; "no"; "no"; "2"].

Definition track_row (i : nat) (len begin : Z) : string :=
  "  " ++ Py.join " " (row_fields i len begin).

Fixpoint track_rows (i : nat) (tracks : list (Z * Z)) : list string :=
  match tracks with
  | [] => []
  | (len, begin) :: r => track_row i len begin :: track_rows (S i) r
  end.

Definition total_row (total : Z) : string :=
  Py.join " " ["TOTAL"; Py.str total; "[00:00.00]"; "(audio"; "only)"].

Definition heading : list string :=
  ["cdparanoia III release 10.2 (September 11, 2008)";
   EmptyString;
   "Table of contents (audio tracks only):";
   "track        length               begin        copy pre ch";
   "==========================================================="].

Definition report (tracks : list (Z * Z)) (total : Z) : list string :=
  heading +++ track_rows 1 tracks +++ [total_row total; EmptyString].

Definition newline : string := String (ascii_of_N 10) EmptyString.

(** The lines of a text, each followed by a line feed. *)
Fixpoint unlines (lines : list string) : string :=
  match lines with
  | [] => EmptyString
  | l :: r => l ++ newline ++ unlines r
  end.

Definition no_linebreak (c : ascii) : bool := negb (Py.is_linebreak c).

End Report.

(** ** Facts about the built-ins *)

Module PyFacts.
Import Py.

Lemma is_empty_true (s : string) : is_empty s = true <-> s = EmptyString.
Proof. destruct s; simpl; split; congruence. Qed.

Lemma split_from_nonempty (tok s : string) :
  is_empty tok = false -> split_from tok s <> [].
Proof.
  revert tok; induction s as [|c r IH]; intros tok Ht; simpl.
  - rewrite Ht; discriminate.
  - destruct (isspace c).
    + rewrite Ht; discriminate.
    + apply IH. destruct tok; reflexivity.
Qed.

Lemma split_lstrip (s : string) : split (lstrip s) = split s.
Proof.
  unfold split; induction s as [|c r IH]; simpl; [reflexivity|].
  destruct (isspace c) eqn:E; [exact IH|].
  simpl; rewrite E; reflexivity.
Qed.

Lemma split_from_rstrip (s tok : string) :
  split_from tok (rstrip s) = split_from tok s.
Proof.
  revert tok; induction s as [|c r IH]; intros tok; simpl; [reflexivity|].
  destruct (isspace c) eqn:Ec, (is_empty (rstrip r)) eqn:E; simpl;
    rewrite ?Ec.
  - rewrite <- (IH EmptyString).
    apply is_empty_true in E; rewrite E; simpl.
    destruct (is_empty tok); reflexivity.
  - rewrite IH; reflexivity.
  - apply IH.
  - apply IH.
Qed.

(** Stripping a line does not change its fields. *)
Lemma split_strip (s : string) : split (strip s) = split s.
Proof.
  unfold strip, split at 1. rewrite split_from_rstrip.
  apply split_lstrip.
Qed.

Lemma strip_empty_split (s : string) :
  is_empty (strip s) = true -> split s = [].
Proof.
  intros H; apply is_empty_true in H.
  rewrite <- split_strip, H; reflexivity.
Qed.

Lemma split_nonempty_strip (s : string) :
  split s <> [] -> truthy (strip s) = true.
Proof.
  intros H; unfold truthy.
  destruct (is_empty (strip s)) eqn:E; [|reflexivity].
  exfalso; apply H, strip_empty_split, E.
Qed.

(** *** Characters of a string *)

Lemma all_chars_app f (a b : string) :
  all_chars f (a ++ b) = all_chars f a && all_chars f b.
Proof.
  induction a as [|c r IH]; simpl; [reflexivity|].
  rewrite IH, andb_assoc; reflexivity.
Qed.

Lemma all_chars_impl (f g : ascii -> bool) (s : string) :
  (forall c, f c = true -> g c = true) ->
  all_chars f s = true -> all_chars g s = true.
Proof.
  intros Hfg; induction s as [|c r IH]; simpl; [reflexivity|].
  intros H; apply andb_true_iff in H as [H1 H2].
  rewrite (Hfg _ H1), (IH H2); reflexivity.
Qed.

Lemma isdecimal_not_plus (c : ascii) :
  isdecimal c = true -> not_plus c = true.
Proof.
  unfold isdecimal, in_range, not_plus, ord; intros H.
  apply andb_true_iff in H as [H1 H2].
  apply N.leb_le in H1.
  destruct (Ascii.eqb_spec c "+") as [->|]; [|reflexivity].
  simpl in H1; lia.
Qed.

(** Cutting at the first separator: the text before and the text after
    the first "+" are determined by the whole. *)
Lemma cut_at_plus (a b r1 r2 : string) :
  all_chars not_plus a = true -> all_chars not_plus b = true ->
  a ++ "+" ++ r1 = b ++ "+" ++ r2 -> a = b /\ r1 = r2.
Proof.
  revert b; induction a as [|c a IH]; intros [|d b]; simpl; intros Ha Hb E.
  - inversion E; auto.
  - inversion E; subst d.
    apply andb_true_iff in Hb as [Hb _]; discriminate.
  - inversion E; subst c.
    apply andb_true_iff in Ha as [Ha _]; discriminate.
  - inversion E; subst d.
    apply andb_true_iff in Ha as [_ Ha].
    apply andb_true_iff in Hb as [_ Hb].
    destruct (IH b Ha Hb H1) as [-> ->]; auto.
Qed.

Lemma join_cons (sep x y : string) (l : list string) :
  join sep (x :: y :: l) = x ++ sep ++ join sep (y :: l).
Proof. reflexivity. Qed.

Lemma app_empty_r (s : string) : s ++ EmptyString = s.
Proof. induction s; simpl; congruence. Qed.

Lemma no_plus_inside (a b r : string) :
  all_chars not_plus a = true -> a <> b ++ "+" ++ r.
Proof.
  intros Ha E; rewrite E, all_chars_app in Ha.
  apply andb_true_iff in Ha as [_ Ha]; simpl in Ha; discriminate.
Qed.

(** Joining fields with "+" loses nothing when no field is empty or
    contains a "+". *)
Lemma join_plus_inj (l1 l2 : list string) :
  forallb plus_free l1 = true -> forallb plus_free l2 = true ->
  join "+" l1 = join "+" l2 -> l1 = l2.
Proof.
  revert l2; induction l1 as [|x l1 IH]; intros l2 H1 H2 E.
  - destruct l2 as [|y l2]; [reflexivity|exfalso].
    simpl in H2; apply andb_true_iff in H2 as [Hy _].
    apply andb_true_iff in Hy as [Hy _].
    destruct y; [discriminate|].
    destruct l2; simpl in E; discriminate.
  - simpl in H1; apply andb_true_iff in H1 as [Hx H1].
    pose proof Hx as Hx'.
    apply andb_true_iff in Hx' as [Hxe Hxp].
    destruct l2 as [|y l2].
    + exfalso. destruct x; [discriminate|].
      destruct l1; simpl in E; discriminate.
    + simpl in H2; apply andb_true_iff in H2 as [Hy H2].
      pose proof Hy as Hy'.
      apply andb_true_iff in Hy' as [Hye Hyp].
      destruct l1 as [|x' l1], l2 as [|y' l2].
      * simpl in E; congruence.
      * exfalso; rewrite join_cons in E; simpl (join _ [x]) in E.
        exact (no_plus_inside _ _ _ Hxp E).
      * exfalso; rewrite join_cons in E; simpl (join _ [y]) in E.
        symmetry in E; exact (no_plus_inside _ _ _ Hyp E).
      * rewrite !join_cons in E.
        destruct (cut_at_plus _ _ _ _ Hxp Hyp E) as [-> E'].
        f_equal; apply IH; assumption.
Qed.

(** *** Decimal rendering of integers *)

Lemma string_of_uint_digits (d : Decimal.uint) :
  all_chars isdecimal (NilEmpty.string_of_uint d) = true.
Proof. induction d; simpl; auto. Qed.

Lemma str_chars (n : Z) : all_chars sign_or_digit (str n) = true.
Proof.
  assert (Hu : forall d, all_chars sign_or_digit
                           (NilZero.string_of_uint d) = true).
  { intros d.
    apply all_chars_impl with (f := isdecimal).
    - intros c Hc; unfold sign_or_digit; rewrite Hc; reflexivity.
    - destruct d; try reflexivity; apply string_of_uint_digits. }
  unfold str; destruct (Z.to_int n) as [d|d]; simpl; auto.
Qed.

Lemma str_no_plus (n : Z) : all_chars not_plus (str n) = true.
Proof.
  apply all_chars_impl with (f := sign_or_digit); [|apply str_chars].
  intros c H; unfold sign_or_digit in H.
  apply orb_true_iff in H as [H|H].
  - apply isdecimal_not_plus, H.
  - apply Ascii.eqb_eq in H; subst c; reflexivity.
Qed.

Lemma to_int_proper (n : Z) :
  Z.to_int n <> Decimal.Pos Decimal.Nil
  /\ Z.to_int n <> Decimal.Neg Decimal.Nil.
Proof.
  destruct n as [|p|p]; simpl; split; try discriminate;
    intros E; inversion E as [E'];
    exact (DecimalPos.Unsigned.to_uint_nonnil p E').
Qed.

(** [str] is injective: the numeral determines the integer. *)
Lemma str_inj (a b : Z) : str a = str b -> a = b.
Proof.
  unfold str; intros E.
  apply DecimalZ.to_int_inj.
  destruct (to_int_proper a) as [A1 A2], (to_int_proper b) as [B1 B2].
  pose proof (NilZero.isi _ A1 A2) as Ia.
  pose proof (NilZero.isi _ B1 B2) as Ib.
  rewrite E in Ia; congruence.
Qed.

(** *** Paths *)

Lemma app_assoc (a b c : string) : (a ++ b) ++ c = a ++ b ++ c.
Proof. induction a; simpl; congruence. Qed.

Lemma last_char_none (s : string) : last_char s = None -> s = EmptyString.
Proof.
  destruct s as [|c r]; [reflexivity|]; simpl.
  destruct (last_char r); discriminate.
Qed.

Lemma last_char_app (a b : string) :
  b <> EmptyString -> last_char (a ++ b) = last_char b.
Proof.
  intros Hb; induction a as [|c a IH]; simpl; [reflexivity|].
  rewrite IH. destruct (last_char b) eqn:E; [reflexivity|].
  apply last_char_none in E; contradiction.
Qed.

Lemma last_char_all (f : ascii -> bool) (s : string) (d : ascii) :
  all_chars f s = true -> last_char s = Some d -> f d = true.
Proof.
  induction s as [|c r IH]; simpl; [discriminate|].
  intros H; apply andb_true_iff in H as [Hc Hr].
  destruct (last_char r) as [e|].
  - intros [= <-]; apply IH; auto.
  - intros [= <-]; exact Hc.
Qed.

Lemma substring_last (s : string) (c : ascii) :
  substring (String.length s) 1 (String c s)
  = String (match last_char s with Some d => d | None => c end)
           EmptyString.
Proof.
  revert c; induction s as [|a r IH]; intros c; [reflexivity|].
  change (substring (String.length (String a r)) 1 (String c (String a r)))
    with (substring (String.length r) 1 (String a r)).
  rewrite IH; simpl.
  destruct (last_char r); reflexivity.
Qed.

(** [s.endswith(c)] for a single character looks at the last one. *)
Lemma endswith_char (s : string) (c : ascii) :
  endswith s (String c EmptyString)
  = match last_char s with
    | Some d => Ascii.eqb d c
    | None => false
    end.
Proof.
  destruct s as [|a r]; [reflexivity|].
  unfold endswith.
  change (String.length (String c EmptyString)) with 1%nat.
  replace (String.length (String a r) - 1)%nat with (String.length r)
    by (simpl; lia).
  rewrite substring_last; simpl.
  destruct (last_char r) as [d|]; simpl;
    match goal with |- (if ?x then _ else _) = _ => destruct x end;
    reflexivity.
Qed.

Lemma startswith_char (s : string) (c : ascii) :
  startswith s (String c EmptyString)
  = match first_char s with
    | Some d => Ascii.eqb d c
    | None => false
    end.
Proof.
  destruct s as [|a r]; [reflexivity|]; unfold startswith; simpl.
  destruct (ascii_dec c a) as [->|N].
  - rewrite Ascii.eqb_refl; destruct r; reflexivity.
  - symmetry; apply Ascii.eqb_neq; congruence.
Qed.

(** Joining a component that is not absolute to a path that is not
    empty and does not end in "/" puts one "/" between them. *)
Lemma path_join2_plain (path b : string) :
  path <> EmptyString ->
  endswith path "/" = false -> startswith b "/" = false ->
  path_join2 path b = path ++ "/" ++ b.
Proof.
  intros Hp He Hs; unfold path_join2; rewrite Hs, He.
  destruct path; [congruence|reflexivity].
Qed.

Lemma all_chars_filter (f g : ascii -> bool) (s : string) :
  (forall c, f c = true -> g c = true) ->
  all_chars g (filter_chars f s) = true.
Proof.
  intros Hfg; induction s as [|c r IH]; simpl; [reflexivity|].
  destruct (f c) eqn:E; [simpl; rewrite (Hfg _ E), IH|]; auto.
Qed.

Lemma all_chars_rstrip (g : ascii -> bool) (s : string) :
  all_chars g s = true -> all_chars g (rstrip s) = true.
Proof.
  induction s as [|c r IH]; simpl; [reflexivity|].
  intros H; apply andb_true_iff in H as [Hc Hr].
  destruct (is_empty (rstrip r) && isspace c); [reflexivity|].
  simpl; rewrite Hc, (IH Hr); reflexivity.
Qed.

Lemma free_of_slash (s : string) :
  all_chars not_slash s = true ->
  startswith s "/" = false /\ endswith s "/" = false.
Proof.
  intros H; rewrite startswith_char, endswith_char; split.
  - destruct s as [|c r]; [reflexivity|]; simpl in *.
    apply andb_true_iff in H as [H _].
    apply negb_true_iff in H; exact H.
  - destruct (last_char s) as [d|] eqn:E; [|reflexivity].
    apply (last_char_all _ _ _ H) in E.
    apply negb_true_iff in E; exact E.
Qed.

Lemma endswith_app (a b : string) (c : ascii) :
  b <> EmptyString ->
  endswith (a ++ b) (String c EmptyString)
  = endswith b (String c EmptyString).
Proof.
  intros Hb; rewrite !endswith_char, last_char_app by exact Hb.
  reflexivity.
Qed.

Lemma str_nonempty (n : Z) : str n <> EmptyString.
Proof.
  unfold str; destruct n as [|p|p]; simpl; try discriminate.
  pose proof (DecimalPos.Unsigned.to_uint_nonnil p) as H.
  destruct (Pos.to_uint p); try discriminate; congruence.
Qed.

Lemma format_02d_first (n : Z) (r : string) :
  startswith (format_02d n ++ r) "/" = false.
Proof.
  rewrite startswith_char; unfold format_02d.
  destruct ((0 <=? n) && (n <? 10)); [reflexivity|].
  pose proof (str_chars n) as H; pose proof (str_nonempty n) as Hn.
  destruct (str n) as [|c s]; [congruence|]; simpl in *.
  apply andb_true_iff in H as [H _].
  destruct (Ascii.eqb_spec c "/") as [->|]; [discriminate|reflexivity].
Qed.

(** The fields of a valid TOC can be told apart: decimal numerals, and in
    particular the renderings of integers, are not empty and hold no "+". *)
Lemma numeral_plus_free (s : string) :
  numeral s = true -> plus_free s = true.
Proof.
  unfold numeral, plus_free; intros H.
  apply andb_true_iff in H as [H1 H2]; rewrite H1; simpl.
  apply all_chars_impl with (f := isdecimal); [|exact H2].
  exact isdecimal_not_plus.
Qed.

Lemma str_plus_free (n : Z) : plus_free (str n) = true.
Proof.
  unfold plus_free; rewrite str_no_plus, andb_true_r.
  pose proof (str_nonempty n) as H.
  destruct (str n); [congruence|reflexivity].
Qed.

Lemma map_str_plus_free (l : list Z) :
  forallb plus_free (map str l) = true.
Proof.
  induction l as [|n l IH]; [reflexivity|].
  simpl; rewrite str_plus_free, IH; reflexivity.
Qed.

End PyFacts.

(** ** The TOC parser, the fingerprint and the lookup *)

Module LookupProps.
Import LookupWorker LookupObs.
Local Open Scope result_scope.

Lemma offsets_of_fields (tl offs : list string) :
  map (fun l => nth_error (Py.split l) 3) tl = map Some offs ->
  offsets_of tl = Ok offs.
Proof.
  revert offs; induction tl as [|l tl IH]; intros [|f offs] H;
    try discriminate; [reflexivity|].
  cbn [map] in H; injection H as H1 H2.
  change (nth_error (Py.split l) 3 = Some f) in H1.
  change (map (fun l => nth_error (Py.split l) 3) tl = map Some offs) in H2.
  cbn [offsets_of]; unfold field, index; rewrite H1; cbn [rbind].
  rewrite (IH _ H2); reflexivity.
Qed.

Lemma total_sectors_found (lines : list string) (tline : string) :
  find is_total_line lines = Some tline ->
  total_sectors lines = (f <- field tline 1 ;; int_of f).
Proof.
  induction lines as [|l lines IH]; simpl; [discriminate|].
  destruct (is_total_line l); [intros [= ->]; reflexivity|exact IH].
Qed.

Lemma total_sectors_absent (lines : list string) :
  find is_total_line lines = None -> total_sectors lines = Ok 0.
Proof.
  induction lines as [|l lines IH]; simpl; [reflexivity|].
  destruct (is_total_line l); [discriminate|exact IH].
Qed.

Lemma int_of_some (s : string) (n : Z) : Py.int s = Some n -> int_of s = Ok n.
Proof. unfold int_of; intros ->; reflexivity. Qed.

(** The parse of a text whose track lines have a fourth field, the first
    of them a number, given what the search for the TOTAL line yields. *)
Lemma read_toc_parsed (lines offs : list string) (f0 : string)
      (s0 total : Z) :
  track_lines lines <> [] ->
  map (fun l => nth_error (Py.split l) 3) (track_lines lines)
  = map Some offs ->
  hd_error offs = Some f0 -> Py.int f0 = Some s0 ->
  total_sectors lines = Ok total ->
  read_toc lines
  = Ok (Some (mkTOC (length (track_lines lines)) (s0 + total) offs)).
Proof.
  intros Hne Hmap Hhd Hint Htot. unfold read_toc.
  destruct (track_lines lines) as [|l0 tl] eqn:Etl; [congruence|].
  cbn [length Nat.eqb].
  rewrite (offsets_of_fields _ _ Hmap); cbn [rbind].
  destruct offs as [|f offs]; [discriminate|].
  cbn [hd_error] in Hhd; injection Hhd as ->.
  cbn [map] in Hmap; injection Hmap as H1 H2.
  change (nth_error (Py.split l0) 3 = Some f0) in H1.
  unfold index; cbn [nth_error rbind]. unfold field, index; rewrite H1.
  cbn [rbind]. rewrite (int_of_some _ _ Hint); cbn [rbind].
  rewrite Htot; reflexivity.
Qed.

Lemma run_parsed (device stderr : string) (t : TOC)
      (http_get : string -> HttpResult) :
  read_toc (Py.splitlines stderr) = Ok (Some t) ->
  run device (Exited 0 stderr) http_get
  = log_message ("Getting Table of Contents from " ++ device ++ "...")
    :: query t http_get.
Proof. intros H; unfold run; rewrite H; reflexivity. Qed.



(** *** The fingerprint *)

Lemma toc_str_fields (t : TOC) :
  offsets t <> [] ->
  toc_str t
  = Py.join "+" ("1" :: Py.str (Z.of_nat (track_count t))
                     :: Py.str (leadout t) :: offsets t).
Proof.
  intros H; unfold toc_str.
  destruct (offsets t) as [|o r]; [congruence|reflexivity].
Qed.

Lemma toc_str_inj (t1 t2 : TOC) :
  forallb Py.plus_free (offsets t1) = true ->
  forallb Py.plus_free (offsets t2) = true ->
  toc_str t1 = toc_str t2 -> t1 = t2.
Proof.
  destruct t1 as [n1 l1 o1], t2 as [n2 l2 o2]; unfold toc_str; simpl.
  intros H1 H2 E. injection E as E.
  apply PyFacts.cut_at_plus in E as [En E];
    try apply PyFacts.str_no_plus.
  apply PyFacts.cut_at_plus in E as [El E];
    try apply PyFacts.str_no_plus.
  apply PyFacts.str_inj in En, El.
  apply Nat2Z.inj in En.
  apply PyFacts.join_plus_inj in E; try assumption.
  subst; reflexivity.
Qed.

(** C2. The fingerprint is the version 1, the track count, the leadout
    and the offsets, in this order, joined by "+" (for offsets that are
    the decimal renderings of integer sectors: the renderings of the
    integers 1, N, leadout, start_1 .. start_N joined by "+"); and when
    the offsets are fields that are not empty and hold no "+" (as every
    decimal numeral is), two TOCs with the same fingerprint are the same
    TOC: a difference in an offset, in the leadout or in the track count
    shows in the fingerprint. *)
Theorem fingerprint_format_injective (t1 t2 : TOC) :
  offsets t1 <> [] ->
  forallb Py.plus_free (offsets t1) = true ->
  forallb Py.plus_free (offsets t2) = true ->
  toc_str t1
  = Py.join "+" ("1" :: Py.str (Z.of_nat (track_count t1))
                     :: Py.str (leadout t1) :: offsets t1)
  /\ (forall sectors,
         offsets t1 = map Py.str sectors ->
         toc_str t1
         = Py.join "+" (map Py.str (1 :: Z.of_nat (track_count t1)
                                      :: leadout t1 :: sectors)))
  /\ (t1 <> t2 -> toc_str t1 <> toc_str t2).
Proof.
  intros Hne H1 H2; split; [apply toc_str_fields, Hne|split].
  - intros sectors E; rewrite (toc_str_fields _ Hne), E; reflexivity.
  - intros Hd E; apply Hd, toc_str_inj; assumption.
Qed.

Lemma fingerprint_format_injective_witness :
  toc_str (mkTOC 2 42000 ["0"; "21000"]) = "1+2+42000+0+21000"
  /\ toc_str (mkTOC 2 42000 ["0"; "21000"])
     <> toc_str (mkTOC 2 42000 ["0"; "21001"]).
Proof.
  destruct (fingerprint_format_injective
              (mkTOC 2 42000 ["0"; "21000"]) (mkTOC 2 42000 ["0"; "21001"])
              ltac:(discriminate) eq_refl eq_refl) as (F & _ & I).
  split; [exact F|apply I; discriminate].
Defined.

(** *** Failures of the parse *)

(** C3, as the specification states it, fails: a text with track lines
    and no TOTAL line is parsed, with a total of 0 sectors, and its
    fingerprint is built and sent. *)
Lemma missing_total_is_not_an_error :
  let lines := Py.splitlines scan_without_total in
  track_lines lines <> []
  /\ find is_total_line lines = None
  /\ read_toc lines = Ok (Some (mkTOC 2 0 ["0"; "21000"]))
  /\ run "/dev/sr0" (Exited 0 scan_without_total)
         (fun _ => RequestFailed "unreachable")
     = [log_message "Getting Table of Contents from /dev/sr0...";
        log_message "DEBUG: Final TOC String: 1+2+0+0+21000";
        log_message ("DEBUG: Querying URL: " ++ url "1+2+0+0+21000");
        error "Network error: unreachable"].
Proof.
  cbv zeta; repeat split; try (vm_compute; reflexivity).
  vm_compute; discriminate.
Qed.

(** C3, amended. A text without track lines is rejected with "No audio
    tracks found." and nothing is queried.  A text with track lines (each
    with a fourth field, the first of them a number) and no TOTAL line is
    not rejected: the total defaults to 0, so the leadout is the first
    track's start sector, and the fingerprint is built from this TOC. *)
Theorem read_toc_failures (lines : list string) :
  (track_lines lines = [] ->
   read_toc lines = Ok None
   /\ forall device stderr http_get,
       Py.splitlines stderr = lines ->
       run device (Exited 0 stderr) http_get = no_tracks_signals device)
  /\ (forall offs f0 s0,
       track_lines lines <> [] ->
       map (fun l => nth_error (Py.split l) 3) (track_lines lines)
       = map Some offs ->
       hd_error offs = Some f0 -> Py.int f0 = Some s0 ->
       find is_total_line lines = None ->
       let t := mkTOC (length (track_lines lines)) s0 offs in
       read_toc lines = Ok (Some t)
       /\ forall device stderr http_get,
           Py.splitlines stderr = lines ->
           run device (Exited 0 stderr) http_get
           = log_message
               ("Getting Table of Contents from " ++ device ++ "...")
             :: query t http_get).
Proof.
  split.
  - intros H.
    assert (R : read_toc lines = Ok None)
      by (unfold read_toc; rewrite H; reflexivity).
    split; [exact R|].
    intros device stderr http_get <-; unfold run; rewrite R; reflexivity.
  - intros offs f0 s0 Hne Hmap Hhd Hint Hfind t.
    assert (R : read_toc lines = Ok (Some t)).
    { unfold t; rewrite <- (Z.add_0_r s0) at 1.
      apply read_toc_parsed with (f0 := f0); try assumption.
      apply total_sectors_absent, Hfind. }
    split; [exact R|].
    intros device stderr http_get <-; apply run_parsed, R.
Qed.

Lemma read_toc_failures_witness :
  read_toc (Py.splitlines "no disc in drive") = Ok None
  /\ read_toc (Py.splitlines scan_without_total)
     = Ok (Some (mkTOC 2 0 ["0"; "21000"])).
Proof.
  split.
  - apply (proj1 (read_toc_failures (Py.splitlines "no disc in drive"))).
    vm_compute; reflexivity.
  - apply (proj2 (read_toc_failures (Py.splitlines scan_without_total))
             ["0"; "21000"] "0" 0).
    + vm_compute; discriminate.
    + vm_compute; reflexivity.
    + reflexivity.
    + vm_compute; reflexivity.
    + vm_compute; reflexivity.
Defined.

(** *** Which lines count *)

Lemma is_track_line_first_token (l : string) :
  is_track_line l = true
  <-> exists tok rest,
      Py.split l = tok :: rest /\ Py.endswith tok "." = true.
Proof.
  unfold is_track_line; rewrite PyFacts.split_strip; split.
  - intros H; apply andb_true_iff in H as [_ H].
    destruct (Py.split l) as [|tok rest]; [discriminate|].
    exists tok, rest; auto.
  - intros (tok & rest & E & H).
    rewrite PyFacts.split_nonempty_strip by (rewrite E; discriminate).
    rewrite E; exact H.
Qed.

Lemma track_lines_relevant (lines : list string) :
  track_lines (filter relevant lines) = track_lines lines.
Proof.
  unfold track_lines, relevant.
  induction lines as [|l lines IH]; simpl; [reflexivity|].
  destruct (is_track_line l) eqn:E; simpl; rewrite ?E.
  - f_equal; exact IH.
  - destruct (is_total_line l); simpl; rewrite ?E; exact IH.
Qed.

Lemma total_sectors_relevant (lines : list string) :
  total_sectors (filter relevant lines) = total_sectors lines.
Proof.
  unfold relevant.
  induction lines as [|l lines IH]; simpl; [reflexivity|].
  destruct (is_total_line l) eqn:E.
  - rewrite orb_true_r; simpl; rewrite E; reflexivity.
  - rewrite orb_false_r.
    destruct (is_track_line l); simpl; rewrite ?E; exact IH.
Qed.

Lemma read_toc_relevant (lines : list string) :
  read_toc (filter relevant lines) = read_toc lines.
Proof.
  unfold read_toc.
  rewrite track_lines_relevant, total_sectors_relevant; reflexivity.
Qed.

(** C6, as the specification states it, fails: a line whose first token
    ends in "." is taken as a track line although the label is not
    numeric, and its fourth field becomes an offset. *)
Lemma label_need_not_be_numeric :
  let l := "Done. 2 tracks 150" in
  Spec.is_track_line l = false
  /\ is_track_line l = true
  /\ read_toc [l] = Ok (Some (mkTOC 1 150 ["150"])).
Proof. cbv zeta; repeat split; vm_compute; reflexivity. Qed.

Lemma offsets_of_inv (tl offs : list string) :
  offsets_of tl = Ok offs ->
  map (fun l => nth_error (Py.split l) 3) tl = map Some offs.
Proof.
  revert offs; induction tl as [|l tl IH]; intros offs; cbn [offsets_of].
  - intros [= <-]; reflexivity.
  - unfold field, index.
    destruct (nth_error (Py.split l) 3) as [f|] eqn:E; [|discriminate].
    cbn [rbind]. destruct (offsets_of tl) as [rest|e]; [|discriminate].
    cbn [rbind]; intros [= <-]. cbn [map]; rewrite E, (IH rest eq_refl).
    reflexivity.
Qed.

Lemma read_toc_offsets (lines : list string) (t : TOC) :
  read_toc lines = Ok (Some t) ->
  track_count t = length (track_lines lines)
  /\ map (fun l => nth_error (Py.split l) 3) (track_lines lines)
     = map Some (offsets t).
Proof.
  unfold read_toc.
  destruct (length (track_lines lines) =? 0)%nat; [discriminate|].
  destruct (offsets_of (track_lines lines)) as [offs|e] eqn:E;
    [|discriminate]; cbn [rbind].
  destruct (index (track_lines lines) 0) as [l0|e]; [|discriminate].
  cbn [rbind]. destruct (field l0 3) as [f0|e]; [|discriminate].
  cbn [rbind]. destruct (int_of f0) as [s0|e]; [|discriminate].
  cbn [rbind]. destruct (total_sectors lines) as [total|e]; [|discriminate].
  cbn [rbind]; intros [= <-]; cbn [track_count offsets].
  split; [reflexivity|apply offsets_of_inv, E].
Qed.

(** C6, amended. A line is a track line if and only if its first
    whitespace-delimited token ends in "." (the label before it need not
    be numeric); in every TOC that is parsed the offsets are the fourth
    fields of the track lines, in order; the lines that are neither track
    lines nor start with TOTAL are ignored, wherever they stand: dropping
    them all, or adding one anywhere, leaves the result of the parse
    unchanged. *)
Theorem track_line_rule :
  (forall l,
      is_track_line l = true
      <-> exists tok rest,
          Py.split l = tok :: rest /\ Py.endswith tok "." = true)
  /\ (forall lines t,
         read_toc lines = Ok (Some t) ->
         track_count t = length (track_lines lines)
         /\ map (fun l => nth_error (Py.split l) 3) (track_lines lines)
            = map Some (offsets t))
  /\ (forall lines, read_toc (filter relevant lines) = read_toc lines)
  /\ (forall pre post x,
         relevant x = false ->
         read_toc (pre +++ x :: post) = read_toc (pre +++ post)).
Proof.
  split; [exact is_track_line_first_token|].
  split; [exact read_toc_offsets|].
  split; [exact read_toc_relevant|].
  intros pre post x Hx.
  rewrite <- read_toc_relevant, <- (read_toc_relevant (pre +++ post)).
  rewrite !filter_app; simpl; rewrite Hx; reflexivity.
Qed.

Lemma track_line_rule_witness :
  read_toc ["  1. 21000 [04:40.00] 0 [00:00.00]";
            "(some text of the drive)";
            "TOTAL 21000 [04:40.00]"]
  = read_toc ["  1. 21000 [04:40.00] 0 [00:00.00]";
              "TOTAL 21000 [04:40.00]"].
Proof.
  apply (proj2 (proj2 (proj2 track_line_rule))
           ["  1. 21000 [04:40.00] 0 [00:00.00]"]
           ["TOTAL 21000 [04:40.00]"] "(some text of the drive)").
  vm_compute; reflexivity.
Defined.

(** *** The answer of the metadata service *)

Lemma query_response (t : TOC) (http_get : string -> HttpResult)
      (status : Z) (reason text : string) (data : dict) :
  http_get (url (toc_str t)) = Response status reason text (inr data) ->
  raise_for_status status reason (url (toc_str t)) = None ->
  query t http_get
  = [log_message ("DEBUG: Final TOC String: " ++ toc_str t);
     log_message ("DEBUG: Querying URL: " ++ url (toc_str t));
     log_message ("DEBUG: Received HTTP Status: " ++ Py.str status);
     dispatch data].
Proof. intros H R; unfold query; rewrite H, R; reflexivity. Qed.

Lemma dispatch_no_releases (data : dict) :
  get data "releases" = Some (JArr []) ->
  has_key data "cdstub" = false ->
  dispatch data = error NoMatch.
Proof.
  intros Hr Hc; unfold dispatch, has_key in *; rewrite Hr.
  destruct (get data "cdstub"); [discriminate|reflexivity].
Qed.

Lemma dispatch_stub (data : dict) :
  has_key data "cdstub" = true -> dispatch data = finished data.
Proof.
  intros Hc; unfold dispatch; rewrite Hc, orb_true_r; reflexivity.
Qed.

Lemma lookup_finished_stub (data : dict) :
  has_key data "cdstub" = true ->
  App.releases_missing data = true ->
  App.lookup_finished data = App.Error App.StubOnly.
Proof.
  intros Hc Hm; unfold App.lookup_finished.
  rewrite Hc, Hm; simpl.
  destruct data as [|kv data]; [discriminate|]; cbn [orb].
  unfold App.releases_missing in Hm.
  destruct (get (kv :: data) "releases") as [v|].
  - apply negb_true_iff in Hm; rewrite Hm; reflexivity.
  - reflexivity.
Qed.

(** C7. For a response that is decoded and whose status is no error:
    with an empty list of releases and no "cdstub" key the worker emits
    the error "No releases found for this disc." and no result; with a
    "cdstub" key and no releases (the key absent, or its value empty) the
    worker hands the data on and [lookup_finished] reports an error of
    its own text, different from the other two, asking for manual entry:
    no release is offered for choice or confirmation. *)
Theorem no_match_responses (t : TOC) (http_get : string -> HttpResult)
        (status : Z) (reason text : string) (data : dict) :
  http_get (url (toc_str t)) = Response status reason text (inr data) ->
  raise_for_status status reason (url (toc_str t)) = None ->
  (get data "releases" = Some (JArr []) ->
   has_key data "cdstub" = false ->
   last (query t http_get) (error EmptyString) = error NoMatch
   /\ ~ In (finished data) (query t http_get))
  /\ (has_key data "cdstub" = true ->
      App.releases_missing data = true ->
      last (query t http_get) (error EmptyString) = finished data
      /\ App.lookup_finished data = App.Error App.StubOnly
      /\ App.StubOnly <> NoMatch /\ App.StubOnly <> App.NoMetadata).
Proof.
  intros H R; rewrite (query_response _ _ _ _ _ _ H R); split.
  - intros Hr Hc; rewrite (dispatch_no_releases _ Hr Hc).
    split; [reflexivity|].
    intros [E|[E|[E|[E|[]]]]]; discriminate.
  - intros Hc Hm; rewrite (dispatch_stub _ Hc).
    split; [reflexivity|].
    split; [apply lookup_finished_stub; assumption|].
    split; discriminate.
Qed.

Lemma no_match_responses_witness :
  let t := mkTOC 2 42000 ["0"; "21000"] in
  last (query t (fun _ => Response 200 "OK" "{}"
                            (inr [("releases", JArr [])])))
       (error EmptyString) = error NoMatch
  /\ App.lookup_finished [("cdstub", JObj [("title", JStr "Untitled")])]
     = App.Error App.StubOnly.
Proof.
  cbv zeta; split.
  - apply (proj1 (no_match_responses (mkTOC 2 42000 ["0"; "21000"])
                    (fun _ => Response 200 "OK" "{}"
                                (inr [("releases", JArr [])]))
                    200 "OK" "{}" [("releases", JArr [])]
                    eq_refl eq_refl)); reflexivity.
  - apply (proj2 (no_match_responses (mkTOC 2 42000 ["0"; "21000"])
                    (fun _ => Response 200 "OK" "{}"
                                (inr [("cdstub",
                                       JObj [("title", JStr "Untitled")])]))
                    200 "OK" "{}"
                    [("cdstub", JObj [("title", JStr "Untitled")])]
                    eq_refl eq_refl)); reflexivity.
Defined.

End LookupProps.

(** ** The rip job *)

Module RipProps.
Import RipWorker RipObs.
Local Open Scope rip_scope.

(** *** The encoder's arguments *)

(** C10. For FLAC the disc number, the number of discs and the cover art
    each enter the argument list as one element ("-T DISCNUMBER=n",
    "-T TOTALDISCS=n", "--picture=path"), inserted at position 3, so that
    they stand after "--best", the last inserted first; for MP3 and OGG
    the values are appended as a flag followed by its value, two
    elements, before the arguments that name the input and the output. *)
Theorem get_encoder_cmd_optional_tags
        (dev save art alb yr dn dt : string) (ts : list Track)
        (cover : option QPixmap) (track : Track) (cap out : string) :
  let cfg fmt := mkConfig dev fmt save art alb yr dn dt ts cover in
  get_encoder_cmd (cfg "FLAC") track cap out
  = ["flac"; "-s"; "--best"]
      +++ opt (Py.truthy cap) ["--picture=" ++ cap]
      +++ opt (Py.truthy dt) ["-T TOTALDISCS=" ++ dt]
      +++ opt (Py.truthy dn) ["-T DISCNUMBER=" ++ dn]
      +++ ["--verify"; "-T"; "ARTIST=" ++ art; "-T"; "ALBUM=" ++ alb;
           "-T"; "TITLE=" ++ title track;
           "-T"; "TRACKNUMBER=" ++ number track;
           "-T"; "DATE=" ++ yr; "-"; "-o"; out]
  /\ (Py.truthy dn = true -> Py.truthy dt = false -> Py.truthy cap = false ->
      nth_error (get_encoder_cmd (cfg "FLAC") track cap out) 3
      = Some ("-T DISCNUMBER=" ++ dn))
  /\ (Py.truthy dt = true -> Py.truthy cap = false ->
      nth_error (get_encoder_cmd (cfg "FLAC") track cap out) 3
      = Some ("-T TOTALDISCS=" ++ dt))
  /\ (Py.truthy cap = true ->
      nth_error (get_encoder_cmd (cfg "FLAC") track cap out) 3
      = Some ("--picture=" ++ cap))
  /\ get_encoder_cmd (cfg "MP3") track cap out
     = ["lame"; "-S"; "-b"; "320"; "--add-id3v2";
        "--tt"; title track; "--ta"; art; "--tl"; alb;
        "--ty"; yr; "--tn"; number track]
         +++ opt (Py.truthy dn && Py.truthy dt)
                 ["--tv"; "TPOS=" ++ dn ++ "/" ++ dt]
         +++ ["-"; out]
  /\ get_encoder_cmd (cfg "OGG") track cap out
     = ["oggenc"; "-Q"; "-q"; "10";
        "-a"; art; "-l"; alb; "-t"; title track;
        "-N"; number track; "-d"; yr]
         +++ opt (Py.truthy dn) ["-c"; "DISCNUMBER=" ++ dn]
         +++ opt (Py.truthy dt) ["-c"; "TOTALDISCS=" ++ dt]
         +++ ["-o"; out; "-"].
Proof.
  cbv zeta; unfold get_encoder_cmd, opt, Py.insert; cbn -[Py.truthy append].
  repeat split.
  - destruct (Py.truthy dn), (Py.truthy dt), (Py.truthy cap); reflexivity.
  - intros -> -> ->; reflexivity.
  - intros -> ->; destruct (Py.truthy dn); reflexivity.
  - intros ->; destruct (Py.truthy dn), (Py.truthy dt); reflexivity.
  - destruct (Py.truthy dn), (Py.truthy dt); reflexivity.
  - destruct (Py.truthy dn), (Py.truthy dt); reflexivity.
Qed.

Lemma get_encoder_cmd_optional_tags_witness :
  nth_error
    (get_encoder_cmd
       (mkConfig "/dev/sr0" "FLAC" "/music" "A" "B" "1999" "1" "" [] None)
       (mkTrack "1" "T") "" "/music/A/B/Disc 1/01. T.flac") 3
  = Some "-T DISCNUMBER=1".
Proof.
  apply (proj1 (proj2 (get_encoder_cmd_optional_tags
                         "/dev/sr0" "/music" "A" "B" "1999" "1" "" [] None
                         (mkTrack "1" "T") ""
                         "/music/A/B/Disc 1/01. T.flac")));
    reflexivity.
Defined.

(** *** Where a track is written *)

Lemma sanitize_no_slash (name : string) :
  Py.all_chars Py.not_slash (sanitize_filename name) = true.
Proof.
  unfold sanitize_filename.
  apply PyFacts.all_chars_rstrip, PyFacts.all_chars_filter.
  intros c H; unfold Py.not_slash.
  destruct (Ascii.eqb_spec c "/") as [->|]; [discriminate|reflexivity].
Qed.

Lemma base_path_plain (cfg : Config) :
  save_path cfg <> EmptyString ->
  Py.endswith (save_path cfg) "/" = false ->
  sanitize_filename (artist cfg) <> EmptyString ->
  sanitize_filename (album cfg) <> EmptyString ->
  base_path cfg
  = save_path cfg ++ "/" ++ sanitize_filename (artist cfg)
    ++ "/" ++ sanitize_filename (album cfg)
  /\ Py.endswith (base_path cfg) "/" = false
  /\ base_path cfg <> EmptyString.
Proof.
  intros Hr Hre Ha Hb.
  destruct (PyFacts.free_of_slash _ (sanitize_no_slash (artist cfg)))
    as [As Ae].
  destruct (PyFacts.free_of_slash _ (sanitize_no_slash (album cfg)))
    as [Bs Be].
  assert (E : base_path cfg
              = save_path cfg ++ "/" ++ sanitize_filename (artist cfg)
                ++ "/" ++ sanitize_filename (album cfg)).
  { unfold base_path, Py.path_join; cbn [fold_left].
    rewrite (PyFacts.path_join2_plain (save_path cfg)) by assumption.
    rewrite PyFacts.path_join2_plain.
    - rewrite !PyFacts.app_assoc; reflexivity.
    - destruct (save_path cfg); [congruence|discriminate].
    - rewrite <- PyFacts.app_assoc, PyFacts.endswith_app; assumption.
    - exact Bs. }
  split; [exact E|]; rewrite E; split.
  - rewrite <- !PyFacts.app_assoc, PyFacts.endswith_app; assumption.
  - destruct (save_path cfg); [congruence|discriminate].
Qed.

Lemma output_path_plain (cfg : Config) :
  save_path cfg <> EmptyString ->
  Py.endswith (save_path cfg) "/" = false ->
  sanitize_filename (artist cfg) <> EmptyString ->
  sanitize_filename (album cfg) <> EmptyString ->
  Py.endswith (disc_num cfg) "/" = false ->
  output_path cfg
  = base_path cfg
    ++ (if Py.truthy (disc_num cfg) then "/Disc " ++ disc_num cfg
        else EmptyString)
  /\ Py.endswith (output_path cfg) "/" = false
  /\ output_path cfg <> EmptyString.
Proof.
  intros Hr Hre Ha Hb Hd.
  destruct (base_path_plain cfg Hr Hre Ha Hb) as (E & Ee & En).
  unfold output_path.
  destruct (Py.truthy (disc_num cfg)) eqn:T.
  - unfold Py.path_join; cbn [fold_left].
    rewrite PyFacts.path_join2_plain by (assumption || reflexivity).
    split; [reflexivity|split].
    + change ("/" ++ "Disc " ++ disc_num cfg)
        with ("/Disc " ++ disc_num cfg).
      destruct (disc_num cfg) as [|c r] eqn:D; [discriminate|].
      change ("/Disc " ++ String c r) with ("/Disc " ++ String c r).
      replace (base_path cfg ++ "/Disc " ++ String c r)
        with ((base_path cfg ++ "/Disc ") ++ String c r)
        by apply PyFacts.app_assoc.
      rewrite PyFacts.endswith_app; [exact Hd|discriminate].
    + destruct (base_path cfg); [congruence|discriminate].
  - rewrite PyFacts.app_empty_r; auto.
Qed.

(** C9, as the specification states it for every job, fails.  A job
    whose artist is "!!!" passes the check of [start_rip]; the artist
    sanitizes to nothing and [os.path.join] adds no level for it, so the
    track goes to /music/Album/01. One.flac and not to
    /music//Album/01. One.flac.  A job without a save location passes as
    well, and its track goes to the relative path
    Artist/Album/01. One.flac, not to /Artist/Album/01. One.flac. *)
Theorem layout_needs_its_components :
  let track := mkTrack "1" "One" in
  App.valid job_of_odd_artist = true
  /\ output_filename job_of_odd_artist track 1
     = "/music/Album/01. One.flac"
  /\ Spec.output_file job_of_odd_artist track 1
     = "/music//Album/01. One.flac"
  /\ App.valid job_without_root = true
  /\ output_filename job_without_root track 1
     = "Artist/Album/01. One.flac"
  /\ Spec.output_file job_without_root track 1
     = "/Artist/Album/01. One.flac"
  /\ launches (events (run job_of_odd_artist all_succeed empty_world))
     = [["cdparanoia"; "-q"; "-d"; "/dev/sr0"; "1"; "-"];
        ["flac"; "-s"; "--best"; "--verify"; "-T"; "ARTIST=!!!";
         "-T"; "ALBUM=Album"; "-T"; "TITLE=One"; "-T"; "TRACKNUMBER=1";
         "-T"; "DATE=2001"; "-"; "-o"; "/music/Album/01. One.flac"]].
Proof. cbv zeta; repeat split; vm_compute; reflexivity. Qed.

(** C9, amended.  With a root that is not empty and does not end in
    "/", an artist and an album whose sanitized names are not empty, and
    a disc number that does not end in "/", the file of a track with
    number [n >= 0] is root/artist/album[/Disc d]/NN. title.ext, where
    artist, album and title are sanitized, NN is [n] padded with a zero
    to two digits and ext is the format in lower case; in particular
    artist "Foo/Bar", album "Baz", track 1 "Title: One" and format FLAC
    give root/FooBar/Baz/01. Title One.flac. *)
Theorem output_filename_layout :
  (forall (cfg : Config) (track : Track) (n : Z),
      save_path cfg <> EmptyString ->
      Py.endswith (save_path cfg) "/" = false ->
      sanitize_filename (artist cfg) <> EmptyString ->
      sanitize_filename (album cfg) <> EmptyString ->
      Py.endswith (disc_num cfg) "/" = false ->
      0 <= n ->
      output_filename cfg track n
      = save_path cfg ++ "/" ++ sanitize_filename (artist cfg)
        ++ "/" ++ sanitize_filename (album cfg)
        ++ (if Py.truthy (disc_num cfg) then "/Disc " ++ disc_num cfg
            else EmptyString)
        ++ "/" ++ (if n <? 10 then "0" ++ Py.str n else Py.str n)
        ++ ". " ++ sanitize_filename (title track)
        ++ "." ++ Py.lower (format cfg))
  /\ (forall (root dev yr dt : string) (ts : list Track)
             (cover : option QPixmap),
         root <> EmptyString -> Py.endswith root "/" = false ->
         output_filename
           (mkConfig dev "FLAC" root "Foo/Bar" "Baz" yr EmptyString dt ts
                     cover)
           (mkTrack "1" "Title: One") 1
         = root ++ "/FooBar/Baz/01. Title One.flac").
Proof.
  assert (G : forall (cfg : Config) (track : Track) (n : Z),
             save_path cfg <> EmptyString ->
             Py.endswith (save_path cfg) "/" = false ->
             sanitize_filename (artist cfg) <> EmptyString ->
             sanitize_filename (album cfg) <> EmptyString ->
             Py.endswith (disc_num cfg) "/" = false ->
             output_filename cfg track n
             = save_path cfg ++ "/" ++ sanitize_filename (artist cfg)
               ++ "/" ++ sanitize_filename (album cfg)
               ++ (if Py.truthy (disc_num cfg)
                   then "/Disc " ++ disc_num cfg else EmptyString)
               ++ "/" ++ Py.format_02d n
               ++ ". " ++ sanitize_filename (title track)
               ++ "." ++ Py.lower (format cfg)).
  { intros cfg track n Hr Hre Ha Hb Hd.
    destruct (output_path_plain cfg Hr Hre Ha Hb Hd) as (E & Ee & En).
    destruct (base_path_plain cfg Hr Hre Ha Hb) as (B & _).
    unfold output_filename, Py.path_join; cbn [fold_left].
    rewrite PyFacts.path_join2_plain;
      [|assumption|assumption|apply PyFacts.format_02d_first].
    rewrite E, B, !PyFacts.app_assoc; reflexivity. }
  split.
  - intros cfg track n Hr Hre Ha Hb Hd Hn.
    rewrite G by assumption. unfold Py.format_02d.
    replace (0 <=? n) with true by (symmetry; apply Z.leb_le; exact Hn).
    reflexivity.
  - intros root dev yr dt ts cover Hr Hre.
    rewrite G; try assumption; try discriminate; reflexivity.
Qed.

Lemma output_filename_layout_witness :
  output_filename
    (mkConfig "/dev/sr0" "OGG" "/music" "AC/DC" "Live: 1992" "1992" "2" "2"
              [] None)
    (mkTrack "12" "T.N.T.") 12
  = "/music/ACDC/Live 1992/Disc 2/12. T.N.T..ogg"
  /\ output_filename
       (mkConfig "/dev/sr0" "FLAC" "/music" "Foo/Bar" "Baz" "" "" "" []
                 None)
       (mkTrack "1" "Title: One") 1
     = "/music/FooBar/Baz/01. Title One.flac".
Proof.
  split.
  - apply (proj1 output_filename_layout
             (mkConfig "/dev/sr0" "OGG" "/music" "AC/DC" "Live: 1992"
                       "1992" "2" "2" [] None)
             (mkTrack "12" "T.N.T.") 12);
      solve [discriminate | reflexivity | lia].
  - apply (proj2 output_filename_layout "/music" "/dev/sr0" "" "" [] None);
      solve [discriminate | reflexivity].
Defined.

(** *** Events of a job *)

Section Appends.
Variable P : Event -> Prop.

Lemma appends_ret {A} (a : A) : appends P (ret a).
Proof. intros w; exists []; rewrite app_nil_r; auto. Qed.

Lemma appends_lift {A} (r : result A) : appends P (lift r).
Proof. intros w; exists []; rewrite app_nil_r; auto. Qed.

Lemma appends_update_fs (f : FS -> result FS) : appends P (update_fs f).
Proof.
  intros w; exists []; rewrite app_nil_r; unfold update_fs.
  destruct (f (fs w)); auto.
Qed.

Lemma appends_record (e : Event) : P e -> appends P (record e).
Proof. intros H w; exists [e]; auto. Qed.

Lemma appends_bind {A B} (c : M A) (k : A -> M B) :
  appends P c -> (forall a, appends P (k a)) -> appends P (bind c k).
Proof.
  intros Hc Hk w; unfold bind.
  destruct (Hc w) as (d & E & F).
  destruct (c w) as [[a|e] w']; simpl in E.
  - destruct (Hk a w') as (d' & E' & F').
    exists (d +++ d'); rewrite E', E, app_assoc; split; [reflexivity|].
    apply Forall_app; auto.
  - exists d; auto.
Qed.
End Appends.

Ltac appends_step :=
  first [ apply appends_ret
        | apply appends_lift
        | apply appends_update_fs
        | apply appends_record;
          solve [reflexivity | unfold not_finished; discriminate]
        | apply appends_bind; [|intros ?]
        | match goal with
          | |- appends _ (if ?b then _ else _) => destruct b
          end ].


Lemma rip_track_not_finished cfg env total cap i track :
  appends not_finished (rip_track cfg env total cap i track).
Proof.
  unfold rip_track, emit, process_writes; repeat appends_step.
Qed.


Lemma valid_iff (cfg : Config) :
  App.valid cfg = false
  <-> artist cfg = EmptyString \/ album cfg = EmptyString
      \/ tracks cfg = [].
Proof.
  unfold App.valid, Py.truthy.
  destruct (artist cfg), (album cfg), (tracks cfg); simpl; split;
    intros H; try discriminate; try reflexivity; auto;
    destruct H as [H|[H|H]]; discriminate.
Qed.

(** Equations of the monad, at a world. *)
Lemma bind_ret {A B} (a : A) (k : A -> M B) (w : World) :
  bind (ret a) k w = k a w.
Proof. reflexivity. Qed.

Lemma bind_record {B} (e : Event) (k : unit -> M B) (w : World) :
  bind (record e) k w = k tt (mkWorld (fs w) (events w +++ [e])).
Proof. reflexivity. Qed.

Lemma bind_update_fs {B} (f : FS -> result FS) (k : unit -> M B)
      (w : World) (fs1 : FS) :
  f (fs w) = Ok fs1 ->
  bind (update_fs f) k w = k tt (mkWorld fs1 (events w)).
Proof. intros H; unfold bind, update_fs; rewrite H; reflexivity. Qed.

Lemma bind_save {B} (path : string) (k : bool -> M B) (w : World) :
  bind (save path) k w
  = k (fst (save_pixmap path (fs w)))
      (mkWorld (snd (save_pixmap path (fs w))) (events w)).
Proof. reflexivity. Qed.

Lemma bind_lift_ok {A B} (r : result A) (a : A) (k : A -> M B)
      (w : World) :
  r = Ok a -> bind (lift r) k w = k a w.
Proof. intros ->; reflexivity. Qed.

Lemma bind_lift_raise {A B} (r : result A) (e : exn) (k : A -> M B)
      (w : World) :
  r = Raise e -> bind (lift r) k w = (Raise e, w).
Proof. intros ->; reflexivity. Qed.

Lemma bind_bind {A B C} (c : M A) (k : A -> M B) (k' : B -> M C)
      (w : World) :
  bind (bind c k) k' w = bind c (fun a => bind (k a) k') w.
Proof.
  unfold bind; destruct (c w) as [[a|e] w']; reflexivity.
Qed.

(** *** Progress *)

Lemma progress_values_app (a b : list Event) :
  progress_values (a +++ b) = progress_values a +++ progress_values b.
Proof.
  induction a as [|e a IH]; [reflexivity|].
  destruct e as [[]| | | | | |]; simpl; rewrite IH; reflexivity.
Qed.

Ltac values :=
  cbn [negb fst snd events fs];
  rewrite ?progress_values_app; cbn [progress_values];
  rewrite ?app_nil_r; try reflexivity.

Ltac no_progress := right; split; [discriminate|values].

(** A track adds one progress value when it succeeds, none otherwise. *)
Lemma rip_track_progress cfg env total cap i track w :
  (fst (rip_track cfg env total cap i track w) = Ok true
   /\ exists p,
       progress i total = Ok p
       /\ progress_values
            (events (snd (rip_track cfg env total cap i track w)))
          = progress_values (events w) +++ [p])
  \/ (fst (rip_track cfg env total cap i track w) <> Ok true
      /\ progress_values
           (events (snd (rip_track cfg env total cap i track w)))
         = progress_values (events w)).
Proof.
  unfold rip_track, process_writes, emit.
  unfold bind, lift, record, ret, update_fs.
  destruct (int_of (number track)) as [n|e]; cbn [fst snd events fs];
    [|no_progress].
  destruct (String.eqb (format cfg) "WAV").
  - destruct (rip_returncode (env i) =? 0); cbn [negb fst snd events fs];
      [|no_progress].
    destruct (progress i total) as [p|e]; cbn [fst snd events fs];
      [|no_progress].
    left; split; [reflexivity|]. exists p; split; [reflexivity|values].
  - destruct (index _ 0) as [c0|e]; cbn [fst snd events fs];
      [|no_progress].
    destruct (enc_returncode (env i) =? 0); cbn [negb fst snd events fs];
      [|no_progress].
    destruct (progress i total) as [p|e]; cbn [fst snd events fs];
      [|no_progress].
    left; split; [reflexivity|]. exists p; split; [reflexivity|values].
Qed.

(** The loop reports the progress of a first run of [k] tracks, and it
    goes through exactly when [k] is the number of tracks. *)
Lemma rip_tracks_progress cfg env total cap (ts : list Track) :
  forall i w,
  exists k vals,
    (k <= length ts)%nat
    /\ progress_values
         (events (snd (rip_tracks cfg env total cap i ts w)))
       = progress_values (events w) +++ vals
    /\ Forall2 (fun j p => progress j total = Ok p) (seq i k) vals
    /\ (k = length ts
        <-> fst (rip_tracks cfg env total cap i ts w) = Ok true).
Proof.
  induction ts as [|t ts IH]; intros i w; cbn [rip_tracks].
  - exists 0%nat, []; rewrite app_nil_r; repeat split; auto.
  - unfold bind.
    destruct (rip_track_progress cfg env total cap i t w)
      as [(R & p & Hp & E)|(R & E)];
      destruct (rip_track cfg env total cap i t w) as [r w1];
      cbn [fst snd] in *.
    + subst r.
      destruct (IH (S i) w1) as (k & vals & Hk & Ev & F & C).
      exists (S k), (p :: vals); cbn [length seq].
      split; [lia|]. split; [rewrite Ev, E, <- app_assoc; reflexivity|].
      split; [constructor; assumption|].
      rewrite <- C; split; lia.
    + exists 0%nat, []; rewrite app_nil_r; cbn [length seq].
      split; [lia|]. split.
      * destruct r as [[|]|e]; try congruence; exact E.
      * split; [constructor|]. split; [discriminate|].
        destruct r as [[|]|e]; unfold ret; cbn [fst]; congruence.
Qed.

Lemma bind_update_fs_raise {B} (f : FS -> result FS) (k : unit -> M B)
      (w : World) (e : exn) :
  f (fs w) = Raise e -> bind (update_fs f) k w = (Raise e, w).
Proof. intros H; unfold bind, update_fs; rewrite H; reflexivity. Qed.

Lemma not_finished_In (d : list Event) :
  Forall not_finished d -> ~ In (Emit finished) d.
Proof.
  intros F H; rewrite Forall_forall in F; exact (F _ H eq_refl).
Qed.

Lemma progress_table_99 : progress_table 99 = true.
Proof. vm_compute; reflexivity. Qed.

Lemma table_lookup (M N i : nat) :
  progress_table M = true ->
  (1 <= N <= M)%nat -> (i < N)%nat -> report_ok N i = true.
Proof.
  unfold progress_table; intros T HN Hi.
  rewrite forallb_forall in T.
  specialize (T N ltac:(apply in_seq; lia)).
  rewrite forallb_forall in T. apply T, in_seq; lia.
Qed.

Lemma report_ok_99 (N i : nat) :
  (1 <= N <= 99)%nat -> (i < N)%nat -> report_ok N i = true.
Proof. exact (table_lookup 99 N i progress_table_99). Qed.

Lemma report_facts (N i : nat) :
  (1 <= N <= 99)%nat -> (i < N)%nat ->
  let f j := reported (Z.of_nat j + 1) (Z.of_nat N) in
  progress i N = Ok (f i)
  /\ ((S i < N)%nat -> f i <= f (S i))
  /\ (f i = 100 <-> S i = N).
Proof.
  intros HN Hi f. pose proof (report_ok_99 N i HN Hi) as H.
  unfold report_ok in H.
  apply andb_true_iff in H as [H H3].
  apply andb_true_iff in H as [H1 H2].
  fold (f i) in H1, H2, H3.
  replace (reported (Z.of_nat i + 1 + 1) (Z.of_nat N)) with (f (S i)) in H2
    by (unfold f; f_equal; lia).
  split; [|split].
  - destruct (progress i N) as [p|e]; [|discriminate].
    simpl in H1; apply Z.eqb_eq in H1; congruence.
  - intros Hlt. apply orb_true_iff in H2 as [H2|H2].
    + apply Z.eqb_eq in H2; lia.
    + apply Z.leb_le, H2.
  - apply Bool.eqb_prop in H3.
    rewrite <- Z.eqb_eq, H3, Z.eqb_eq; lia.
Qed.

Lemma Forall2_map {A B} (R : A -> B -> Prop) (f : A -> B)
      (l : list A) (vals : list B) :
  Forall2 R l vals ->
  (forall a b, In a l -> R a b -> b = f a) ->
  vals = map f l.
Proof.
  induction 1 as [|a b l vals Hab F IH]; intros H; [reflexivity|].
  cbn [map]; f_equal.
  - apply H; [left; reflexivity|exact Hab].
  - apply IH; intros a' b' Hin; apply H; right; exact Hin.
Qed.

Lemma sorted_map_seq (f : nat -> Z) (k : nat) :
  forall a,
    (forall j, (a <= j)%nat -> (S j < a + k)%nat -> f j <= f (S j)) ->
    Sorted Z.le (map f (seq a k)).
Proof.
  induction k as [|k IH]; intros a H; cbn [seq map]; constructor.
  - apply IH; intros j H1 H2; apply H; lia.
  - destruct k as [|k]; cbn [seq map]; constructor.
    apply H; lia.
Qed.

(** C5, where the code departs from it.  The worker computes the
    percentage with floating-point division and multiplication before it
    truncates: 29/50 is rounded to 0.58, 0.58 * 100 to
    57.99999999999999, and the value reported after track 29 of 50 is 57,
    where the floor of (29/50)*100 is 58.  In the run of a job of 50
    tracks that all succeed every other value is the floor, the job
    finishes and no error is reported. *)
Theorem progress_29_of_50 :
  let evs := events (run job_of_50 all_succeed empty_world) in
  progress 28 50 = Ok 57
  /\ Spec.progress 29 50 = 58
  /\ nth_error (progress_values evs) 28 = Some 57
  /\ progress_values evs
     = map (fun i => if i =? 29 then 57 else Spec.progress i 50)
           (map Z.of_nat (seq 1 50))
  /\ error_messages evs = []
  /\ last evs (Emit (error EmptyString)) = Emit finished.
Proof. cbv zeta; repeat split; vm_compute; reflexivity. Qed.

(** *** Failing processes *)

(** When a track does not go through, the loop ends with it. *)
Lemma rip_tracks_stop cfg env total cap i track ts w :
  fst (rip_track cfg env total cap i track w) <> Ok true ->
  rip_tracks cfg env total cap i (track :: ts) w
  = (match fst (rip_track cfg env total cap i track w) with
     | Ok _ => Ok false
     | Raise e => Raise e
     end,
     snd (rip_track cfg env total cap i track w)).
Proof.
  intros H; cbn [rip_tracks]; unfold bind.
  destruct (rip_track cfg env total cap i track w) as [[[|]|e] w1];
    cbn [fst snd] in *; [congruence|reflexivity|reflexivity].
Qed.

Lemma error_messages_app (a b : list Event) :
  error_messages (a +++ b) = error_messages a +++ error_messages b.
Proof.
  induction a as [|e a IH]; [reflexivity|].
  destruct e as [[]| | | | | |]; simpl; rewrite IH; reflexivity.
Qed.

Ltac messages :=
  cbn [negb fst snd events fs];
  rewrite ?error_messages_app; cbn [error_messages];
  rewrite <- ?app_assoc; cbn [app]; try reflexivity.

(** The direct path: a failing extractor is reported with its error text
    and the track returns. *)
Lemma rip_track_wav_failure cfg env total cap i track w n :
  format cfg = "WAV" ->
  Py.int (number track) = Some n ->
  rip_returncode (env i) <> 0 ->
  let r := rip_track cfg env total cap i track w in
  fst r = Ok false
  /\ error_messages (events (snd r))
     = error_messages (events w)
       +++ ["cdparanoia failed for track " ++ Py.str n ++ ": "
            ++ rip_stderr (env i)]
  /\ progress_values (events (snd r)) = progress_values (events w).
Proof.
  intros Hf Hn Hrc; cbv zeta.
  unfold rip_track, process_writes, emit, int_of.
  rewrite Hf, Hn; apply Z.eqb_neq in Hrc; rewrite Hrc.
  change (String.eqb "WAV" "WAV") with true; cbv iota.
  unfold bind, lift, record, ret, update_fs.
  split; [reflexivity|split]; [messages|values].
Qed.

(** The piped path: a failing encoder is reported with its error text
    and the track returns. *)
Lemma rip_track_encoder_failure cfg env total cap i track w n c0 :
  String.eqb (format cfg) "WAV" = false ->
  Py.int (number track) = Some n ->
  nth_error (get_encoder_cmd cfg track cap (output_filename cfg track n)) 0
  = Some c0 ->
  enc_returncode (env i) <> 0 ->
  let r := rip_track cfg env total cap i track w in
  fst r = Ok false
  /\ error_messages (events (snd r))
     = error_messages (events w)
       +++ ["Encoder failed for track " ++ Py.str n ++ ": "
            ++ enc_stderr (env i)]
  /\ progress_values (events (snd r)) = progress_values (events w).
Proof.
  intros Hf Hn Hc Hrc; cbv zeta.
  unfold rip_track, process_writes, emit, int_of, index.
  rewrite Hf, Hn; apply Z.eqb_neq in Hrc; rewrite Hrc.
  unfold bind, lift, record, ret, update_fs; cbv beta iota.
  rewrite !Hc.
  split; [reflexivity|split]; [messages|values].
Qed.

(** The piped path never looks at the extractor: two drives that agree
    on the encoder give the same run, whatever the extractor returns. *)
Lemma rip_track_ignores_extractor cfg env env' total cap i track w :
  String.eqb (format cfg) "WAV" = false ->
  enc_returncode (env i) = enc_returncode (env' i) ->
  enc_stderr (env i) = enc_stderr (env' i) ->
  rip_track cfg env total cap i track w
  = rip_track cfg env' total cap i track w.
Proof.
  intros Hf H1 H2; unfold rip_track; rewrite Hf, H1, H2; reflexivity.
Qed.

Lemma run_ignores_extractor cfg env env' w :
  String.eqb (format cfg) "WAV" = false ->
  (forall i, enc_returncode (env i) = enc_returncode (env' i)
             /\ enc_stderr (env i) = enc_stderr (env' i)) ->
  run cfg env w = run cfg env' w.
Proof.
  intros Hf H.
  assert (L : forall cap ts i w1,
             rip_tracks cfg env (length (tracks cfg)) cap i ts w1
             = rip_tracks cfg env' (length (tracks cfg)) cap i ts w1).
  { intros cap ts; induction ts as [|t ts IH]; intros i w1;
      [reflexivity|].
    cbn [rip_tracks]; unfold bind.
    rewrite (rip_track_ignores_extractor cfg env env' _ _ _ _ _ Hf
               (proj1 (H i)) (proj2 (H i))).
    destruct (rip_track cfg env' (length (tracks cfg)) cap i t w1)
      as [[[|]|e] w2]; auto. }
  unfold run, run_body, bind.
  destruct (record (MakeDirs (output_path cfg)) w) as [[u|e] w1]; auto.
  destruct (update_fs (os_makedirs (output_path cfg) true) w1)
    as [[u1|e] w2]; auto.
  destruct (has_cover cfg).
  - destruct (record _ w2) as [[u2|e] w3]; auto.
    destruct (save _ w3) as [[u3|e] w4]; auto.
    unfold ret at 1 3; rewrite L; reflexivity.
  - unfold ret at 1 3; rewrite L; reflexivity.
Qed.

(** C4, where the code departs from it.  In the piped path the exit
    status of the extractor is never read: with an extractor that exits
    with status 1 for every track and an encoder that exits with 0, the
    MP3 job reports no failure, goes on to the second track, reports the
    progress 50 and 100 and finishes; the same drive stops the WAV job at
    its first track with the error text of the extractor. *)
Theorem pipe_misses_extractor_failure :
  let evs := events (run mp3_job extractor_fails empty_world) in
  error_messages evs = []
  /\ progress_values evs = [50; 100]
  /\ last evs (Emit finished) = Emit finished
  /\ launches evs
     = [["cdparanoia"; "-q"; "-d"; "/dev/sr0"; "1"; "-"];
        ["lame"; "-S"; "-b"; "320"; "--add-id3v2"; "--tt"; "One";
         "--ta"; "Artist"; "--tl"; "Album"; "--ty"; "2001"; "--tn"; "1";
         "-"; "/music/Artist/Album/01. One.mp3"];
        ["cdparanoia"; "-q"; "-d"; "/dev/sr0"; "2"; "-"];
        ["lame"; "-S"; "-b"; "320"; "--add-id3v2"; "--tt"; "Two";
         "--ta"; "Artist"; "--tl"; "Album"; "--ty"; "2001"; "--tn"; "2";
         "-"; "/music/Artist/Album/02. Two.mp3"]]
  /\ run mp3_job extractor_fails empty_world
     = run mp3_job all_succeed empty_world
  /\ error_messages (events (run wav_job extractor_fails empty_world))
     = ["cdparanoia failed for track 1: cdparanoia: unable to read audio"]
  /\ launches (events (run wav_job extractor_fails empty_world))
     = [["cdparanoia"; "-q"; "-d"; "/dev/sr0"; "1";
         "/music/Artist/Album/01. One.wav"]].
Proof. cbv zeta; repeat split; vm_compute; reflexivity. Qed.

End RipProps.


(** ** More on the built-ins *)

Module PyMore.
Import Py MoreObs.

Lemma prefix_app (p x : string) : prefix p (p ++ x) = true.
Proof.
  induction p as [|c p IH]; simpl; [destruct x; reflexivity|].
  destruct (ascii_dec c c); [exact IH|congruence].
Qed.

Lemma prefix_app_r (p s x : string) :
  prefix p s = true -> prefix p (s ++ x) = true.
Proof.
  revert s; induction p as [|c p IH]; intros s H.
  - destruct (s ++ x); reflexivity.
  - destruct s as [|d s]; [discriminate|]; simpl in *.
    destruct (ascii_dec c d); [apply IH, H|discriminate].
Qed.

(** Joining a component that is not absolute only extends the path. *)
Lemma path_join2_extends (path b : string) :
  startswith b "/" = false ->
  startswith (path_join2 path b) path = true.
Proof.
  intros H; unfold path_join2; rewrite H; unfold startswith.
  destruct (is_empty path || endswith path "/"); apply prefix_app.
Qed.

Lemma prefix_exists (p s : string) :
  prefix p s = true -> exists x, s = p ++ x.
Proof.
  revert s; induction p as [|c p IH]; intros s H.
  - exists s; reflexivity.
  - destruct s as [|d s]; [discriminate|]; simpl in H.
    destruct (ascii_dec c d) as [->|]; [|discriminate].
    destruct (IH s H) as [x ->]; exists x; reflexivity.
Qed.

Lemma startswith_trans (a b c : string) :
  startswith b a = true -> startswith c b = true -> startswith c a = true.
Proof.
  unfold startswith; intros H1 H2.
  apply prefix_exists in H1 as [x ->].
  apply prefix_exists in H2 as [y ->].
  rewrite PyFacts.app_assoc; apply prefix_app.
Qed.

(** *** [rstrip] and the filter of characters *)

Lemma rstrip_idem (s : string) : rstrip (rstrip s) = rstrip s.
Proof.
  induction s as [|c r IH]; [reflexivity|]; simpl.
  destruct (is_empty (rstrip r) && isspace c) eqn:E; [reflexivity|].
  simpl; rewrite IH, E; reflexivity.
Qed.

Lemma rstrip_trimmed (s : string) : trimmed (rstrip s) = true.
Proof.
  unfold trimmed; induction s as [|c r IH]; [reflexivity|]; simpl.
  destruct (is_empty (rstrip r)) eqn:E; simpl.
  - destruct (isspace c) eqn:Ec; [reflexivity|]; simpl.
    apply PyFacts.is_empty_true in E; rewrite E; simpl.
    rewrite Ec; reflexivity.
  - simpl. destruct (last_char (rstrip r)) as [d|] eqn:L; [exact IH|].
    apply PyFacts.last_char_none in L; rewrite L in E; discriminate.
Qed.

Lemma rstrip_id (s : string) : trimmed s = true -> rstrip s = s.
Proof.
  unfold trimmed; induction s as [|c r IH]; [reflexivity|]; simpl.
  destruct (last_char r) as [d|] eqn:L.
  - intros H; rewrite (IH H).
    destruct r; [discriminate|reflexivity].
  - apply PyFacts.last_char_none in L; subst r; simpl.
    intros H; apply negb_true_iff in H; rewrite H; reflexivity.
Qed.

Lemma filter_chars_id (f : ascii -> bool) (s : string) :
  all_chars f s = true -> filter_chars f s = s.
Proof.
  induction s as [|c r IH]; [reflexivity|]; simpl.
  intros H; apply andb_true_iff in H as [Hc Hr].
  rewrite Hc, (IH Hr); reflexivity.
Qed.

End PyMore.


(** ** More on the parse and the lookup *)

Module PyNumerals.
Import Py MoreObs.

(** *** Fields *)

Lemma all_chars_snoc (f : ascii -> bool) (s : string) (c : ascii) :
  all_chars f s = true -> f c = true ->
  all_chars f (s ++ String c EmptyString) = true.
Proof.
  intros Hs Hc; rewrite PyFacts.all_chars_app, Hs; simpl.
  rewrite Hc; reflexivity.
Qed.

Lemma split_from_tokens (s : string) :
  forall tok,
    all_chars not_space tok = true ->
    forallb token (split_from tok s) = true.
Proof.
  induction s as [|c r IH]; intros tok Ht; simpl.
  - destruct (is_empty tok) eqn:E; [reflexivity|]; simpl.
    unfold token; rewrite E, Ht; reflexivity.
  - destruct (isspace c) eqn:Ec.
    + destruct (is_empty tok) eqn:E; [apply IH; reflexivity|]; simpl.
      unfold token at 1; rewrite E, Ht; simpl.
      apply IH; reflexivity.
    + apply IH, all_chars_snoc; [exact Ht|].
      unfold not_space; rewrite Ec; reflexivity.
Qed.

(** The fields of a line are not empty and hold no whitespace. *)
Lemma split_tokens (s : string) : forallb token (split s) = true.
Proof. apply split_from_tokens; reflexivity. Qed.

Lemma field_token (s : string) (i : nat) (f : string) :
  nth_error (split s) i = Some f -> token f = true.
Proof.
  intros H; apply nth_error_In in H.
  pose proof (split_tokens s) as T; rewrite forallb_forall in T; auto.
Qed.

(** *** Integers and their numerals *)

Lemma uint_value_digits (d : Decimal.uint) :
  forall acc b,
    (d <> Decimal.Nil \/ b = true) ->
    int_digits acc b (NilEmpty.string_of_uint d) = Some (uint_value d acc).
Proof.
  induction d; intros acc b H; simpl;
    try (rewrite IHd; [reflexivity|right; reflexivity]).
  destruct H as [H| ->]; [congruence|reflexivity].
Qed.

Lemma uint_value_of_uint_acc (d : Decimal.uint) :
  forall acc, Zpos (Pos.of_uint_acc d acc) = uint_value d (Zpos acc).
Proof.
  induction d; intros acc; cbn [Pos.of_uint_acc uint_value];
    try reflexivity; rewrite IHd; f_equal; lia.
Qed.

Lemma uint_value_of_uint (d : Decimal.uint) :
  Z.of_uint d = uint_value d 0.
Proof.
  unfold Z.of_uint; induction d; simpl; try reflexivity; try exact IHd;
    rewrite uint_value_of_uint_acc; reflexivity.
Qed.

Lemma digits_not_space (s : string) :
  all_chars isdecimal s = true -> all_chars not_space s = true.
Proof.
  apply PyFacts.all_chars_impl; intros c H.
  unfold isdecimal, in_range in H; apply andb_true_iff in H as [H1 H2].
  apply N.leb_le in H1; apply N.leb_le in H2.
  unfold not_space, isspace, in_range.
  repeat match goal with
         | |- context [(?a <=? ?b)%N] =>
             destruct (N.leb_spec a b)
         end; simpl; try reflexivity; lia.
Qed.

Lemma lstrip_id (s : string) :
  match s with
  | EmptyString => True
  | String c _ => isspace c = false
  end -> lstrip s = s.
Proof. destruct s as [|c r]; simpl; [reflexivity|intros ->; reflexivity]. Qed.

(** A text without whitespace is not changed by [strip]. *)
Lemma strip_id (s : string) : all_chars not_space s = true -> strip s = s.
Proof.
  intros H; unfold strip; rewrite lstrip_id.
  - apply PyMore.rstrip_id; unfold trimmed.
    destruct (last_char s) as [c|] eqn:L; [|reflexivity].
    exact (PyFacts.last_char_all _ _ _ H L).
  - destruct s as [|c r]; [exact I|]; simpl in H.
    apply andb_true_iff in H as [H _]; apply negb_true_iff in H; exact H.
Qed.

(** The whitespace [int] skips is whitespace for [str.isspace]. *)
Lemma int_space_isspace (c : ascii) :
  int_space c = true -> isspace c = true.
Proof.
  unfold int_space, isspace, in_range.
  repeat match goal with
         | |- context [(?a <=? ?b)%N] => destruct (N.leb_spec a b)
         end; simpl; intros Hs; try reflexivity; try discriminate; lia.
Qed.

Lemma not_space_int_space (c : ascii) :
  not_space c = true -> int_space c = false.
Proof.
  unfold not_space; intros H; apply negb_true_iff in H.
  destruct (int_space c) eqn:E; [|reflexivity].
  rewrite (int_space_isspace c E) in H; discriminate.
Qed.

(** A text without whitespace is read by [int] as it stands. *)
Lemma int_strip_id (s : string) :
  all_chars not_space s = true -> int_rstrip (int_lstrip s) = s.
Proof.
  intros H.
  assert (L : int_lstrip s = s).
  { destruct s as [|c r]; [reflexivity|]; simpl in *.
    apply andb_true_iff in H as [H _].
    rewrite (not_space_int_space c H); reflexivity. }
  rewrite L; clear L.
  induction s as [|c r IH]; [reflexivity|]; simpl in *.
  apply andb_true_iff in H as [Hc Hr].
  rewrite (IH Hr), (not_space_int_space c Hc), andb_false_r; reflexivity.
Qed.

Lemma int_of_uint_string (d : Decimal.uint) :
  d <> Decimal.Nil ->
  Py.int (NilEmpty.string_of_uint d) = Some (uint_value d 0).
Proof.
  intros H; unfold Py.int.
  rewrite int_strip_id
    by (apply digits_not_space, PyFacts.string_of_uint_digits).
  rewrite <- (uint_value_digits d 0 false) by (left; exact H).
  destruct d; try congruence; reflexivity.
Qed.

(** [int(str(n)) == n] *)
Lemma int_str (n : Z) : Py.int (Py.str n) = Some n.
Proof.
  unfold Py.str. rewrite <- (DecimalZ.of_to n) at 2.
  destruct n as [|p|p]; [reflexivity| |]; cbn [Z.to_int Z.of_int].
  - pose proof (DecimalPos.Unsigned.to_uint_nonnil p) as H.
    rewrite uint_value_of_uint, <- (int_of_uint_string _ H).
    simpl; destruct (Pos.to_uint p); try congruence; reflexivity.
  - pose proof (DecimalPos.Unsigned.to_uint_nonnil p) as H.
    rewrite uint_value_of_uint.
    assert (E : NilZero.string_of_int (Decimal.Neg (Pos.to_uint p))
                = String "-" (NilEmpty.string_of_uint (Pos.to_uint p))).
    { simpl; destruct (Pos.to_uint p); try congruence; reflexivity. }
    rewrite E; unfold Py.int.
    rewrite int_strip_id.
    + rewrite (uint_value_digits _ 0 false) by (left; exact H).
      reflexivity.
    + simpl; apply digits_not_space, PyFacts.string_of_uint_digits.
Qed.

End PyNumerals.


Module LookupMore.
Import LookupWorker LookupObs MoreObs LookupEnds.
Local Open Scope result_scope.

Lemma run_read_error (device stderr : string) (e : exn)
      (http_get : string -> HttpResult) :
  read_toc (Py.splitlines stderr) = Raise e ->
  run device (Exited 0 stderr) http_get = read_error device e.
Proof. intros H; unfold run; rewrite H; reflexivity. Qed.

Lemma offsets_of_short (tl : list string) (l : string) :
  In l tl -> nth_error (Py.split l) 3 = None ->
  offsets_of tl = Raise IndexError.
Proof.
  induction tl as [|x tl IH]; intros Hin Hl; [contradiction|].
  cbn [offsets_of]; unfold field, index.
  destruct (nth_error (Py.split x) 3) as [f|] eqn:E; [|reflexivity].
  cbn [rbind]. destruct Hin as [->|Hin]; [congruence|].
  rewrite (IH Hin Hl); reflexivity.
Qed.

(** X1. A track line with fewer than four fields makes the parse fail
    with "list index out of range"; when every track line has its four
    fields and the fourth field of the first one is no integer, the parse
    fails with the error of [int] on that field.  In both cases the run
    emits this one error and sends no query. *)
Theorem track_line_errors (lines : list string) :
  (forall l,
      In l (track_lines lines) -> nth_error (Py.split l) 3 = None ->
      read_toc lines = Raise IndexError
      /\ forall device stderr http_get,
          Py.splitlines stderr = lines ->
          run device (Exited 0 stderr) http_get
          = read_error device IndexError)
  /\ (forall offs f0,
         map (fun l => nth_error (Py.split l) 3) (track_lines lines)
         = map Some offs ->
         hd_error offs = Some f0 -> Py.int f0 = None ->
         read_toc lines = Raise (ValueError f0)
         /\ forall device stderr http_get,
             Py.splitlines stderr = lines ->
             run device (Exited 0 stderr) http_get
             = read_error device (ValueError f0)).
Proof.
  split.
  - intros l Hin Hl.
    assert (R : read_toc lines = Raise IndexError).
    { unfold read_toc.
      destruct (track_lines lines) as [|x tl] eqn:E; [contradiction|].
      cbn [length Nat.eqb].
      rewrite (offsets_of_short _ _ Hin Hl); reflexivity. }
    split; [exact R|].
    intros device stderr http_get <-; apply run_read_error, R.
  - intros offs f0 Hmap Hhd Hint.
    assert (R : read_toc lines = Raise (ValueError f0)).
    { unfold read_toc.
      rewrite (LookupProps.offsets_of_fields _ _ Hmap).
      destruct offs as [|f offs]; [discriminate|].
      cbn [hd_error] in Hhd; injection Hhd as ->.
      destruct (track_lines lines) as [|l0 tl]; [discriminate|].
      cbn [map] in Hmap; injection Hmap as H1 H2.
      change (nth_error (Py.split l0) 3 = Some f0) in H1.
      cbn [length Nat.eqb rbind]; unfold index; cbn [nth_error rbind].
      unfold field, index; rewrite H1; cbn [rbind].
      unfold int_of; rewrite Hint; reflexivity. }
    split; [exact R|].
    intros device stderr http_get <-; apply run_read_error, R.
Qed.

Lemma track_line_errors_witness :
  read_toc ["  1. 21000 [04:40.00]"; "TOTAL 21000"] = Raise IndexError
  /\ read_toc ["  1. 21000 [04:40.00] n/a [00:00.00]"; "TOTAL 21000"]
     = Raise (ValueError "n/a").
Proof.
  split.
  - apply (proj1 (track_line_errors
                    ["  1. 21000 [04:40.00]"; "TOTAL 21000"])
             "  1. 21000 [04:40.00]").
    + vm_compute; left; reflexivity.
    + vm_compute; reflexivity.
  - apply (proj2 (track_line_errors
                    ["  1. 21000 [04:40.00] n/a [00:00.00]"; "TOTAL 21000"])
             ["n/a"] "n/a").
    + vm_compute; reflexivity.
    + reflexivity.
    + vm_compute; reflexivity.
Defined.

(** X2. With well-formed track lines, the first line that starts with
    TOTAL decides alone: when it has no second field the parse fails with
    "list index out of range", when its second field is no integer the
    parse fails with the error of [int] on that field, whatever lines
    follow (a later, well-formed TOTAL line is not looked at). *)
Theorem total_line_errors (lines offs : list string) (f0 tline : string)
        (s0 : Z) :
  track_lines lines <> [] ->
  map (fun l => nth_error (Py.split l) 3) (track_lines lines)
  = map Some offs ->
  hd_error offs = Some f0 -> Py.int f0 = Some s0 ->
  find is_total_line lines = Some tline ->
  (nth_error (Py.split tline) 1 = None ->
   read_toc lines = Raise IndexError)
  /\ (forall tf,
         nth_error (Py.split tline) 1 = Some tf -> Py.int tf = None ->
         read_toc lines = Raise (ValueError tf)).
Proof.
  intros Hne Hmap Hhd Hint Hfind.
  assert (P : read_toc lines
              = (total <- total_sectors lines ;;
                 Ok (Some (mkTOC (length (track_lines lines))
                                 (s0 + total) offs)))).
  { unfold read_toc.
    destruct (track_lines lines) as [|l0 tl] eqn:Etl; [congruence|].
    cbn [length Nat.eqb].
    rewrite (LookupProps.offsets_of_fields _ _ Hmap); cbn [rbind].
    destruct offs as [|f offs]; [discriminate|].
    cbn [hd_error] in Hhd; injection Hhd as ->.
    cbn [map] in Hmap; injection Hmap as H1 H2.
    change (nth_error (Py.split l0) 3 = Some f0) in H1.
    unfold index; cbn [nth_error rbind]. unfold field, index; rewrite H1.
    cbn [rbind]. rewrite (LookupProps.int_of_some _ _ Hint); reflexivity. }
  rewrite P, (LookupProps.total_sectors_found _ _ Hfind).
  unfold field, index, int_of; split.
  - intros ->; reflexivity.
  - intros tf H1 H2; rewrite H1; cbn [rbind]; rewrite H2; reflexivity.
Qed.

Lemma total_line_errors_witness :
  read_toc ["  1. 21000 [04:40.00] 0 [00:00.00]"; "TOTAL";
            "TOTAL 21000 [04:40.00]"]
  = Raise IndexError.
Proof.
  apply (proj1 (total_line_errors
                  ["  1. 21000 [04:40.00] 0 [00:00.00]"; "TOTAL";
                   "TOTAL 21000 [04:40.00]"]
                  ["0"] "0" "TOTAL" 0
                  ltac:(vm_compute; discriminate)
                  ltac:(vm_compute; reflexivity)
                  eq_refl
                  ltac:(vm_compute; reflexivity)
                  ltac:(vm_compute; reflexivity))).
  vm_compute; reflexivity.
Defined.

Lemma find_total_app (pre post : list string) (t : string) :
  forallb (fun l => negb (is_total_line l)) pre = true ->
  is_total_line t = true ->
  find is_total_line (pre +++ t :: post) = Some t.
Proof.
  intros Hpre Ht; induction pre as [|x pre IH]; simpl.
  - rewrite Ht; reflexivity.
  - simpl in Hpre; apply andb_true_iff in Hpre as [Hx Hpre].
    apply negb_true_iff in Hx; rewrite Hx; apply IH, Hpre.
Qed.

(** X3. The place of the TOTAL line does not matter: a TOTAL line (that
    is no track line) found after lines none of which starts with TOTAL
    gives the same result as the same line put first; track lines may
    come before or after it. *)
Theorem total_line_anywhere (pre post : list string) (t : string) :
  forallb (fun l => negb (is_total_line l)) pre = true ->
  is_total_line t = true -> is_track_line t = false ->
  read_toc (pre +++ t :: post) = read_toc (t :: pre +++ post).
Proof.
  intros Hpre Ht Hn; unfold read_toc.
  assert (T : track_lines (pre +++ t :: post)
              = track_lines (t :: pre +++ post)).
  { unfold track_lines; rewrite filter_app; cbn [filter].
    rewrite Hn, <- filter_app; reflexivity. }
  rewrite T.
  rewrite (LookupProps.total_sectors_found _ _
             (find_total_app pre post t Hpre Ht)).
  rewrite (LookupProps.total_sectors_found (t :: pre +++ post) t)
    by (cbn [find]; rewrite Ht; reflexivity).
  reflexivity.
Qed.

Lemma total_line_anywhere_witness :
  read_toc ["  1. 21000 [04:40.00] 0 [00:00.00]"; "TOTAL 21000 [04:40.00]"]
  = read_toc ["TOTAL 21000 [04:40.00]";
              "  1. 21000 [04:40.00] 0 [00:00.00]"].
Proof.
  apply (total_line_anywhere ["  1. 21000 [04:40.00] 0 [00:00.00]"] []
                             "TOTAL 21000 [04:40.00]");
    vm_compute; reflexivity.
Defined.

(** *** The TOC that is parsed *)

Lemma all_chars_join (f : ascii -> bool) (sep : string) (l : list string) :
  Py.all_chars f sep = true ->
  forallb (Py.all_chars f) l = true ->
  Py.all_chars f (Py.join sep l) = true.
Proof.
  intros Hsep; induction l as [|x l IH]; [reflexivity|].
  cbn [forallb]; intros H; apply andb_true_iff in H as [Hx Hl].
  destruct l as [|y l]; [exact Hx|].
  rewrite PyFacts.join_cons, !PyFacts.all_chars_app, Hx, Hsep.
  apply IH, Hl.
Qed.

Lemma tokens_not_space (l : list string) :
  forallb token l = true -> forallb (Py.all_chars not_space) l = true.
Proof.
  induction l as [|x l IH]; [reflexivity|]; cbn [forallb].
  intros H; apply andb_true_iff in H as [Hx Hl].
  unfold token in Hx; apply andb_true_iff in Hx as [_ Hx].
  rewrite Hx, (IH Hl); reflexivity.
Qed.

Lemma str_not_space (n : Z) : Py.all_chars not_space (Py.str n) = true.
Proof.
  apply PyFacts.all_chars_impl with (f := Py.sign_or_digit);
    [|apply PyFacts.str_chars].
  intros c H; unfold Py.sign_or_digit in H.
  apply orb_true_iff in H as [H|H].
  - assert (D : Py.all_chars Py.isdecimal (String c EmptyString) = true)
      by (simpl; rewrite H; reflexivity).
    apply PyNumerals.digits_not_space in D; simpl in D.
    rewrite andb_true_r in D; exact D.
  - apply Ascii.eqb_eq in H; subst c; reflexivity.
Qed.

Lemma offsets_tokens (tl offs : list string) :
  map (fun l => nth_error (Py.split l) 3) tl = map Some offs ->
  forallb token offs = true.
Proof.
  revert offs; induction tl as [|l tl IH]; intros [|f offs] H;
    try discriminate; [reflexivity|].
  cbn [map] in H; injection H as H1 H2.
  change (nth_error (Py.split l) 3 = Some f) in H1.
  change (map (fun l => nth_error (Py.split l) 3) tl = map Some offs) in H2.
  cbn [forallb]; rewrite (PyNumerals.field_token _ _ _ H1), (IH _ H2).
  reflexivity.
Qed.

(** X4. Every TOC the parse yields has at least one track, as many
    offsets as its track count says, and offsets that are fields (not
    empty, no whitespace), the first of them an integer; its fingerprint
    holds no whitespace. *)
Theorem read_toc_invariant (lines : list string) (t : TOC) :
  read_toc lines = Ok (Some t) ->
  (1 <= track_count t)%nat
  /\ length (offsets t) = track_count t
  /\ forallb token (offsets t) = true
  /\ (exists f0 s0, hd_error (offsets t) = Some f0 /\ Py.int f0 = Some s0)
  /\ Py.all_chars not_space (toc_str t) = true.
Proof.
  intros R.
  destruct (LookupProps.read_toc_offsets lines t R) as [C M].
  assert (L : length (offsets t) = track_count t).
  { rewrite C, <- (length_map Some (offsets t)), <- M, length_map.
    reflexivity. }
  assert (T : forallb token (offsets t) = true)
    by exact (offsets_tokens _ _ M).
  assert (P : (1 <= track_count t)%nat).
  { rewrite C; unfold read_toc in R.
    destruct (track_lines lines); [discriminate|simpl; lia]. }
  split; [exact P|]. split; [exact L|]. split; [exact T|]. split.
  - unfold read_toc in R.
    destruct (length (track_lines lines) =? 0)%nat; [discriminate|].
    destruct (offsets_of (track_lines lines)) as [offs|e] eqn:E;
      [|discriminate]; cbn [rbind] in R.
    apply LookupProps.offsets_of_inv in E.
    destruct (track_lines lines) as [|l0 tl]; [discriminate|].
    unfold index in R; cbn [nth_error rbind] in R.
    unfold field, index in R.
    destruct (nth_error (Py.split l0) 3) as [f0|] eqn:F; [|discriminate].
    cbn [rbind] in R. unfold int_of in R.
    destruct (Py.int f0) as [s0|] eqn:I; [|discriminate].
    cbn [rbind] in R.
    destruct (total_sectors lines) as [total|e]; [|discriminate].
    cbn [rbind] in R; injection R as <-; cbn [offsets].
    destruct offs as [|f offs]; [discriminate|].
    cbn [map] in E; injection E as E1 E2.
    change (nth_error (Py.split l0) 3 = Some f) in E1.
    exists f0, s0; split; [|exact I].
    cbn [hd_error]; congruence.
  - unfold toc_str.
    rewrite !PyFacts.all_chars_app, !str_not_space; cbn.
    apply all_chars_join; [reflexivity|apply tokens_not_space, T].
Qed.

Lemma read_toc_invariant_witness :
  length (offsets (mkTOC 2 42000 ["0"; "21000"])) = 2%nat.
Proof.
  apply (read_toc_invariant (Py.splitlines sample_scan)
                            (mkTOC 2 42000 ["0"; "21000"])).
  vm_compute; reflexivity.
Defined.

(** *** The signals of a lookup *)


Lemma one_terminal_single (s : Signal) :
  lookup_terminal s = true -> one_terminal [s].
Proof. intros H; exists [], s; auto. Qed.

Lemma one_terminal_cons (s : Signal) (l : list Signal) :
  lookup_terminal s = false -> one_terminal l -> one_terminal (s :: l).
Proof.
  intros H (logs & t & -> & L & T); exists (s :: logs), t.
  split; [reflexivity|]; cbn [forallb]; rewrite H, L; auto.
Qed.

Lemma dispatch_cases (data : dict) :
  dispatch data = finished data \/ dispatch data = error NoMatch.
Proof.
  unfold dispatch.
  destruct (_ || _); [left|right]; reflexivity.
Qed.

Ltac terminal_step :=
  first [ apply one_terminal_single; reflexivity
        | apply one_terminal_cons; [reflexivity|] ].

(** X5. Every run of the lookup ends with exactly one terminal signal,
    [error] or [finished], and this signal is the last one: all the
    signals before it are log messages. *)
Theorem lookup_run_one_terminal (device : string) (scan : ProcResult)
        (http_get : string -> HttpResult) :
  one_terminal (run device scan http_get).
Proof.
  unfold run; terminal_step.
  destruct scan as [msg|rc stderr]; [terminal_step|].
  destruct (negb (rc =? 0)); [terminal_step|]; cbn [VERBOSE app].
  destruct (read_toc (Py.splitlines stderr)) as [[t|]|e];
    [|terminal_step|terminal_step].
  unfold query; cbv zeta; cbn [app]; do 2 terminal_step.
  destruct (http_get _) as [msg|status reason text body];
    [terminal_step|]; cbn [VERBOSE app]; terminal_step.
  destruct (raise_for_status _ _ _); [terminal_step|].
  destruct body as [msg|data]; [terminal_step|].
  apply one_terminal_single.
  destruct (dispatch_cases data) as [-> | ->]; reflexivity.
Qed.

Lemma finished_is_dispatched (device : string) (scan : ProcResult)
      (http_get : string -> HttpResult) (data : dict) :
  In (finished data) (run device scan http_get) ->
  dispatch data = finished data.
Proof.
  unfold run; intros [H|H]; [discriminate|].
  destruct scan as [msg|rc stderr]; [destruct H as [H|[]]; discriminate|].
  destruct (negb (rc =? 0)); [destruct H as [H|[]]; discriminate|].
  cbn [VERBOSE app] in H.
  destruct (read_toc (Py.splitlines stderr)) as [[t|]|e];
    try (destruct H as [H|[]]; discriminate).
  unfold query in H; cbv zeta in H; cbn [app] in H.
  destruct H as [H|[H|H]]; try discriminate.
  destruct (http_get _) as [msg|status reason text body];
    [destruct H as [H|[]]; discriminate|].
  cbn [VERBOSE app] in H; destruct H as [H|H]; [discriminate|].
  destruct (raise_for_status _ _ _);
    [destruct H as [H|[]]; discriminate|].
  destruct body as [msg|d]; [destruct H as [H|[]]; discriminate|].
  destruct H as [H|[]].
  destruct (dispatch_cases d) as [E|E]; rewrite E in H;
    [|discriminate].
  injection H as ->; exact E.
Qed.

Lemma dispatch_agrees (data : dict) :
  dispatch data = error NoMatch
  <-> App.lookup_finished data = App.Error App.NoMetadata.
Proof.
  unfold dispatch, App.lookup_finished, App.releases_missing, has_key.
  destruct data as [|kv data].
  - cbn; split; reflexivity.
  - cbn [orb]. set (d := kv :: data).
    destruct (get d "releases") as [v|]; destruct (get d "cdstub");
      cbn [andb orb negb]; try destruct (json_truthy v) eqn:T;
      cbn [andb orb negb]; rewrite ?T; cbn [negb];
      split; intros H; try discriminate; try reflexivity.
    all: try (destruct v as [| | | |l|]; try discriminate;
              destruct l as [|r [|r' l]]; cbn [length Nat.ltb Nat.leb] in H;
              repeat match type of H with
                     | context [if ?b then _ else _] => destruct b
                     end; discriminate).
Qed.

(** X6. The worker and the window agree on what a result is: whenever
    the worker emits [finished] with some data, [lookup_finished] does
    not answer "Could not find metadata for this disc." for it, and it
    answers with the CDStub message exactly when the data holds no
    releases. *)
Theorem finished_data_is_accepted (device : string) (scan : ProcResult)
        (http_get : string -> HttpResult) (data : dict) :
  In (finished data) (run device scan http_get) ->
  App.lookup_finished data <> App.Error App.NoMetadata
  /\ (App.lookup_finished data = App.Error App.StubOnly
      <-> App.releases_missing data = true).
Proof.
  intros H; apply finished_is_dispatched in H.
  assert (N : App.lookup_finished data <> App.Error App.NoMetadata).
  { intros E; apply dispatch_agrees in E; congruence. }
  split; [exact N|].
  revert N; unfold App.lookup_finished, App.releases_missing.
  destruct (_ || _); [congruence|intros _].
  destruct (get data "releases") as [v|]; cbn [json_truthy negb].
  - destruct (json_truthy v) eqn:T; cbn [negb].
    + split; [|discriminate].
      destruct v as [| | | |l|]; try discriminate.
      destruct l as [|r [|r' l]]; cbn [length Nat.ltb Nat.leb];
        repeat match goal with
               | |- context [if ?b then _ else _] => destruct b
               end; discriminate.
    + split; reflexivity.
  - split; reflexivity.
Qed.

Lemma finished_data_is_accepted_witness :
  App.lookup_finished [("cdstub", JObj [])] <> App.Error App.NoMetadata.
Proof.
  apply (finished_data_is_accepted
           "/dev/sr0" (Exited 0 sample_scan)
           (fun _ => Response 200 "OK" "{}" (inr [("cdstub", JObj [])]))
           [("cdstub", JObj [])]).
  vm_compute; do 4 right; left; reflexivity.
Defined.

Lemma readable_shape (release : json) :
  App.readable release = true
  <-> exists members credit0 credits name title,
        release = JObj members
        /\ get members "artist-credit"
           = Some (JArr (JObj credit0 :: credits))
        /\ get credit0 "name" = Some name
        /\ get members "title" = Some title.
Proof.
  unfold App.readable, App.headline, App.item, App.first; split.
  - destruct release as [| | | | |members]; try discriminate.
    destruct (get members "artist-credit") as [credit|] eqn:C;
      [|discriminate].
    destruct credit as [| | |t|[|c0 cs]|]; try discriminate;
      [destruct t; discriminate|].
    destruct c0 as [| | | | |credit0]; try discriminate.
    destruct (get credit0 "name") as [name|] eqn:N; [|discriminate].
    destruct (get members "title") as [title|] eqn:T; [|discriminate].
    intros _; exists members, credit0, cs, name, title; auto.
  - intros (members & credit0 & cs & name & title & -> & C & N & T).
    rewrite C, N, T; reflexivity.
Qed.

(** X7. When the data holds a list of releases, the window offers
    releases only if it can read the headline of every one of them (an
    object with a title whose artist credit is a list that starts with an
    object with a name): a single readable release is put up for
    confirmation, two or more readable releases are all offered for
    choice, in the order received; when one of them cannot be read an
    exception leaves the slot and nothing is offered; an empty list is
    an error (the CDStub message with a "cdstub" key, the missing
    metadata message without). *)
Theorem lookup_finished_by_length (data : dict) (l : list json) :
  get data "releases" = Some (JArr l) ->
  (l = [] ->
   App.lookup_finished data
   = if has_key data "cdstub" then App.Error App.StubOnly
     else App.Error App.NoMetadata)
  /\ (forall release,
         App.lookup_finished data = App.Confirm release
         <-> l = [release] /\ App.readable release = true)
  /\ (forall offered,
         App.lookup_finished data = App.Choose offered
         <-> offered = l /\ (2 <= length l)%nat
             /\ forallb App.readable l = true)
  /\ (App.lookup_finished data = App.Uncaught
      <-> l <> [] /\ forallb App.readable l = false)
  /\ (forall release,
         In release l -> App.lookup_finished data <> App.Uncaught ->
         exists members credit0 credits name title,
           release = JObj members
           /\ get members "artist-credit"
              = Some (JArr (JObj credit0 :: credits))
           /\ get credit0 "name" = Some name
           /\ get members "title" = Some title).
Proof.
  intros H.
  assert (E : App.lookup_finished data
              = match l with
                | [] => if has_key data "cdstub" then App.Error App.StubOnly
                        else App.Error App.NoMetadata
                | [release] => if App.readable release
                               then App.Confirm release else App.Uncaught
                | _ => if forallb App.readable l then App.Choose l
                       else App.Uncaught
                end).
  { unfold App.lookup_finished, App.releases_missing.
    rewrite H. destruct data as [|kv data]; [discriminate|].
    destruct l as [|r [|r' l]]; cbn [json_truthy negb andb orb];
      try reflexivity.
    destruct (has_key (kv :: data) "cdstub"); reflexivity. }
  assert (U : App.lookup_finished data = App.Uncaught
              <-> l <> [] /\ forallb App.readable l = false).
  { rewrite E; destruct l as [|r [|r' l]].
    - destruct (has_key data "cdstub"); split;
        [discriminate|intros [N _]; congruence
        |discriminate|intros [N _]; congruence].
    - cbn [forallb]; rewrite andb_true_r.
      destruct (App.readable r); split;
        [discriminate|intros [_ N]; discriminate
        |intros _; split; [discriminate|reflexivity]|reflexivity].
    - destruct (forallb App.readable (r :: r' :: l)); split;
        [discriminate|intros [_ N]; discriminate
        |intros _; split; [discriminate|reflexivity]|reflexivity]. }
  split; [intros ->; exact E|].
  split; [|split; [|split; [exact U|]]].
  - intros release; rewrite E; destruct l as [|r [|r' l]].
    + destruct (has_key data "cdstub"); split;
        [discriminate|intros [N _]; discriminate
        |discriminate|intros [N _]; discriminate].
    + destruct (App.readable r) eqn:R; split.
      * intros [= <-]; auto.
      * intros [[= <-] _]; reflexivity.
      * discriminate.
      * intros [[= <-] N]; congruence.
    + destruct (forallb App.readable (r :: r' :: l)); split;
        [discriminate|intros [N _]; discriminate
        |discriminate|intros [N _]; discriminate].
  - intros offered; rewrite E; destruct l as [|r [|r' l]].
    + destruct (has_key data "cdstub"); split;
        [discriminate|intros (_ & N & _); cbn in N; lia
        |discriminate|intros (_ & N & _); cbn in N; lia].
    + destruct (App.readable r); split;
        [discriminate|intros (_ & N & _); cbn in N; lia
        |discriminate|intros (_ & N & _); cbn in N; lia].
    + destruct (forallb App.readable (r :: r' :: l)) eqn:R; split.
      * intros [= <-]; repeat split; cbn [length]; lia.
      * intros (-> & _); reflexivity.
      * discriminate.
      * intros (_ & _ & N); discriminate.
  - intros release Hin N.
    apply readable_shape.
    destruct (forallb App.readable l) eqn:R.
    + rewrite forallb_forall in R; apply R, Hin.
    + exfalso; apply N, U; split; [|reflexivity].
      intros ->; contradiction.
Qed.

Lemma lookup_finished_by_length_witness :
  let release t :=
    JObj [("title", JStr t);
          ("artist-credit", JArr [JObj [("name", JStr "Artist")]])] in
  App.lookup_finished
    [("releases", JArr [release "One"; release "Two"])]
  = App.Choose [release "One"; release "Two"]
  /\ App.lookup_finished [("releases", JArr [JStr "a"; JStr "b"])]
     = App.Uncaught.
Proof.
  cbv zeta; split.
  - apply (proj1 (proj2 (proj2 (lookup_finished_by_length
                                  [("releases", JArr _)] _ eq_refl)))).
    repeat split; cbn [length]; lia.
  - apply (proj1 (proj2 (proj2 (proj2 (lookup_finished_by_length
                                         [("releases", JArr _)] _
                                         eq_refl))))).
    split; [discriminate|reflexivity].
Defined.

End LookupMore.


(** ** More on the rip job: names and paths *)

Module RipMore.
Import RipWorker RipObs MoreObs.
Local Open Scope rip_scope.

Lemma sanitize_filename_filter (name : string) :
  sanitize_filename name = Py.rstrip (Py.filter_chars allowed name).
Proof. reflexivity. Qed.

(** X8. A sanitized name holds only letters, digits, spaces, dots and
    underscores, has no whitespace at its end, and sanitizing it again
    changes nothing. *)
Theorem sanitize_filename_shape (name : string) :
  Py.all_chars allowed (sanitize_filename name) = true
  /\ trimmed (sanitize_filename name) = true
  /\ sanitize_filename (sanitize_filename name) = sanitize_filename name.
Proof.
  assert (A : Py.all_chars allowed (sanitize_filename name) = true).
  { rewrite sanitize_filename_filter.
    apply PyFacts.all_chars_rstrip, PyFacts.all_chars_filter; auto. }
  split; [exact A|split].
  - rewrite sanitize_filename_filter; apply PyMore.rstrip_trimmed.
  - rewrite (sanitize_filename_filter (sanitize_filename name)).
    rewrite (PyMore.filter_chars_id _ _ A).
    rewrite sanitize_filename_filter; apply PyMore.rstrip_idem.
Qed.

(** X9. A name made of letters, digits, spaces, dots and underscores that
    does not end in a space is kept as it is. *)
Theorem sanitize_filename_keeps_clean_names (name : string) :
  Py.all_chars allowed name = true -> trimmed name = true ->
  sanitize_filename name = name.
Proof.
  intros A T; rewrite sanitize_filename_filter.
  rewrite (PyMore.filter_chars_id _ _ A); apply PyMore.rstrip_id, T.
Qed.

Lemma sanitize_filename_keeps_clean_names_witness :
  sanitize_filename "Kind of Blue Vol. 2_a" = "Kind of Blue Vol. 2_a".
Proof.
  apply sanitize_filename_keeps_clean_names; reflexivity.
Defined.

Lemma sanitized_relative (name : string) :
  Py.startswith (sanitize_filename name) "/" = false.
Proof.
  apply (PyFacts.free_of_slash _ (RipProps.sanitize_no_slash name)).
Qed.

Lemma base_path_under_root (cfg : Config) :
  Py.startswith (base_path cfg) (save_path cfg) = true.
Proof.
  unfold base_path, Py.path_join; cbn [fold_left].
  eapply PyMore.startswith_trans.
  - apply PyMore.path_join2_extends, sanitized_relative.
  - apply PyMore.path_join2_extends, sanitized_relative.
Qed.

Lemma output_path_under_root (cfg : Config) :
  Py.startswith (output_path cfg) (save_path cfg) = true.
Proof.
  unfold output_path.
  destruct (Py.truthy (disc_num cfg)); [|apply base_path_under_root].
  unfold Py.path_join; cbn [fold_left].
  eapply PyMore.startswith_trans; [apply base_path_under_root|].
  apply PyMore.path_join2_extends; reflexivity.
Qed.

(** X10. Whatever the artist, the album, the title, the disc number and
    the track number are, the file of a track and the cover file are named
    by the save location followed by further text: no component taken
    from the metadata is absolute, so none replaces the root. *)
Theorem output_paths_start_with_save_path (cfg : Config) (track : Track)
        (n : Z) :
  Py.startswith (output_filename cfg track n) (save_path cfg) = true
  /\ Py.startswith (Py.path_join (output_path cfg) ["cover.jpg"])
                   (save_path cfg) = true.
Proof.
  split.
  - unfold output_filename, Py.path_join; cbn [fold_left].
    eapply PyMore.startswith_trans; [apply output_path_under_root|].
    apply PyMore.path_join2_extends, PyFacts.format_02d_first.
  - unfold Py.path_join; cbn [fold_left].
    eapply PyMore.startswith_trans; [apply output_path_under_root|].
    apply PyMore.path_join2_extends; reflexivity.
Qed.

(** X11. The job is checked on the text of the artist, the directory is
    named after the sanitized text: an artist that is not empty but
    sanitizes to nothing passes the check, and its level of the directory
    tree disappears (the album directory stands directly under the
    root). *)
Theorem empty_sanitized_artist (cfg : Config) :
  artist cfg <> EmptyString -> album cfg <> EmptyString ->
  tracks cfg <> [] ->
  sanitize_filename (artist cfg) = EmptyString ->
  save_path cfg <> EmptyString ->
  Py.endswith (save_path cfg) "/" = false ->
  App.valid cfg = true
  /\ base_path cfg = save_path cfg ++ "/" ++ sanitize_filename (album cfg).
Proof.
  intros Ha Hb Ht Hs Hr He; split.
  - destruct (App.valid cfg) eqn:V; [reflexivity|].
    apply RipProps.valid_iff in V as [V|[V|V]]; contradiction.
  - unfold base_path, Py.path_join; cbn [fold_left]; rewrite Hs.
    rewrite (PyFacts.path_join2_plain (save_path cfg) EmptyString)
      by (assumption || reflexivity).
    unfold Py.path_join2; rewrite sanitized_relative.
    replace (Py.endswith (save_path cfg ++ "/" ++ "") "/") with true.
    + rewrite orb_true_r, PyFacts.app_assoc; reflexivity.
    + symmetry. change ("/" ++ "") with "/".
      rewrite PyFacts.endswith_app by discriminate; reflexivity.
Qed.

Lemma empty_sanitized_artist_witness :
  base_path (mkConfig "/dev/sr0" "FLAC" "/music" "???" "Album" "" "" ""
                      [mkTrack "1" "One"] None)
  = "/music/Album".
Proof.
  apply (proj2 (empty_sanitized_artist
                  (mkConfig "/dev/sr0" "FLAC" "/music" "???" "Album" "" ""
                            "" [mkTrack "1" "One"] None)
                  ltac:(discriminate) ltac:(discriminate)
                  ltac:(discriminate) eq_refl ltac:(discriminate) eq_refl)).
Defined.

(** *** The encoder command *)

(** X12. There is an encoder command exactly for the formats FLAC, MP3 and
    OGG (in capitals): for them the command starts with the encoder's
    program and names the output file; for any other format it is the
    empty list. *)
Theorem get_encoder_cmd_formats (cfg : Config) (track : Track)
        (cap out : string) :
  (known_format (format cfg) = false ->
   get_encoder_cmd cfg track cap out = [])
  /\ (known_format (format cfg) = true ->
      exists prog args,
        get_encoder_cmd cfg track cap out = prog :: args
        /\ In prog ["flac"; "lame"; "oggenc"]
        /\ In out args).
Proof.
  unfold known_format, get_encoder_cmd, Py.insert.
  destruct (String.eqb (format cfg) "FLAC");
    [|destruct (String.eqb (format cfg) "MP3");
      [|destruct (String.eqb (format cfg) "OGG")]];
    cbn [orb];
    (split; [intros H; try discriminate; reflexivity
            |intros H; try discriminate H]).
  - destruct (Py.truthy (disc_num cfg)), (Py.truthy (disc_total cfg)),
      (Py.truthy cap); cbn [firstn skipn app];
      eexists; eexists; (split; [reflexivity|]); cbn [In]; intuition.
  - destruct (Py.truthy (disc_num cfg) && Py.truthy (disc_total cfg));
      cbn [app]; eexists; eexists; (split; [reflexivity|]); cbn [In];
      intuition.
  - destruct (Py.truthy (disc_num cfg)), (Py.truthy (disc_total cfg));
      cbn [app]; eexists; eexists; (split; [reflexivity|]); cbn [In];
      intuition.
Qed.

Lemma get_encoder_cmd_formats_witness :
  get_encoder_cmd
    (mkConfig "/dev/sr0" "flac" "/music" "A" "B" "" "" "" [] None)
    (mkTrack "1" "T") "" "/music/A/B/01. T.flac" = [].
Proof.
  apply (proj1 (get_encoder_cmd_formats
                  (mkConfig "/dev/sr0" "flac" "/music" "A" "B" "" "" "" []
                            None)
                  (mkTrack "1" "T") "" "/music/A/B/01. T.flac")).
  reflexivity.
Defined.

End RipMore.

Module DrivesProps.
Import Drives.

(** X13. The drives offered are exactly the entries of /dev whose name
    starts with "sr", each as /dev/name, in the order of the listing. *)
Theorem populate_drives_spec (listing : list string) :
  populate_drives listing
  = map (fun d => "/dev/" ++ d)
        (filter (fun d => Py.startswith d "sr") listing)
  /\ (forall p, In p (populate_drives listing) ->
                Py.startswith p "/dev/sr" = true)
  /\ (forall d, In ("/dev/" ++ d) (populate_drives listing)
                <-> In d listing /\ Py.startswith d "sr" = true).
Proof.
  assert (E : populate_drives listing
              = map (fun d => "/dev/" ++ d)
                    (filter (fun d => Py.startswith d "sr") listing)).
  { unfold populate_drives.
    induction listing as [|d l IH]; [reflexivity|]; cbn [filter].
    destruct (Py.startswith d "sr") eqn:S; [|exact IH].
    cbn [map]; rewrite IH; f_equal.
    unfold Py.path_join; cbn [fold_left].
    apply PyFacts.path_join2_plain; try discriminate; try reflexivity.
    apply PyMore.prefix_exists in S as [x ->]; reflexivity. }
  split; [exact E|]; rewrite E; split.
  - intros p H; apply in_map_iff in H as (d & <- & H).
    apply filter_In in H as [_ S].
    apply PyMore.prefix_exists in S as [x ->]; unfold Py.startswith.
    change ("/dev/" ++ "sr" ++ x) with ("/dev/sr" ++ x).
    apply PyMore.prefix_app.
  - intros d; rewrite in_map_iff; split.
    + intros (d' & E' & H); injection E' as ->.
      apply filter_In in H; exact H.
    + intros H; exists d; split; [reflexivity|apply filter_In, H].
Qed.

End DrivesProps.


(** ** More on the rip job: the events of a run *)

Module RipRun.
Import RipWorker RipObs MoreObs RunObs.
Local Open Scope rip_scope.

Lemma launches_app (a b : list Event) :
  launches (a +++ b) = launches a +++ launches b.
Proof.
  induction a as [|e a IH]; [reflexivity|].
  destruct e as [[]| | | | | |]; simpl; rewrite IH; reflexivity.
Qed.

Lemma quiet_app (a b : list Event) : quiet a -> quiet b -> quiet (a +++ b).
Proof.
  unfold quiet; intros Ha Hb; rewrite filter_app, Ha, Hb; reflexivity.
Qed.

Lemma quiet_not_in (d : list Event) (e : Event) :
  quiet d -> terminal e = true -> ~ In e d.
Proof.
  unfold quiet; intros Q T H.
  assert (I : In e (filter terminal d)) by (apply filter_In; auto).
  rewrite Q in I; exact I.
Qed.

(** The run, when [makedirs] fails and when it succeeds. *)
Lemma run_makedirs_fails (cfg : Config) (env : nat -> Outcome) (w : World)
      (e : exn) :
  os_makedirs (output_path cfg) true (fs w) = Raise e ->
  run cfg env w
  = mkWorld (fs w)
            (events w +++ [MakeDirs (output_path cfg);
                           Emit (error (exn_str e))]).
Proof.
  intros H; unfold run, run_body; rewrite RipProps.bind_record.
  rewrite (RipProps.bind_update_fs_raise _ _ (mkWorld (fs w) _) e H).
  unfold emit, record; cbn [snd fs events].
  rewrite <- app_assoc; reflexivity.
Qed.

Lemma run_makedirs_ok (cfg : Config) (env : nat -> Outcome) (w : World)
      (fs1 : FS) :
  os_makedirs (output_path cfg) true (fs w) = Ok fs1 ->
  run cfg env w
  = finish (rip_tracks cfg env (length (tracks cfg)) (cover_path cfg) 0
                       (tracks cfg) (prelude_world cfg w fs1)).
Proof.
  intros H; unfold run, run_body; rewrite RipProps.bind_record.
  rewrite (RipProps.bind_update_fs _ _ (mkWorld (fs w) _) fs1 H).
  cbn [fs events].
  unfold prelude_world, cover_path, cover_events, opt.
  destruct (has_cover cfg).
  - rewrite RipProps.bind_bind, RipProps.bind_record, RipProps.bind_bind.
    rewrite RipProps.bind_save, RipProps.bind_ret; cbn [fs events].
    rewrite <- app_assoc; cbn [app].
    unfold bind, finish, emit, record, ret.
    destruct (rip_tracks _ _ _ _ _ _ _) as [[[|]|e] w2]; reflexivity.
  - rewrite RipProps.bind_ret.
    unfold bind, finish, emit, record, ret.
    destruct (rip_tracks _ _ _ _ _ _ _) as [[[|]|e] w2]; reflexivity.
Qed.

Ltac expose :=
  unfold rip_track, process_writes, emit, int_of, index;
  unfold bind, lift, record, ret, update_fs.

Ltac tidy :=
  cbn [negb fst snd events fs]; rewrite <- ?app_assoc; cbn [app].

(** What one pass of the loop adds to the events. *)
Lemma rip_track_summary cfg env total cap i track w :
  exists d,
    events (snd (rip_track cfg env total cap i track w)) = events w +++ d
    /\ launches d = track_launches cfg cap track
    /\ ends_as (fst (rip_track cfg env total cap i track w)) d.
Proof.
  expose; unfold track_launches.
  destruct (Py.int (number track)) as [n|]; tidy.
  2:{ exists []; rewrite app_nil_r; repeat split. }
  destruct (String.eqb (format cfg) "WAV").
  - destruct (rip_returncode (env i) =? 0); tidy.
    + destruct (progress i total) as [p|e]; tidy;
        (eexists; split; [reflexivity|split; reflexivity]).
    + eexists; split; [reflexivity|split; [reflexivity|]].
      match goal with
      | |- ends_as _ [?a; ?b; ?c; Emit (error ?msg)] =>
          exists [a; b; c], msg; split; reflexivity
      end.
  - destruct (get_encoder_cmd cfg track cap (output_filename cfg track n))
      as [|c0 rest]; cbn [nth_error]; tidy.
    + eexists; split; [reflexivity|split; reflexivity].
    + destruct (enc_returncode (env i) =? 0); tidy.
      * destruct (progress i total) as [p|e]; tidy;
          (eexists; split; [reflexivity|split; reflexivity]).
      * eexists; split; [reflexivity|split; [reflexivity|]].
        match goal with
        | |- ends_as _ [?a; ?b; ?c; ?d; ?e; Emit (error ?msg)] =>
            exists [a; b; c; d; e], msg; split; reflexivity
        end.
Qed.

(** What the loop adds to the events: the launches of a first run of [k]
    tracks, in order. *)
Lemma rip_tracks_summary cfg env total cap (ts : list Track) :
  forall i w,
  exists d k,
    events (snd (rip_tracks cfg env total cap i ts w)) = events w +++ d
    /\ (k <= length ts)%nat
    /\ launches d = flat_map (track_launches cfg cap) (firstn k ts)
    /\ ends_as (fst (rip_tracks cfg env total cap i ts w)) d
    /\ (fst (rip_tracks cfg env total cap i ts w) = Ok true ->
        k = length ts).
Proof.
  induction ts as [|t ts IH]; intros i w; cbn [rip_tracks].
  - exists [], 0%nat; rewrite app_nil_r; repeat split; auto.
  - unfold bind.
    destruct (rip_track_summary cfg env total cap i t w) as (d & E & L & T).
    destruct (rip_track cfg env total cap i t w) as [[[|]|e] w1];
      cbn [fst snd] in *.
    + destruct (IH (S i) w1) as (d2 & k & E2 & Hk & L2 & T2 & C).
      exists (d +++ d2), (S k).
      rewrite E2, E, <- app_assoc, launches_app, L, L2.
      cbn [firstn flat_map length].
      split; [reflexivity|]. split; [lia|]. split; [reflexivity|]. split.
      * destruct (fst (rip_tracks cfg env total cap (S i) ts w1))
          as [[|]|e2]; cbn [ends_as] in *.
        -- apply quiet_app; assumption.
        -- destruct T2 as (d' & m & -> & Q).
           exists (d +++ d'), m; rewrite <- app_assoc.
           split; [reflexivity|apply quiet_app; assumption].
        -- apply quiet_app; assumption.
      * intros H; rewrite (C H); reflexivity.
    + exists d, 1%nat; unfold ret; cbn [fst snd firstn flat_map length].
      rewrite app_nil_r.
      repeat split; auto; try lia; discriminate.
    + exists d, 1%nat; cbn [fst snd firstn flat_map length].
      rewrite app_nil_r.
      repeat split; auto; try lia; discriminate.
Qed.


Lemma cover_events_quiet (cfg : Config) :
  quiet (MakeDirs (output_path cfg) :: cover_events cfg)
  /\ launches (MakeDirs (output_path cfg) :: cover_events cfg) = [].
Proof.
  unfold cover_events, opt, quiet; destruct (has_cover cfg); split;
    reflexivity.
Qed.

Lemma launches_snoc_emit (d : list Event) (s : Signal) :
  launches (d +++ [Emit s]) = launches d.
Proof. rewrite launches_app; cbn [launches]; apply app_nil_r. Qed.

Lemma launches_prelude (cfg : Config) (d : list Event) :
  launches (MakeDirs (output_path cfg) :: cover_events cfg +++ d)
  = launches d.
Proof.
  cbn [launches]; rewrite launches_app.
  unfold cover_events, opt; destruct (has_cover cfg); reflexivity.
Qed.

(** The whole run, from a world without events. *)
Lemma run_summary (cfg : Config) (env : nat -> Outcome) (fs0 : FS) :
  exists d t k,
    events (run cfg env (mkWorld fs0 [])) = d +++ [t]
    /\ quiet d /\ terminal t = true
    /\ (k <= length (tracks cfg))%nat
    /\ launches d
       = flat_map (track_launches cfg (cover_path cfg))
                  (firstn k (tracks cfg))
    /\ (t = Emit finished -> k = length (tracks cfg)).
Proof.
  destruct (os_makedirs (output_path cfg) true fs0) as [fs1|e] eqn:Hmk.
  - rewrite (run_makedirs_ok cfg env (mkWorld fs0 []) fs1 Hmk).
    destruct (rip_tracks_summary cfg env (length (tracks cfg))
                (cover_path cfg) (tracks cfg) 0
                (prelude_world cfg (mkWorld fs0 []) fs1))
      as (d0 & k & E & Hk & L & T & C).
    destruct (cover_events_quiet cfg) as [Qp Lp].
    destruct (rip_tracks _ _ _ _ _ _ _) as [[[|]|e] w2];
      cbn [fst snd finish events ends_as] in *;
      cbn [prelude_world events app] in E.
    + exists (MakeDirs (output_path cfg) :: cover_events cfg +++ d0),
        (Emit finished), k.
      rewrite E; split; [reflexivity|].
      split; [apply (quiet_app (_ :: _)); assumption|].
      split; [reflexivity|]. split; [exact Hk|]. split.
      * rewrite launches_prelude; exact L.
      * intros _; apply C; reflexivity.
    + destruct T as (d' & m & -> & Q).
      exists (MakeDirs (output_path cfg) :: cover_events cfg +++ d'),
        (Emit (error m)), k.
      rewrite E; split; [cbn [app]; rewrite <- app_assoc; reflexivity|].
      split; [apply (quiet_app (_ :: _)); assumption|].
      split; [reflexivity|]. split; [exact Hk|]. split.
      * rewrite launches_prelude.
        rewrite launches_snoc_emit in L; exact L.
      * discriminate.
    + exists (MakeDirs (output_path cfg) :: cover_events cfg +++ d0),
        (Emit (error (exn_str e))), k.
      rewrite E; split; [reflexivity|].
      split; [apply (quiet_app (_ :: _)); assumption|].
      split; [reflexivity|]. split; [exact Hk|]. split.
      * rewrite launches_prelude; exact L.
      * discriminate.
  - rewrite (run_makedirs_fails cfg env (mkWorld fs0 []) e Hmk).
    exists [MakeDirs (output_path cfg)], (Emit (error (exn_str e))), 0%nat.
    cbn [events fs app firstn flat_map launches].
    repeat split; try reflexivity; try lia; discriminate.
Qed.

(** X14. Every run of the rip job ends with exactly one terminal event,
    [finished] or one [error], and this event is the last one: nothing is
    launched, written or reported after it, and the job never reports
    both an error and its end. *)
Theorem rip_run_one_terminal (cfg : Config) (env : nat -> Outcome)
        (fs0 : FS) :
  exists d t,
    events (run cfg env (mkWorld fs0 [])) = d +++ [t]
    /\ filter terminal d = [] /\ terminal t = true.
Proof.
  destruct (run_summary cfg env fs0) as (d & t & k & E & Q & T & _).
  exists d, t; auto.
Qed.

(** X15. The tracks are attempted in the order of the list, each at most
    once: the programs launched by a run are those of a first run of [k]
    tracks of the list, track by track, and when the job finishes every
    track was attempted.  A track whose number is no integer launches
    nothing. *)
Theorem tracks_attempted_in_order (cfg : Config) (env : nat -> Outcome)
        (fs0 : FS) :
  let evs := events (run cfg env (mkWorld fs0 [])) in
  exists k,
    (k <= length (tracks cfg))%nat
    /\ launches evs
       = flat_map (track_launches cfg (cover_path cfg))
                  (firstn k (tracks cfg))
    /\ (In (Emit finished) evs -> k = length (tracks cfg)).
Proof.
  destruct (run_summary cfg env fs0) as (d & t & k & E & Q & T & Hk & L & C).
  cbv zeta; rewrite E; exists k; split; [exact Hk|]. split.
  - rewrite launches_app, L.
    destruct t as [[]| | | | | |]; try discriminate; apply app_nil_r.
  - intros H; apply in_app_or in H as [H|[H|[]]].
    + exfalso; exact (quiet_not_in d (Emit finished) Q eq_refl H).
    + apply C; auto.
Qed.

End RipRun.


(** ** More on the rip job: failures and files *)

Module RipFiles.
Import RipWorker RipObs MoreObs RunObs FilesObs RipRun.
Local Open Scope rip_scope.

Lemma fs_extends_refl (f : FS) : fs_extends f f.
Proof. split; auto. Qed.

Lemma fs_extends_trans (a b c : FS) :
  fs_extends a b -> fs_extends b c -> fs_extends a c.
Proof. intros [A1 A2] [B1 B2]; split; auto. Qed.

Lemma write_file_there (q : string) (f : FS) :
  exists_in q (files (write_file q f)) = true.
Proof.
  unfold write_file; destruct (exists_in q (files f)) eqn:E; [exact E|].
  unfold exists_in; cbn [files existsb]; rewrite String.eqb_refl.
  reflexivity.
Qed.

Lemma write_file_extends (q : string) (f : FS) :
  fs_extends f (write_file q f).
Proof.
  unfold write_file; destruct (exists_in q (files f)); split; auto.
  intros p H; unfold exists_in in *; cbn [files existsb].
  rewrite H; apply orb_true_r.
Qed.

Lemma save_extends (q : string) (f : FS) :
  fs_extends f (snd (save_pixmap q f)).
Proof.
  unfold save_pixmap; destruct (_ || _); cbn [snd];
    [apply fs_extends_refl|apply write_file_extends].
Qed.



(** When [makedirs] returns, the directory is there and nothing else has
    gone. *)
Lemma makedirs_extends (path : string) (f f1 : FS) :
  os_makedirs path true f = Ok f1 ->
  fs_extends f f1 /\ exists_in path (dirs f1) = true.
Proof.
  unfold os_makedirs.
  destruct (exists_in path (dirs f)) eqn:D.
  - intros [= <-]; split; [apply fs_extends_refl|exact D].
  - destruct (_ || _); [discriminate|intros [= <-]].
    split.
    + split; auto.
      intros p H; unfold exists_in in *; cbn [dirs existsb].
      rewrite H; apply orb_true_r.
    + unfold exists_in; cbn [dirs existsb]; rewrite String.eqb_refl.
      reflexivity.
Qed.



(** One pass of the loop removes nothing, and a track that goes through
    has its file. *)
Lemma rip_track_files cfg env total cap i track w :
  fs_extends (fs w) (fs (snd (rip_track cfg env total cap i track w)))
  /\ (fst (rip_track cfg env total cap i track w) = Ok true ->
      on_disk cfg (fs (snd (rip_track cfg env total cap i track w))) track).
Proof.
  unfold on_disk; expose.
  destruct (Py.int (number track)) as [n|]; tidy;
    [|split; [apply fs_extends_refl|discriminate]].
  destruct (String.eqb (format cfg) "WAV").
  - destruct (rip_returncode (env i) =? 0); tidy;
      [|split; [apply fs_extends_refl|discriminate]].
    destruct (progress i total) as [p|e]; tidy;
      (split; [apply write_file_extends|]); [|discriminate].
    intros _; exists n; split; [reflexivity|apply write_file_there].
  - destruct (nth_error _ 0); tidy;
      [|split; [apply fs_extends_refl|discriminate]].
    destruct (enc_returncode (env i) =? 0); tidy;
      [|split; [apply fs_extends_refl|discriminate]].
    destruct (progress i total) as [p|e]; tidy;
      (split; [apply write_file_extends|]); [|discriminate].
    intros _; exists n; split; [reflexivity|apply write_file_there].
Qed.




Lemma finish_fs (r : result bool * World) : fs (finish r) = fs (snd r).
Proof. destruct r as [[[|]|e] w]; reflexivity. Qed.

Lemma on_disk_extends cfg (f f' : FS) (track : Track) :
  fs_extends f f' -> on_disk cfg f track -> on_disk cfg f' track.
Proof.
  intros [F _] (n & I & H); exists n; split; [exact I|apply F, H].
Qed.

Lemma rip_tracks_files cfg env total cap (ts : list Track) :
  forall i w,
    fs_extends (fs w) (fs (snd (rip_tracks cfg env total cap i ts w)))
    /\ (fst (rip_tracks cfg env total cap i ts w) = Ok true ->
        Forall (on_disk cfg
                  (fs (snd (rip_tracks cfg env total cap i ts w)))) ts).
Proof.
  induction ts as [|t ts IH]; intros i w; cbn [rip_tracks].
  - split; [apply fs_extends_refl|constructor].
  - unfold bind.
    destruct (rip_track_files cfg env total cap i t w) as [X D].
    destruct (rip_track cfg env total cap i t w) as [[[|]|e] w1];
      cbn [fst snd] in *.
    + destruct (IH (S i) w1) as [Hx2 D2].
      split; [exact (fs_extends_trans _ _ _ X Hx2)|].
      intros H; constructor; [|apply D2, H].
      apply (on_disk_extends cfg (fs w1)); [exact Hx2|apply D; reflexivity].
    + split; [exact X|discriminate].
    + split; [exact X|discriminate].
Qed.

Lemma cover_events_no_finished (cfg : Config) :
  ~ In (Emit finished) (MakeDirs (output_path cfg) :: cover_events cfg).
Proof.
  unfold cover_events, opt; destruct (has_cover cfg);
    intros H; cbn [In] in H; intuition discriminate.
Qed.

Lemma ends_as_no_finished (r : result bool) (d : list Event) :
  ends_as r d -> ~ In (Emit finished) d.
Proof.
  assert (Q : forall x, quiet x -> ~ In (Emit finished) x)
    by (intros x H; exact (quiet_not_in x (Emit finished) H eq_refl)).
  destruct r as [[|]|e]; cbn [ends_as]; auto.
  intros (d' & m & -> & H) I.
  apply in_app_or in I as [I|[I|[]]]; [exact (Q _ H I)|discriminate].
Qed.

(** The job finishes only when the directory was made and the loop went
    through all the tracks. *)
Lemma run_finished (cfg : Config) (env : nat -> Outcome) (fs0 : FS) :
  In (Emit finished) (events (run cfg env (mkWorld fs0 []))) ->
  exists fs1,
    os_makedirs (output_path cfg) true fs0 = Ok fs1
    /\ fst (rip_tracks cfg env (length (tracks cfg)) (cover_path cfg) 0
                       (tracks cfg)
                       (prelude_world cfg (mkWorld fs0 []) fs1))
       = Ok true.
Proof.
  destruct (os_makedirs (output_path cfg) true fs0) as [fs1|e] eqn:Hmk.
  - rewrite (run_makedirs_ok cfg env (mkWorld fs0 []) fs1 Hmk).
    intros H; exists fs1; split; [reflexivity|].
    destruct (rip_tracks_summary cfg env (length (tracks cfg))
                (cover_path cfg) (tracks cfg) 0
                (prelude_world cfg (mkWorld fs0 []) fs1))
      as (d & k & E & _ & _ & T & _).
    apply ends_as_no_finished in T.
    destruct (rip_tracks _ _ _ _ _ _ _) as [[[|]|e] w2];
      cbn [fst snd finish events] in *; [reflexivity| |];
      exfalso; rewrite E in H; cbn [prelude_world events] in H;
      repeat (apply in_app_or in H; destruct H as [H|H]);
      try contradiction;
      try (exact (cover_events_no_finished cfg H));
      destruct H as [H|[]]; discriminate.
  - rewrite (run_makedirs_fails cfg env (mkWorld fs0 []) e Hmk).
    cbn [fs events app]; intros [H|[H|[]]]; discriminate.
Qed.

(** X16. When the job finishes, the output directory is there, and
    every track has an integer as its number and its output file is
    there (a process that exits with status 0 is taken to have written
    its output file). *)
Theorem finished_job_files (cfg : Config) (env : nat -> Outcome)
        (fs0 : FS) :
  let w' := run cfg env (mkWorld fs0 []) in
  In (Emit finished) (events w') ->
  exists_in (output_path cfg) (dirs (fs w')) = true
  /\ Forall (on_disk cfg (fs w')) (tracks cfg).
Proof.
  cbv zeta; intros H.
  destruct (run_finished cfg env fs0 H) as (fs1 & Hmk & R).
  rewrite (run_makedirs_ok cfg env (mkWorld fs0 []) fs1 Hmk).
  destruct (makedirs_extends _ _ _ Hmk) as [_ D1].
  set (w1 := prelude_world cfg (mkWorld fs0 []) fs1) in *.
  assert (Hx2 : fs_extends fs1 (fs w1)).
  { unfold w1, prelude_world; cbn [fs].
    destruct (has_cover cfg); [apply save_extends|apply fs_extends_refl]. }
  destruct (rip_tracks_files cfg env (length (tracks cfg))
              (cover_path cfg) (tracks cfg) 0 w1) as [Hx3 D3].
  rewrite finish_fs.
  split; [apply Hx3, Hx2, D1|apply D3, R].
Qed.

Lemma finished_job_files_witness :
  Forall (on_disk mp3_job (fs (run mp3_job all_succeed empty_world)))
         (tracks mp3_job).
Proof.
  apply (finished_job_files mp3_job all_succeed (mkFS [] [] willing)).
  vm_compute; repeat (first [left; reflexivity | right]).
Defined.

End RipFiles.


(** ** The check of the job and the preparation of the output directory *)

Module JobProps.
Import RipWorker RipObs MoreObs RunObs FilesObs RipRun RipFiles.
Local Open Scope rip_scope.




End JobProps.


(** ** More on the rip job: the track that stops it *)

Module RipStop.
Import RipWorker RipObs MoreObs RunObs FilesObs StopObs RipRun.
Local Open Scope rip_scope.

Lemma encoder_available (cfg : Config) (track : Track) (cap out : string) :
  offered_format (format cfg) = true ->
  String.eqb (format cfg) "WAV" = false ->
  exists prog args, get_encoder_cmd cfg track cap out = prog :: args.
Proof.
  unfold offered_format, known_format; intros H W; rewrite W in H.
  cbn [orb] in H; unfold get_encoder_cmd, Py.insert.
  destruct (String.eqb (format cfg) "FLAC");
    [|destruct (String.eqb (format cfg) "MP3");
      [|destruct (String.eqb (format cfg) "OGG")]];
    cbn [orb] in H; try discriminate H.
  - destruct (Py.truthy (disc_num cfg)), (Py.truthy (disc_total cfg)),
      (Py.truthy cap); cbn [firstn skipn app]; eauto.
  - destruct (Py.truthy (disc_num cfg) && Py.truthy (disc_total cfg));
      cbn [app]; eauto.
  - destruct (Py.truthy (disc_num cfg)), (Py.truthy (disc_total cfg));
      cbn [app]; eauto.
Qed.

Lemma rip_track_bad_number cfg env total cap i track w :
  Py.int (number track) = None ->
  rip_track cfg env total cap i track w
  = (Raise (ValueError (number track)), w).
Proof. intros H; expose; rewrite H; reflexivity. Qed.

Lemma rip_track_success cfg env total cap i track w n p :
  offered_format (format cfg) = true ->
  Py.int (number track) = Some n ->
  progress i total = Ok p ->
  succeeded cfg env i = true ->
  fst (rip_track cfg env total cap i track w) = Ok true.
Proof.
  intros F I P S; unfold succeeded in S.
  destruct (String.eqb (format cfg) "WAV") eqn:W.
  - expose; rewrite I, W, S, P; reflexivity.
  - destruct (encoder_available cfg track cap (output_filename cfg track n)
                F W) as (prog & args & E).
    expose; rewrite I, W, E, S, P; reflexivity.
Qed.

Lemma rip_track_failure cfg env total cap i track w n :
  offered_format (format cfg) = true ->
  Py.int (number track) = Some n ->
  succeeded cfg env i = false ->
  fst (rip_track cfg env total cap i track w) = Ok false
  /\ exists d',
      events (snd (rip_track cfg env total cap i track w))
      = events w +++ d' +++ [Emit (error (failure_message cfg env i n))].
Proof.
  intros F I S; unfold succeeded in S; unfold failure_message.
  destruct (String.eqb (format cfg) "WAV") eqn:W.
  - expose; rewrite I, W, S; tidy.
    split; [reflexivity|].
    match goal with
    | |- context [events w +++ [?a; ?b; ?c; ?e]] =>
        exists [a; b; c]; reflexivity
    end.
  - destruct (encoder_available cfg track cap (output_filename cfg track n)
                F W) as (prog & args & E).
    expose; rewrite I, W, E, S; tidy.
    split; [reflexivity|].
    match goal with
    | |- context [events w +++ [?a; ?b; ?c; ?d; ?e; ?f]] =>
        exists [a; b; c; d; e]; reflexivity
    end.
Qed.


Lemma app_same_head {A} (l x : list A) : l +++ x = l -> x = [].
Proof.
  intros H; apply (app_inv_head l); rewrite app_nil_r; exact H.
Qed.

Lemma not_fails (cfg : Config) (env : nat -> Outcome) (i : nat)
      (t : Track) :
  track_fails cfg env i t = false ->
  exists n, Py.int (number t) = Some n /\ succeeded cfg env i = true.
Proof.
  unfold track_fails; destruct (Py.int (number t)) as [n|];
    [|discriminate].
  intros H; apply negb_false_iff in H; eauto.
Qed.

(** The loop and the end of the run, when the track at position [j] of
    the rest of the list is the first one that fails. *)
Lemma rip_tracks_stop_at cfg env total cap :
  (total <= 99)%nat -> offered_format (format cfg) = true ->
  forall ts i w j track,
    (i + length ts <= total)%nat ->
    nth_error ts j = Some track ->
    track_fails cfg env (i + j) track = true ->
    (forall j' t, (j' < j)%nat -> nth_error ts j' = Some t ->
                  track_fails cfg env (i + j') t = false) ->
    exists d',
      events (finish (rip_tracks cfg env total cap i ts w))
      = events w +++ d'
        +++ [Emit (error (stop_message cfg env (i + j) track))]
      /\ launches d' = flat_map (track_launches cfg cap) (firstn (S j) ts)
      /\ progress_values d'
         = map (fun k => reported (Z.of_nat k + 1) (Z.of_nat total))
               (seq i j).
Proof.
  intros HN F ts; induction ts as [|t ts IH];
    intros i w j track Hlen Hnth Hfail Hbefore; [destruct j; discriminate|].
  cbn [rip_tracks]; unfold bind.
  destruct (rip_track_summary cfg env total cap i t w) as (d1 & E1 & L1 & _).
  destruct j as [|j].
  - cbn [nth_error] in Hnth; injection Hnth as ->.
    rewrite Nat.add_0_r in *.
    unfold track_fails in Hfail; unfold stop_message.
    destruct (Py.int (number track)) as [n|] eqn:I.
    + apply negb_true_iff in Hfail.
      destruct (rip_track_failure cfg env total cap i track w n F I Hfail)
        as (R & d' & E).
      destruct (RipProps.rip_track_progress cfg env total cap i track w)
        as [(R' & _)|(_ & P)]; [congruence|].
      destruct (rip_track cfg env total cap i track w) as [r w1];
        cbn [fst snd] in *; subst r; unfold ret; cbn [finish].
      exists d'; split; [exact E|].
      rewrite E in E1; apply app_inv_head in E1; subst d1.
      rewrite launches_snoc_emit in L1.
      cbn [firstn flat_map]; rewrite app_nil_r; split; [exact L1|].
      rewrite E, !RipProps.progress_values_app in P.
      cbn [progress_values] in P; rewrite app_nil_r in P.
      apply app_same_head in P; rewrite P; reflexivity.
    + rewrite (rip_track_bad_number cfg env total cap i track w I).
      cbn [finish fs events]; exists []; split; [reflexivity|].
      cbn [firstn flat_map]; unfold track_launches; rewrite I.
      split; reflexivity.
  - cbn [nth_error] in Hnth.
    destruct (not_fails cfg env i t) as (n0 & I0 & S0).
    { rewrite <- (Nat.add_0_r i); apply (Hbefore 0%nat); [lia|reflexivity]. }
    assert (P0 : progress i total
                 = Ok (reported (Z.of_nat i + 1) (Z.of_nat total))).
    { cbn [length] in Hlen.
      apply (RipProps.report_facts total i ltac:(lia) ltac:(lia)). }
    pose proof (rip_track_success cfg env total cap i t w n0 _ F I0 P0 S0)
      as R.
    destruct (RipProps.rip_track_progress cfg env total cap i t w)
      as [(_ & p' & Hp' & P)|(R' & _)]; [|congruence].
    rewrite P0 in Hp'; injection Hp' as <-.
    destruct (rip_track cfg env total cap i t w) as [r w1];
      cbn [fst snd] in *; subst r.
    destruct (IH (S i) w1 j track) as (d2 & E2 & L2 & V2).
    + cbn [length] in Hlen; lia.
    + exact Hnth.
    + rewrite Nat.add_succ_comm; exact Hfail.
    + intros j' t' Hj Ht; rewrite Nat.add_succ_comm.
      apply Hbefore; [lia|exact Ht].
    + exists (d1 +++ d2); rewrite E2, E1, <- !app_assoc.
      rewrite Nat.add_succ_comm.
      split; [reflexivity|].
      rewrite launches_app, L1, L2, RipProps.progress_values_app.
      split; [reflexivity|].
      rewrite E1, RipProps.progress_values_app in P.
      apply app_inv_head in P; rewrite P, V2; reflexivity.
Qed.

Lemma progress_values_prelude (cfg : Config) (d : list Event) :
  progress_values (MakeDirs (output_path cfg) :: cover_events cfg +++ d)
  = progress_values d.
Proof.
  cbn [progress_values]; rewrite RipProps.progress_values_app.
  unfold cover_events, opt; destruct (has_cover cfg); reflexivity.
Qed.

Lemma quiet_no_errors (d : list Event) : quiet d -> error_messages d = [].
Proof.
  unfold quiet; induction d as [|e d IH]; [reflexivity|].
  destruct e as [[]| | | | | |]; cbn [filter terminal error_messages];
    try exact IH; discriminate.
Qed.

(** X17. The first track that fails stops the job.  With a directory
    that can be made, at most 99 tracks and one of the formats the form
    offers: when the track at position [i] is the first one whose number
    is no integer or whose process (the extractor in the direct path, the
    encoder in the piped path) exits with a status other than 0, the run
    ends with the error of this track (the error of [int], or the
    failure text with the captured error output of the process), it is
    the only error, the tracks before it were processed and a progress
    value was reported after each of them (the floor of 100 j / N after
    track [j] of [N], but 57 after track 29 of 50), the track itself was
    attempted once, and no later track is attempted. *)
Theorem first_failing_track_stops_job (cfg : Config)
        (env : nat -> Outcome) (fs0 fs1 : FS) (i : nat) (track : Track) :
  os_makedirs (output_path cfg) true fs0 = Ok fs1 ->
  (length (tracks cfg) <= 99)%nat ->
  offered_format (format cfg) = true ->
  nth_error (tracks cfg) i = Some track ->
  track_fails cfg env i track = true ->
  (forall j t, (j < i)%nat -> nth_error (tracks cfg) j = Some t ->
               track_fails cfg env j t = false) ->
  let evs := events (run cfg env (mkWorld fs0 [])) in
  last evs (Emit finished) = Emit (error (stop_message cfg env i track))
  /\ error_messages evs = [stop_message cfg env i track]
  /\ launches evs
     = flat_map (track_launches cfg (cover_path cfg))
                (firstn (S i) (tracks cfg))
  /\ progress_values evs
     = map (fun j => reported (Z.of_nat j + 1)
                              (Z.of_nat (length (tracks cfg))))
           (seq 0 i).
Proof.
  intros Hmk HN F Hnth Hfail Hbefore evs.
  destruct (rip_tracks_stop_at cfg env (length (tracks cfg))
              (cover_path cfg) HN F (tracks cfg) 0
              (prelude_world cfg (mkWorld fs0 []) fs1) i track
              ltac:(cbn; lia) Hnth Hfail Hbefore) as (d' & E & L & V).
  cbn [Nat.add] in E.
  destruct (run_summary cfg env fs0) as (d & t & k & E' & Q & T & _).
  fold evs in E'.
  assert (Ev : evs = (MakeDirs (output_path cfg) :: cover_events cfg +++ d')
                     +++ [Emit (error (stop_message cfg env i track))]).
  { unfold evs.
    rewrite (run_makedirs_ok cfg env (mkWorld fs0 []) fs1 Hmk), E.
    cbn [prelude_world events app]; rewrite <- app_assoc; reflexivity. }
  rewrite Ev in E'; apply app_inj_tail in E' as [<- <-].
  rewrite Ev; split; [apply last_last|]. split.
  - rewrite RipProps.error_messages_app, (quiet_no_errors _ Q).
    reflexivity.
  - split.
    + rewrite launches_snoc_emit, launches_prelude; exact L.
    + rewrite RipProps.progress_values_app, progress_values_prelude.
      cbn [progress_values]; rewrite app_nil_r; exact V.
Qed.

Lemma first_failing_track_stops_job_witness :
  error_messages (events (run wav_job extractor_fails empty_world))
  = ["cdparanoia failed for track 1: cdparanoia: unable to read audio"].
Proof.
  apply (first_failing_track_stops_job
           wav_job extractor_fails (mkFS [] [] willing)
           (mkFS ["/music/Artist/Album"] [] willing) 0 (mkTrack "1" "One")
           eq_refl ltac:(simpl; lia) eq_refl eq_refl eq_refl).
  intros j t H; lia.
Defined.

Lemma rip_track_fails cfg env total cap i track w :
  offered_format (format cfg) = true ->
  track_fails cfg env i track = true ->
  fst (rip_track cfg env total cap i track w) <> Ok true.
Proof.
  intros F H; unfold track_fails in H.
  destruct (Py.int (number track)) as [n|] eqn:I.
  - apply negb_true_iff in H.
    destruct (rip_track_failure cfg env total cap i track w n F I H)
      as [R _]; rewrite R; discriminate.
  - rewrite (rip_track_bad_number cfg env total cap i track w I).
    discriminate.
Qed.

(** The loop goes through exactly when no track fails. *)
Lemma rip_tracks_ok_iff cfg env total cap :
  (total <= 99)%nat -> offered_format (format cfg) = true ->
  forall ts i w,
    (i + length ts <= total)%nat ->
    (fst (rip_tracks cfg env total cap i ts w) = Ok true
     <-> forall j t, nth_error ts j = Some t ->
                     track_fails cfg env (i + j) t = false).
Proof.
  intros HN F ts; induction ts as [|t ts IH]; intros i w Hlen.
  - split; [intros _ [|j] t' H; discriminate|reflexivity].
  - cbn [length] in Hlen; cbn [rip_tracks]; unfold bind.
    destruct (track_fails cfg env i t) eqn:Ft.
    + pose proof (rip_track_fails cfg env total cap i t w F Ft) as R.
      split.
      * intros H; exfalso; apply R.
        destruct (rip_track cfg env total cap i t w) as [[[|]|e] w1];
          cbn [fst] in *; [reflexivity|discriminate|discriminate].
      * intros H; specialize (H 0%nat t eq_refl).
        rewrite Nat.add_0_r in H; congruence.
    + destruct (not_fails cfg env i t Ft) as (n0 & I0 & S0).
      destruct (RipProps.report_facts total i ltac:(lia) ltac:(lia))
        as (P0 & _).
      pose proof (rip_track_success cfg env total cap i t w n0 _ F I0 P0 S0)
        as R.
      destruct (rip_track cfg env total cap i t w) as [r w1];
        cbn [fst] in R; subst r.
      rewrite (IH (S i) w1) by lia.
      split.
      * intros H [|j] t' Ht.
        -- injection Ht as <-; rewrite Nat.add_0_r; exact Ft.
        -- rewrite <- Nat.add_succ_comm; apply H; exact Ht.
      * intros H j t' Ht; rewrite Nat.add_succ_comm.
        apply H; exact Ht.
Qed.

Lemma finish_ok_true (r : result bool * World) :
  fst r = Ok true -> In (Emit finished) (events (finish r)).
Proof.
  destruct r as [[[|]|e] w]; cbn [fst]; intros H; try discriminate.
  cbn [finish events]; apply in_or_app; right; left; reflexivity.
Qed.

(** X18. The job finishes exactly when no track fails.  With a
    directory that can be made, at most 99 tracks and one of the formats
    the form offers, the run reports [finished] if and only if every
    track has an integer as its number and the process the loop looks at
    exits with status 0 for it; in this case it reports no error, and a
    progress value after every track (the floor of 100 j / N after track
    [j] of [N], but 57 after track 29 of 50). *)
Theorem job_finishes_iff_no_track_fails (cfg : Config)
        (env : nat -> Outcome) (fs0 fs1 : FS) :
  os_makedirs (output_path cfg) true fs0 = Ok fs1 ->
  (length (tracks cfg) <= 99)%nat ->
  offered_format (format cfg) = true ->
  let evs := events (run cfg env (mkWorld fs0 [])) in
  (In (Emit finished) evs
   <-> forall j t, nth_error (tracks cfg) j = Some t ->
                   track_fails cfg env j t = false)
  /\ (In (Emit finished) evs ->
      error_messages evs = []
      /\ progress_values evs
         = map (fun j => reported (Z.of_nat j + 1)
                                  (Z.of_nat (length (tracks cfg))))
               (seq 0 (length (tracks cfg)))).
Proof.
  intros Hmk HN F evs.
  pose proof (rip_tracks_ok_iff cfg env (length (tracks cfg))
                (cover_path cfg) HN F (tracks cfg) 0
                (prelude_world cfg (mkWorld fs0 []) fs1)
                ltac:(cbn; lia)) as I.
  cbn [Nat.add] in I.
  assert (Fin : In (Emit finished) evs ->
                fst (rip_tracks cfg env (length (tracks cfg))
                       (cover_path cfg) 0 (tracks cfg)
                       (prelude_world cfg (mkWorld fs0 []) fs1))
                = Ok true).
  { intros H; destruct (RipFiles.run_finished cfg env fs0 H)
      as (fs1' & Hmk' & R).
    rewrite Hmk in Hmk'; injection Hmk' as <-; exact R. }
  split; [split|].
  - intros H; apply I, Fin, H.
  - intros H; apply I in H; unfold evs.
    rewrite (run_makedirs_ok cfg env (mkWorld fs0 []) fs1 Hmk).
    apply finish_ok_true, H.
  - intros H; pose proof (Fin H) as R.
    destruct (rip_tracks_summary cfg env (length (tracks cfg))
                (cover_path cfg) (tracks cfg) 0
                (prelude_world cfg (mkWorld fs0 []) fs1))
      as (d & k & E & _ & _ & T & _).
    destruct (RipProps.rip_tracks_progress cfg env (length (tracks cfg))
                (cover_path cfg) (tracks cfg) 0
                (prelude_world cfg (mkWorld fs0 []) fs1))
      as (k' & vals & _ & V & F2 & C).
    apply C in R as Hk; subst k'.
    assert (V' : vals
                 = map (fun j => reported (Z.of_nat j + 1)
                                          (Z.of_nat (length (tracks cfg))))
                       (seq 0 (length (tracks cfg)))).
    { apply RipProps.Forall2_map with (1 := F2).
      intros j p Hj Hp; apply in_seq in Hj.
      destruct (RipProps.report_facts (length (tracks cfg)) j
                  ltac:(lia) ltac:(lia)) as (P & _).
      cbv beta zeta in Hp, P; rewrite P in Hp.
      injection Hp as <-; reflexivity. }
    assert (R' := proj1 C eq_refl).
    unfold evs; rewrite (run_makedirs_ok cfg env (mkWorld fs0 []) fs1 Hmk).
    destruct (rip_tracks _ _ _ _ _ _ _) as [r w2];
      cbn [fst snd] in *; subst r; cbn [finish events ends_as] in *.
    rewrite RipProps.error_messages_app, RipProps.progress_values_app.
    cbn [error_messages progress_values]; rewrite !app_nil_r.
    rewrite V, E; cbn [prelude_world events].
    rewrite RipProps.error_messages_app.
    change (MakeDirs (output_path cfg) :: cover_events cfg)
      with ([MakeDirs (output_path cfg)] +++ cover_events cfg).
    rewrite !RipProps.error_messages_app, !RipProps.progress_values_app.
    destruct (cover_events_quiet cfg) as [Qp _].
    rewrite (quiet_no_errors _ T).
    split.
    + unfold cover_events, opt; destruct (has_cover cfg); reflexivity.
    + rewrite <- V'.
      unfold cover_events, opt; destruct (has_cover cfg); reflexivity.
Qed.

Lemma job_finishes_iff_no_track_fails_witness :
  In (Emit finished) (events (run wav_job all_succeed empty_world))
  <-> forall j t, nth_error (tracks wav_job) j = Some t ->
                  track_fails wav_job all_succeed j t = false.
Proof.
  apply (job_finishes_iff_no_track_fails
           wav_job all_succeed (mkFS [] [] willing)
           (mkFS ["/music/Artist/Album"] [] willing)
           eq_refl ltac:(simpl; lia) eq_refl).
Defined.

End RipStop.


(** ** The parse of a report *)

Module ReportProps.
Import Py MoreObs Report LookupWorker.

Lemma split_from_app_token (a : string) :
  forall tok r,
    all_chars not_space a = true ->
    split_from tok (a ++ r) = split_from (tok ++ a) r.
Proof.
  induction a as [|c a IH]; intros tok r H; simpl.
  - rewrite PyFacts.app_empty_r; reflexivity.
  - simpl in H; apply andb_true_iff in H as [Hc Ha].
    apply negb_true_iff in Hc; rewrite Hc, (IH _ _ Ha).
    rewrite PyFacts.app_assoc; reflexivity.
Qed.

(** Fields joined by one space are split into the same fields. *)
Lemma split_join (toks : list string) :
  forallb token toks = true -> split (join " " toks) = toks.
Proof.
  unfold split; induction toks as [|x toks IH]; [reflexivity|].
  cbn [forallb]; intros H; apply andb_true_iff in H as [Hx Ht].
  unfold token in Hx; apply andb_true_iff in Hx as [Hn Hs].
  destruct toks as [|y toks].
  - cbn [join]; rewrite <- (PyFacts.app_empty_r x) at 1.
    rewrite (split_from_app_token x EmptyString EmptyString Hs).
    simpl; destruct x; [discriminate|reflexivity].
  - rewrite PyFacts.join_cons, (split_from_app_token x _ _ Hs).
    simpl; destruct x as [|c x]; [discriminate|]; simpl.
    f_equal; apply IH, Ht.
Qed.

Lemma str_token (n : Z) : token (str n) = true.
Proof.
  unfold token; rewrite LookupMore.str_not_space, andb_true_r.
  pose proof (PyFacts.str_nonempty n); destruct (str n);
    [congruence|reflexivity].
Qed.

Lemma label_token (i : nat) : token (str (Z.of_nat i) ++ ".") = true.
Proof.
  unfold token; rewrite PyFacts.all_chars_app, LookupMore.str_not_space.
  pose proof (PyFacts.str_nonempty (Z.of_nat i)).
  destruct (str (Z.of_nat i)); [congruence|reflexivity].
Qed.

Lemma split_track_row (i : nat) (len begin : Z) :
  split (track_row i len begin) = row_fields i len begin.
Proof.
  unfold track_row.
  change (split ("  " ++ ?s)) with (split s).
  apply split_join; unfold row_fields; cbn [forallb].
  rewrite label_token, !str_token; reflexivity.
Qed.

Lemma split_total_row (total : Z) :
  split (total_row total)
  = ["TOTAL"; str total; "[00:00.00]"; "(audio"; "only)"].
Proof.
  apply split_join; cbn [forallb]; rewrite str_token; reflexivity.
Qed.

Lemma track_row_is_track_line (i : nat) (len begin : Z) :
  is_track_line (track_row i len begin) = true.
Proof.
  apply LookupProps.is_track_line_first_token.
  eexists; eexists; split; [apply split_track_row|].
  rewrite PyFacts.endswith_app by discriminate; reflexivity.
Qed.

Lemma total_row_no_track_line (total : Z) :
  is_track_line (total_row total) = false.
Proof.
  unfold is_track_line.
  rewrite PyFacts.split_strip, split_total_row.
  apply andb_false_r.
Qed.


Lemma join_nonempty (x : string) (l : list string) :
  token x = true -> join " " (x :: l) <> EmptyString.
Proof.
  unfold token; intros H; apply andb_true_iff in H as [H _].
  destruct x as [|c x]; [discriminate|].
  destruct l; simpl; discriminate.
Qed.

Lemma trimmed_join (toks : list string) :
  forallb token toks = true -> trimmed (join " " toks) = true.
Proof.
  induction toks as [|x toks IH]; [reflexivity|].
  cbn [forallb]; intros H; apply andb_true_iff in H as [Hx Ht].
  destruct toks as [|y toks].
  - cbn [join]; unfold trimmed, token in *.
    apply andb_true_iff in Hx as [_ Hx].
    destruct (last_char x) as [c|] eqn:L; [|reflexivity].
    exact (PyFacts.last_char_all _ _ _ Hx L).
  - rewrite PyFacts.join_cons; unfold trimmed.
    assert (N : join " " (y :: toks) <> EmptyString).
    { cbn [forallb] in Ht; apply andb_true_iff in Ht as [Hy _].
      apply join_nonempty, Hy. }
    rewrite PyFacts.last_char_app by (simpl; discriminate).
    rewrite (PyFacts.last_char_app " ") by exact N.
    apply IH, Ht.
Qed.

Lemma first_char_join (x : string) (l : list string) (c : ascii) :
  first_char x = Some c -> first_char (join " " (x :: l)) = Some c.
Proof.
  destruct x as [|d x]; [discriminate|].
  destruct l; simpl; auto.
Qed.

Lemma token_first_char (x : string) :
  token x = true ->
  exists c, first_char x = Some c /\ isspace c = false.
Proof.
  unfold token; intros H; apply andb_true_iff in H as [N H].
  destruct x as [|c x]; [discriminate N|]; simpl in H.
  apply andb_true_iff in H as [H _]; apply negb_true_iff in H.
  exists c; split; [reflexivity|exact H].
Qed.

(** Fields joined by one space have no whitespace around them. *)
Lemma strip_join (x : string) (l : list string) :
  forallb token (x :: l) = true ->
  strip (join " " (x :: l)) = join " " (x :: l).
Proof.
  intros H; unfold strip.
  rewrite PyNumerals.lstrip_id; [apply PyMore.rstrip_id, trimmed_join, H|].
  cbn [forallb] in H; apply andb_true_iff in H as [Hx _].
  destruct (token_first_char x Hx) as (c & F & S).
  apply (first_char_join x l) in F.
  destruct (join " " (x :: l)); [exact I|].
  simpl in F; injection F as ->; exact S.
Qed.

Lemma row_fields_tokens (i : nat) (len begin : Z) :
  forallb token (row_fields i len begin) = true.
Proof.
  unfold row_fields; cbn [forallb].
  rewrite label_token, !str_token; reflexivity.
Qed.

Lemma strip_track_row (i : nat) (len begin : Z) :
  strip (track_row i len begin) = join " " (row_fields i len begin).
Proof.
  unfold track_row.
  change (strip ("  " ++ ?s)) with (strip s).
  apply (strip_join _ _ (row_fields_tokens i len begin)).
Qed.

Lemma str_first_char (n : Z) :
  exists c r, str n = String c r /\ sign_or_digit c = true.
Proof.
  pose proof (PyFacts.str_chars n) as H.
  pose proof (PyFacts.str_nonempty n) as N.
  destruct (str n) as [|c r]; [congruence|].
  simpl in H; apply andb_true_iff in H as [H _]; eauto.
Qed.

Lemma prefix_first_differs (a c : ascii) (p r : string) :
  a <> c -> prefix (String a p) (String c r) = false.
Proof.
  intros H; cbn [prefix].
  destruct (ascii_dec a c); [contradiction|reflexivity].
Qed.

Lemma track_row_no_total_line (i : nat) (len begin : Z) :
  is_total_line (track_row i len begin) = false.
Proof.
  unfold is_total_line; rewrite strip_track_row.
  unfold row_fields; rewrite PyFacts.join_cons.
  destruct (str_first_char (Z.of_nat i)) as (c & r & -> & H).
  unfold startswith; cbn [append].
  apply prefix_first_differs; intros <-; discriminate.
Qed.

Lemma total_row_is_total_line (total : Z) :
  is_total_line (total_row total) = true.
Proof.
  unfold is_total_line, total_row.
  rewrite strip_join by (cbn [forallb]; rewrite str_token; reflexivity).
  reflexivity.
Qed.

Lemma track_lines_rows (tracks : list (Z * Z)) :
  forall i, filter is_track_line (track_rows i tracks) = track_rows i tracks.
Proof.
  induction tracks as [|[len begin] r IH]; intros i; [reflexivity|].
  cbn [track_rows filter].
  rewrite track_row_is_track_line, IH; reflexivity.
Qed.

Lemma find_total_rows (tracks : list (Z * Z)) :
  forall i,
    forallb (fun l => negb (is_total_line l)) (track_rows i tracks) = true.
Proof.
  induction tracks as [|[len begin] r IH]; intros i; [reflexivity|].
  cbn [track_rows forallb].
  rewrite track_row_no_total_line, IH; reflexivity.
Qed.

Lemma offsets_rows (tracks : list (Z * Z)) :
  forall i,
    map (fun l => nth_error (split l) 3) (track_rows i tracks)
    = map Some (map (fun t => str (snd t)) tracks).
Proof.
  induction tracks as [|[len begin] r IH]; intros i; [reflexivity|].
  cbn [track_rows map snd]; rewrite split_track_row, IH; reflexivity.
Qed.

Lemma track_lines_report (tracks : list (Z * Z)) (total : Z) :
  track_lines (report tracks total) = track_rows 1 tracks.
Proof.
  unfold track_lines, report; rewrite !filter_app, track_lines_rows.
  cbn [filter]; rewrite total_row_no_track_line.
  replace (filter is_track_line heading) with (@nil string)
    by (vm_compute; reflexivity).
  change (is_track_line EmptyString) with false.
  cbn [app]; apply app_nil_r.
Qed.

Lemma find_total_report (tracks : list (Z * Z)) (total : Z) :
  find is_total_line (report tracks total) = Some (total_row total).
Proof.
  unfold report; rewrite List.app_assoc.
  apply LookupMore.find_total_app; [|apply total_row_is_total_line].
  rewrite forallb_app, find_total_rows, andb_true_r.
  vm_compute; reflexivity.
Qed.

(** *** From the text to its lines *)

Lemma splitlines_from_line (l : string) :
  forall cur rest,
    all_chars no_linebreak l = true ->
    splitlines_from cur (l ++ newline ++ rest)
    = (cur ++ l) :: splitlines_from EmptyString rest.
Proof.
  induction l as [|c l IH]; intros cur rest H.
  - rewrite PyFacts.app_empty_r.
    cbn [append newline splitlines_from].
    change (is_linebreak (ascii_of_N 10)) with true; cbv iota.
    destruct rest; reflexivity.
  - simpl in H; apply andb_true_iff in H as [Hc Hl].
    apply negb_true_iff in Hc.
    cbn [append splitlines_from]; rewrite Hc, (IH _ _ Hl).
    rewrite PyFacts.app_assoc; reflexivity.
Qed.

(** A text made of lines without line breaks is split into these lines. *)
Lemma splitlines_unlines (lines : list string) :
  forallb (all_chars no_linebreak) lines = true ->
  splitlines (unlines lines) = lines.
Proof.
  unfold splitlines; induction lines as [|l r IH]; [reflexivity|].
  cbn [forallb unlines]; intros H; apply andb_true_iff in H as [Hl Hr].
  rewrite (splitlines_from_line l EmptyString _ Hl), (IH Hr).
  reflexivity.
Qed.

Lemma not_space_no_linebreak (c : ascii) :
  not_space c = true -> no_linebreak c = true.
Proof.
  unfold not_space, no_linebreak, isspace, is_linebreak, in_range.
  repeat match goal with
         | |- context [(?a <=? ?b)%N] => destruct (N.leb_spec a b)
         end; simpl; intros Hs; try reflexivity; try discriminate; lia.
Qed.

Lemma tokens_no_linebreak (toks : list string) :
  forallb token toks = true ->
  all_chars no_linebreak (join " " toks) = true.
Proof.
  intros H; apply LookupMore.all_chars_join; [reflexivity|].
  apply LookupMore.tokens_not_space in H.
  rewrite forallb_forall in *; intros x Hx.
  apply PyFacts.all_chars_impl with (f := not_space);
    [exact not_space_no_linebreak|apply H, Hx].
Qed.

Lemma report_no_linebreak (tracks : list (Z * Z)) (total : Z) :
  forallb (all_chars no_linebreak) (report tracks total) = true.
Proof.
  unfold report; rewrite !forallb_app.
  replace (forallb (all_chars no_linebreak) heading) with true
    by (vm_compute; reflexivity).
  cbn [forallb andb].
  unfold total_row; rewrite tokens_no_linebreak
    by (cbn [forallb]; rewrite str_token; reflexivity).
  cbn [all_chars andb]; rewrite andb_true_r.
  generalize 1%nat; induction tracks as [|[l b] r IH]; intros i;
    [reflexivity|].
  cbn [track_rows forallb]; rewrite IH, andb_true_r.
  unfold track_row; rewrite PyFacts.all_chars_app.
  rewrite (tokens_no_linebreak _ (row_fields_tokens i l b)); reflexivity.
Qed.

(** X19. The report of the scanning tool is read back: for every disc
    with at least one track, whatever the lengths, the first sectors and
    the total are, the parse of its report yields the number of its
    tracks, the first sectors as offsets in order, and the first track's
    first sector plus the total as leadout; the fingerprint is the
    decimal renderings of 1, the track count, the leadout and the first
    sectors joined by "+", and the run on the text of the report queries
    the service with it. *)
Theorem report_is_read_back (len1 begin1 : Z) (rest : list (Z * Z))
        (total : Z) :
  let tracks := (len1, begin1) :: rest in
  let t := mkTOC (length tracks) (begin1 + total)
                 (map (fun x => str (snd x)) tracks) in
  read_toc (report tracks total) = Ok (Some t)
  /\ toc_str t
     = join "+" (map str (1 :: Z.of_nat (length tracks)
                            :: begin1 + total :: map snd tracks))
  /\ forall device http_get,
      run device (Exited 0 (unlines (report tracks total))) http_get
      = log_message ("Getting Table of Contents from " ++ device ++ "...")
        :: query t http_get.
Proof.
  intros tracks t.
  assert (R : read_toc (report tracks total) = Ok (Some t)).
  { pose proof (track_lines_report tracks total) as TL.
    assert (R : read_toc (report tracks total)
                = Ok (Some (mkTOC (length (track_lines
                                             (report tracks total)))
                                  (begin1 + total)
                                  (map (fun x => str (snd x)) tracks)))).
    { apply LookupProps.read_toc_parsed with (f0 := str begin1).
      - rewrite TL; discriminate.
      - rewrite TL; apply offsets_rows.
      - reflexivity.
      - apply PyNumerals.int_str.
      - rewrite (LookupProps.total_sectors_found _ _
                   (find_total_report tracks total)).
        unfold field, index; rewrite split_total_row; cbn [nth_error rbind].
        apply LookupProps.int_of_some, PyNumerals.int_str. }
    rewrite R, TL; unfold t; do 3 f_equal.
    clear; generalize 1%nat; induction tracks as [|[l b] r IH];
      intros i; [reflexivity|]; cbn [track_rows length]; f_equal; apply IH. }
  split; [exact R|split].
  - unfold t; rewrite LookupProps.toc_str_fields by discriminate.
    cbn [track_count leadout offsets map]; rewrite map_map; reflexivity.
  - intros device http_get; apply LookupProps.run_parsed.
    rewrite splitlines_unlines by apply report_no_linebreak; exact R.
Qed.

End ReportProps.
